(** * F1 2019 telemetry recorder: the session state tracker ([Game.py]) and
    the flush pipeline ([main.py]), embedded and verified.

    Python objects are modelled as follows.
    - Integers are [Z], floats are primitive binary64 floats (they are only
      stored, never computed on), [str] is [string], [bytes] is [list byte].
    - A [dict] with string keys is a [gmap string value].
    - The dictionaries bound to the local name [dic] (the tag sets) live in a
      store and the appended records hold their address: two of the methods
      keep mutating one such dictionary after records that point to it were
      appended.
    - The dictionaries reached through [.fields] are never touched again once
      the record that holds them is appended, so they are kept by value.
    - A raised exception ends the computation with [Raise]; the store keeps
      the mutations made before it. *)

From Stdlib Require Import ZArith Floats Ascii String.
From Stdlib.Strings Require Import Byte.
From stdpp Require Import gmap strings list pretty.

Set Warnings "-register-all".
Open Scope Z_scope.

(** ** Values, exceptions *)

Inductive value : Type :=
| VNone
| VInt (z : Z)
| VFloat (f : float)
| VStr (s : string)
| VBytes (b : list byte)
| VArr (l : list value).

Abbreviation dict := (gmap string value).

Inductive exn : Type :=
| IndexError
| KeyError
| TypeError
| AttributeError
| UnicodeDecodeError.

Inductive result (A : Type) : Type :=
| Ok (a : A)
| Raise (e : exn).
Arguments Ok {A} a.
Arguments Raise {A} e.

(** [str(n)] for an integer. *)
Definition str (n : Z) : string := pretty n.

Definition of_option_str (o : option string) : value :=
  match o with Some s => VStr s | None => VNone end.

(** [l[i]] on a list or ctypes array, for [i >= 0]. *)
Definition getitem {A} (l : list A) (i : nat) : result A :=
  match l !! i with Some x => Ok x | None => Raise IndexError end.

(** [d[k]], [del d[k]] on a dictionary. *)
Definition dict_get (d : dict) (k : string) : result value :=
  match d !! k with Some v => Ok v | None => Raise KeyError end.

Definition dict_del (d : dict) (k : string) : result dict :=
  match d !! k with Some _ => Ok (delete k d) | None => Raise KeyError end.

(** [v[i]] on a dictionary value: only arrays are subscriptable by [0..3]. *)
Definition value_getitem (v : value) (i : nat) : result value :=
  match v with
  | VArr l => getitem l i
  | VBytes b => match b !! i with
                | Some c => Ok (VInt (Z.of_N (Byte.to_N c)))
                | None => Raise IndexError
                end
  | VStr s => match String.get i s with
              | Some c => Ok (VStr (String c EmptyString))
              | None => Raise IndexError
              end
  | _ => Raise TypeError
  end.

(** ** [datetime]: naive UTC instants, [strftime] and subtraction *)

Record datetime : Type := mk_datetime {
  year : Z; month : Z; day : Z; hour : Z; minute : Z; second : Z;
  microsecond : Z }.

Definition pad2 (n : Z) : string :=
  if n <? 10 then "0" +:+ pretty n else pretty n.

Definition pad4 (n : Z) : string :=
  if n <? 10 then "000" +:+ pretty n
  else if n <? 100 then "00" +:+ pretty n
  else if n <? 1000 then "0" +:+ pretty n
  else pretty n.

(** The directives of the two formats in use; [%Y] has four digits for the
    years a clock reads. *)
Definition directive (c : ascii) (t : datetime) : string :=
  if decide (c = "Y"%char) then pad4 (year t)
  else if decide (c = "m"%char) then pad2 (month t)
  else if decide (c = "d"%char) then pad2 (day t)
  else if decide (c = "H"%char) then pad2 (hour t)
  else if decide (c = "M"%char) then pad2 (minute t)
  else if decide (c = "S"%char) then pad2 (second t)
  else String "%" (String c EmptyString).

Fixpoint strftime (t : datetime) (fmt : string) : string :=
  match fmt with
  | EmptyString => EmptyString
  | String c rest =>
      match rest with
      | String c' rest' =>
          if decide (c = "%"%char) then directive c' t +:+ strftime t rest'
          else String c (strftime t rest)
      | EmptyString => String c EmptyString
      end
  end.

(** Proleptic Gregorian ordinal of a date, as [datetime.toordinal]. *)
Definition is_leap (y : Z) : bool :=
  (y mod 4 =? 0) && (negb (y mod 100 =? 0) || (y mod 400 =? 0)).

Definition days_before_year (y : Z) : Z :=
  let y1 := y - 1 in y1 * 365 + y1 / 4 - y1 / 100 + y1 / 400.

Definition DAYS_BEFORE_MONTH : list Z :=
  [0; 0; 31; 59; 90; 120; 151; 181; 212; 243; 273; 304; 334].

Definition days_before_month (y m : Z) : Z :=
  default 0 (DAYS_BEFORE_MONTH !! Z.to_nat m)
  + (if (2 <? m) && is_leap y then 1 else 0).

Definition toordinal (t : datetime) : Z :=
  days_before_year (year t) + days_before_month (year t) (month t) + day t.

Definition to_microseconds (t : datetime) : Z :=
  (((toordinal t * 24 + hour t) * 60 + minute t) * 60 + second t) * 1000000
  + microsecond t.

(** [a - b], a [timedelta], counted in microseconds. *)
Definition datetime_sub (a b : datetime) : Z :=
  to_microseconds a - to_microseconds b.

(** ** Decoded packets

    Only the attributes read by [Game.py] and [main.py] are kept. Arrays of
    the wire layout are lists; [fields] is the dictionary the decoder
    attaches to every structure. *)

Module PacketHeader.
Record t : Type := mk {
  packetFormat : Z; packetVersion : Z; packetId : Z;
  sessionUID : Z; sessionTime : float }.
End PacketHeader.

Module CarMotionData.
Record t : Type := mk { fields : dict }.
End CarMotionData.

Module PacketMotionData_V1.
Record t : Type := mk {
  header : PacketHeader.t;
  carMotionData : list CarMotionData.t;
  suspensionPosition : list value;
  suspensionVelocity : list value;
  suspensionAcceleration : list value;
  wheelSpeed : list value;
  wheelSlip : list value;
  localVelocityX : value; localVelocityY : value; localVelocityZ : value;
  angularVelocityX : value; angularVelocityY : value;
  angularVelocityZ : value;
  angularAccelerationX : value; angularAccelerationY : value;
  angularAccelerationZ : value;
  frontWheelsAngle : value }.
End PacketMotionData_V1.

Module MarshalZone.
Record t : Type := mk { fields : dict }.
End MarshalZone.

Module PacketSessionData_V1.
Record t : Type := mk {
  header : PacketHeader.t;
  trackId : Z;
  m_formula : Z;
  marshalZones : list MarshalZone.t;
  fields : dict }.
End PacketSessionData_V1.

Module LapData.
Record t : Type := mk { fields : dict }.
End LapData.

Module PacketLapData_V1.
Record t : Type := mk {
  header : PacketHeader.t;
  lapData : list LapData.t }.
End PacketLapData_V1.

Module PacketEventData_V1.
Record t : Type := mk {
  header : PacketHeader.t;
  fields : dict }.
End PacketEventData_V1.

Module ParticipantData.
Record t : Type := mk { name : list byte; fields : dict }.
End ParticipantData.

Module PacketParticipantsData_V1.
Record t : Type := mk {
  header : PacketHeader.t;
  numActiveCars : Z;
  participants : list ParticipantData.t;
  fields : dict }.
End PacketParticipantsData_V1.

Module CarSetupData.
Record t : Type := mk { fields : dict }.
End CarSetupData.

Module PacketCarSetupData_V1.
Record t : Type := mk {
  header : PacketHeader.t;
  carSetups : list CarSetupData.t }.
End PacketCarSetupData_V1.

Module CarTelemetryData.
Record t : Type := mk {
  fields : dict;
  brakesTemperature : list value;
  tyresSurfaceTemperature : list value;
  tyresInnerTemperature : list value;
  tyresPressure : list value;
  surfaceType : list value }.
End CarTelemetryData.

Module PacketCarTelemetryData_V1.
Record t : Type := mk {
  header : PacketHeader.t;
  carTelemetryData : list CarTelemetryData.t }.
End PacketCarTelemetryData_V1.

Module CarStatusData.
Record t : Type := mk { fields : dict }.
End CarStatusData.

Module PacketCarStatusData_V1.
Record t : Type := mk {
  header : PacketHeader.t;
  carStatusData : list CarStatusData.t }.
End PacketCarStatusData_V1.

Module PacketID.
Definition MOTION : Z := 0.
Definition SESSION : Z := 1.
Definition LAP_DATA : Z := 2.
Definition EVENT : Z := 3.
Definition PARTICIPANTS : Z := 4.
Definition CAR_SETUPS : Z := 5.
Definition CAR_TELEMETRY : Z := 6.
Definition CAR_STATUS : Z := 7.
End PacketID.

(** ** Measurement records, the store, the trace of outside effects *)

Definition loc : Type := nat.

(** The dictionary literal appended to [json]; [T] is [loc] while the record
    is held by the program and [dict] once the sink has serialised it. *)
Record point (T : Type) : Type := mk_point {
  measurement : string;
  tags : T;
  time : string;
  fields : dict }.
Arguments mk_point {T} _ _ _ _.
Arguments measurement {T} _.
Arguments tags {T} _.
Arguments time {T} _.
Arguments fields {T} _.

Inductive event : Type :=
| log_error_too_short (size : nat)
| log_error_unrecognized (key : Z * Z * Z)
| log_error_unexpected_size (key : Z * Z * Z) (size expected : nat)
| print_to_insert (t : nat)
| log_info_recorded (n : nat)
| log_info_no_packets (age : Z)
| write_points (batch : list (point dict)).

Record Game : Type := mk_Game {
  drivers : list string;
  sessionID : option string;
  sessionIDBrut : option Z;
  init : bool }.

Record World : Type := mk_World {
  game : Game;
  heap : list dict;
  trace : list event }.

(** [Game.__init__] and a fresh process. *)
Definition Game_init : Game :=
  {| drivers := []; sessionID := None; sessionIDBrut := None; init := false |}.

Definition World_init : World :=
  {| game := Game_init; heap := []; trace := [] |}.

Definition deref (h : list dict) (l : loc) : dict := default ∅ (h !! l).

Definition snapshot (h : list dict) (p : point loc) : point dict :=
  mk_point (measurement p) (deref h (tags p)) (time p) (fields p).

(** ** The monad of the recorder thread: store passing with exceptions *)

Definition M (A : Type) : Type := World → World * result A.

Definition ret {A} (a : A) : M A := λ w, (w, Ok a).

Definition bind {A B} (m : M A) (k : A → M B) : M B :=
  λ w, match m w with
       | (w', Ok a) => k a w'
       | (w', Raise e) => (w', Raise e)
       end.

Definition lift {A} (r : result A) : M A := λ w, (w, r).

#[global] Instance result_ret : MRet result := λ A a, Ok a.
#[global] Instance result_bind : MBind result :=
  λ A B k r, match r with Ok a => k a | Raise e => Raise e end.
#[global] Instance M_ret : MRet M := @ret.
#[global] Instance M_bind : MBind M := λ A B k m, bind m k.

Definition get_self : M Game := λ w, (w, Ok (game w)).

Definition set_self (g : Game) : M unit :=
  λ w, ({| game := g; heap := heap w; trace := trace w |}, Ok tt).

(** [dic = {}] *)
Definition new_dict : M loc :=
  λ w, ({| game := game w; heap := heap w ++ [∅]; trace := trace w |},
        Ok (length (heap w))).

(** [dic[k] = v] *)
Definition setitem (l : loc) (k : string) (v : value) : M unit :=
  λ w, ({| game := game w;
           heap := <[l := <[k := v]> (deref (heap w) l)]> (heap w);
           trace := trace w |}, Ok tt).

Definition emit (e : event) : M unit :=
  λ w, ({| game := game w; heap := heap w; trace := trace w ++ [e] |}, Ok tt).

(** A [for] loop over [l] whose body updates the local variables [s]. *)
Fixpoint for_ {A S} (l : list A) (body : S → A → M S) (s : S) : M S :=
  match l with
  | [] => ret s
  | x :: l' => s' ← body s x; for_ l' body s'
  end.

(** The four statements [fields[q_RL] = arr[0]] ... [fields[q_FR] = arr[3]]. *)
Definition expand4 (q : string) (arr : list value) (fields : dict)
  : result dict :=
  v ← getitem arr 0; let fields := <[q +:+ "_RL" := v]> fields in
  v ← getitem arr 1; let fields := <[q +:+ "_RR" := v]> fields in
  v ← getitem arr 2; let fields := <[q +:+ "_FL" := v]> fields in
  v ← getitem arr 3; let fields := <[q +:+ "_FR" := v]> fields in
  mret fields.

(** The same with the array read back from the dictionary each time:
    [fields[q_RL] = fields[q][0]] ... *)
Definition expand4_self (q : string) (fields : dict) : result dict :=
  a ← dict_get fields q; v ← value_getitem a 0;
  let fields := <[q +:+ "_RL" := v]> fields in
  a ← dict_get fields q; v ← value_getitem a 1;
  let fields := <[q +:+ "_RR" := v]> fields in
  a ← dict_get fields q; v ← value_getitem a 2;
  let fields := <[q +:+ "_FL" := v]> fields in
  a ← dict_get fields q; v ← value_getitem a 3;
  let fields := <[q +:+ "_FR" := v]> fields in
  mret fields.

Definition time_format : string := "%Y-%m-%dT%H:%M:%SZ".

(** ** [class Game] *)

Section Game.

(** [bytes.decode("utf-8")], [None] standing for [UnicodeDecodeError], and
    the decoder library's table [TrackIDs]. *)
Variable utf8_decode : list byte → option string.
Variable TrackIDs : gmap Z string.

Definition decode (b : list byte) : result string :=
  match utf8_decode b with Some s => Ok s | None => Raise UnicodeDecodeError end.

Definition set_init (b : bool) : M unit :=
  self ← get_self;
  set_self {| drivers := drivers self; sessionID := sessionID self;
              sessionIDBrut := sessionIDBrut self; init := b |}.

Definition set_drivers (l : list string) : M unit :=
  self ← get_self;
  set_self {| drivers := l; sessionID := sessionID self;
              sessionIDBrut := sessionIDBrut self; init := init self |}.

Definition set_sessionID (s : option string) : M unit :=
  self ← get_self;
  set_self {| drivers := drivers self; sessionID := s;
              sessionIDBrut := sessionIDBrut self; init := init self |}.

Definition set_sessionIDBrut (u : option Z) : M unit :=
  self ← get_self;
  set_self {| drivers := drivers self; sessionID := sessionID self;
              sessionIDBrut := u; init := init self |}.

Definition IsInitialized : M bool :=
  self ← get_self;
  (if negb (init self)
   then set_init (bool_decide (0 < length (drivers self))%nat
                  && bool_decide (sessionID self ≠ None))
   else mret tt);;
  self ← get_self;
  mret (init self).

(** [dic = {}] followed by the three assignments every method starts
    with; the order of the assignments differs between methods but the
    keys are distinct. *)
Definition header_tags (h : PacketHeader.t) : M loc :=
  dic ← new_dict;
  self ← get_self;
  setitem dic "sessionId" (of_option_str (sessionID self));;
  setitem dic "sessionTime" (VFloat (PacketHeader.sessionTime h));;
  setitem dic "packetId" (VInt (PacketHeader.packetId h));;
  mret dic.

Definition driver_tags (h : PacketHeader.t) (driver : string) : M loc :=
  dic ← header_tags h;
  setitem dic "driver" (VStr driver);;
  mret dic.

Definition processMotion (packet : PacketMotionData_V1.t) (time : datetime)
  : M (list (point loc)) :=
  let json := [] in
  ready ← IsInitialized;
  if negb ready then mret json else
  self ← get_self;
  '(i, json) ← for_ (drivers self) (λ '(i, json) driver,
      dic ← driver_tags (PacketMotionData_V1.header packet) driver;
      let t := strftime time time_format in
      car ← lift (getitem (PacketMotionData_V1.carMotionData packet) i);
      mret (S i, json ++ [mk_point "MotionData" dic t
                                   (CarMotionData.fields car)]))
    (0%nat, json);
  dic ← header_tags (PacketMotionData_V1.header packet);
  let fields : dict := ∅ in
  let fields := <["localVelocityX" := PacketMotionData_V1.localVelocityX packet]> fields in
  let fields := <["localVelocityY" := PacketMotionData_V1.localVelocityY packet]> fields in
  let fields := <["localVelocityZ" := PacketMotionData_V1.localVelocityZ packet]> fields in
  let fields := <["angularVelocityX" := PacketMotionData_V1.angularVelocityX packet]> fields in
  let fields := <["angularVelocityY" := PacketMotionData_V1.angularVelocityY packet]> fields in
  let fields := <["angularVelocityZ" := PacketMotionData_V1.angularVelocityZ packet]> fields in
  let fields := <["angularAccelerationX" := PacketMotionData_V1.angularAccelerationX packet]> fields in
  let fields := <["angularAccelerationY" := PacketMotionData_V1.angularAccelerationY packet]> fields in
  let fields := <["angularAccelerationZ" := PacketMotionData_V1.angularAccelerationZ packet]> fields in
  let fields := <["frontWheelsAngle" := PacketMotionData_V1.frontWheelsAngle packet]> fields in
  fields ← lift (expand4 "suspensionPosition" (PacketMotionData_V1.suspensionPosition packet) fields);
  fields ← lift (expand4 "suspensionVelocity" (PacketMotionData_V1.suspensionVelocity packet) fields);
  fields ← lift (expand4 "suspensionAcceleration" (PacketMotionData_V1.suspensionAcceleration packet) fields);
  fields ← lift (expand4 "wheelSpeed" (PacketMotionData_V1.wheelSpeed packet) fields);
  fields ← lift (expand4 "wheelSlip" (PacketMotionData_V1.wheelSlip packet) fields);
  mret (json ++ [mk_point "MyMotionData" dic (strftime time time_format) fields]).

Definition processCarSetup (packet : PacketCarSetupData_V1.t)
  (time : datetime) : M (list (point loc)) :=
  let json := [] in
  ready ← IsInitialized;
  if negb ready then mret json else
  self ← get_self;
  '(i, json) ← for_ (drivers self) (λ '(i, json) driver,
      dic ← driver_tags (PacketCarSetupData_V1.header packet) driver;
      let t := strftime time time_format in
      car ← lift (getitem (PacketCarSetupData_V1.carSetups packet) i);
      mret (S i, json ++ [mk_point "CarSetupData" dic t
                                   (CarSetupData.fields car)]))
    (0%nat, json);
  mret json.

Definition processCarTelemetry (packet : PacketCarTelemetryData_V1.t)
  (time : datetime) : M (list (point loc)) :=
  let json := [] in
  ready ← IsInitialized;
  if negb ready then mret json else
  self ← get_self;
  '(i, json) ← for_ (drivers self) (λ '(i, json) driver,
      dic ← driver_tags (PacketCarTelemetryData_V1.header packet) driver;
      (* [packet.carTelemetryData[i]] is indexed anew in every statement
         below, each time with the outcome of this first access *)
      car ← lift (getitem (PacketCarTelemetryData_V1.carTelemetryData packet) i);
      let fields := CarTelemetryData.fields car in
      fields ← lift (expand4 "brakesTemperature" (CarTelemetryData.brakesTemperature car) fields);
      fields ← lift (expand4 "tyresSurfaceTemperature" (CarTelemetryData.tyresSurfaceTemperature car) fields);
      fields ← lift (expand4 "tyresInnerTemperature" (CarTelemetryData.tyresInnerTemperature car) fields);
      fields ← lift (expand4 "tyresPressure" (CarTelemetryData.tyresPressure car) fields);
      fields ← lift (expand4 "surfaceType" (CarTelemetryData.surfaceType car) fields);
      fields ← lift (dict_del fields "surfaceType");
      fields ← lift (dict_del fields "tyresPressure");
      fields ← lift (dict_del fields "tyresInnerTemperature");
      fields ← lift (dict_del fields "tyresSurfaceTemperature");
      fields ← lift (dict_del fields "brakesTemperature");
      mret (S i, json ++ [mk_point "CarTelemetryData" dic
                                   (strftime time time_format) fields]))
    (0%nat, json);
  mret json.

Definition processCarStatus (packet : PacketCarStatusData_V1.t)
  (time : datetime) : M (list (point loc)) :=
  let json := [] in
  ready ← IsInitialized;
  if negb ready then mret json else
  self ← get_self;
  '(i, json) ← for_ (drivers self) (λ '(i, json) driver,
      dic ← driver_tags (PacketCarStatusData_V1.header packet) driver;
      car ← lift (getitem (PacketCarStatusData_V1.carStatusData packet) i);
      let fields := CarStatusData.fields car in
      fields ← lift (expand4_self "tyresWear" fields);
      fields ← lift (expand4_self "tyresDamage" fields);
      fields ← lift (dict_del fields "tyresWear");
      fields ← lift (dict_del fields "tyresDamage");
      mret (S i, json ++ [mk_point "CarStatusData" dic
                                   (strftime time time_format) fields]))
    (0%nat, json);
  mret json.

Definition processLap (packet : PacketLapData_V1.t) (time : datetime)
  : M (list (point loc)) :=
  let json := [] in
  ready ← IsInitialized;
  if negb ready then mret json else
  self ← get_self;
  '(i, json) ← for_ (drivers self) (λ '(i, json) driver,
      dic ← driver_tags (PacketLapData_V1.header packet) driver;
      let t := strftime time time_format in
      car ← lift (getitem (PacketLapData_V1.lapData packet) i);
      mret (S i, json ++ [mk_point "LapData" dic t (LapData.fields car)]))
    (0%nat, json);
  mret json.

Definition mySessionId (packet : PacketSessionData_V1.t) (time : datetime)
  : M (option string) :=
  let uid := PacketHeader.sessionUID (PacketSessionData_V1.header packet) in
  self ← get_self;
  (if bool_decide (Some uid ≠ sessionIDBrut self) then
     set_sessionIDBrut (Some uid);;
     let s := strftime time "%Y%m%d_%H%M" +:+ "_" in
     track ← lift (match TrackIDs !! PacketSessionData_V1.trackId packet with
                   | Some n => Ok n
                   | None => Raise KeyError
                   end);
     set_sessionID
       (Some (s +:+ track +:+ "_" +:+ str (PacketSessionData_V1.m_formula packet)))
   else mret tt);;
  self ← get_self;
  mret (sessionID self).

Definition processSession (packet : PacketSessionData_V1.t)
  (time : datetime) : M (list (point loc)) :=
  let json := [] in
  sid ← mySessionId packet time;
  set_sessionID sid;;
  ready ← IsInitialized;
  if negb ready then mret json else
  dic ← header_tags (PacketSessionData_V1.header packet);
  '(i, json) ← for_ (PacketSessionData_V1.marshalZones packet)
    (λ '(i, json) mz,
      setitem dic "MarshalZoneId" (VStr ("MarshalZone" +:+ str (Z.of_nat i)));;
      mret (S i, json ++ [mk_point "MarshalZones" dic
                                   (strftime time time_format)
                                   (MarshalZone.fields mz)]))
    (0%nat, json);
  dic ← header_tags (PacketSessionData_V1.header packet);
  let fields := PacketSessionData_V1.fields packet in
  fields ← lift (dict_del fields "marshalZones");
  fields ← lift (dict_del fields "header");
  mret (json ++ [mk_point "SessionData" dic (strftime time time_format)
                          fields]).

Definition processEvent (packet : PacketEventData_V1.t) (time : datetime)
  : M (list (point loc)) :=
  let json := [] in
  ready ← IsInitialized;
  if negb ready then mret json else
  dic ← header_tags (PacketEventData_V1.header packet);
  let fields := PacketEventData_V1.fields packet in
  code ← lift (dict_get fields "eventStringCode");
  text ← lift (match code with
               | VBytes b => decode b
               | _ => Raise AttributeError
               end);
  let fields := <["eventStringCode" := VStr text]> fields in
  fields ← lift (dict_del fields "header");
  mret (json ++ [mk_point "EventData" dic (strftime time time_format)
                          fields]).

(** [self.drivers.append(x)] *)
Definition drivers_append (x : string) : M unit :=
  self ← get_self;
  set_drivers (drivers self ++ [x]).

Definition set_fields (p : ParticipantData.t) (d : dict) : ParticipantData.t :=
  ParticipantData.mk (ParticipantData.name p) d.

Definition processParticipant (packet : PacketParticipantsData_V1.t)
  (time : datetime) : M (list (point loc)) :=
  let json := [] in
  ready ← IsInitialized;
  if negb ready then
    let numActiveCars := PacketParticipantsData_V1.numActiveCars packet in
    set_drivers [];;
    for_ (seq 0 (Z.to_nat numActiveCars)) (λ _ i,
        p ← lift (getitem (PacketParticipantsData_V1.participants packet) i);
        driver ← lift (decode (ParticipantData.name p));
        drivers_append driver)
      tt;;
    mret json
  else
  dic ← header_tags (PacketParticipantsData_V1.header packet);
  let fields := PacketParticipantsData_V1.fields packet in
  fields ← lift (dict_del fields "header");
  let numActiveCars := PacketParticipantsData_V1.numActiveCars packet in
  set_drivers [];;
  '(participants, json) ← for_ (seq 0 (Z.to_nat numActiveCars))
    (λ '(participants, json) i,
      p ← lift (getitem participants i);
      driver ← lift (decode (ParticipantData.name p));
      drivers_append driver;;
      setitem dic "driver" (VStr driver);;
      p ← lift (getitem participants i);
      let fields := <["name" := VStr driver]> (ParticipantData.fields p) in
      let participants := <[i := set_fields p fields]> participants in
      let t := strftime time time_format in
      p ← lift (getitem participants i);
      mret (participants,
            json ++ [mk_point "ParticipantData" dic t
                              (ParticipantData.fields p)]))
    (PacketParticipantsData_V1.participants packet, json);
  mret json.

End Game.

(** ** [main.py]: classification, dispatch and the flush loop *)

Inductive Packet : Type :=
| Motion (p : PacketMotionData_V1.t)
| Session (p : PacketSessionData_V1.t)
| Lap (p : PacketLapData_V1.t)
| Event (p : PacketEventData_V1.t)
| Participants (p : PacketParticipantsData_V1.t)
| CarSetups (p : PacketCarSetupData_V1.t)
| CarTelemetry (p : PacketCarTelemetryData_V1.t)
| CarStatus (p : PacketCarStatusData_V1.t).

(** [TimestampedPacket]: reception time and raw datagram. *)
Record TimestampedPacket : Type := mk_TimestampedPacket {
  timestamp : datetime;
  packet : list byte }.

(** [jsonMessages[k] = v] on an insertion-ordered dictionary keyed by packet
    id: an existing key keeps its place and gets the new value. *)
Fixpoint assign {V} (k : Z) (v : V) (d : list (Z * V)) : list (Z * V) :=
  match d with
  | [] => [(k, v)]
  | (k', v') :: d' =>
      if decide (k' = k) then (k, v) :: d' else (k', v') :: assign k v d'
  end.

Fixpoint items_get {V} (k : Z) (d : list (Z * V)) : option V :=
  match d with
  | [] => None
  | (k', v') :: d' => if decide (k' = k) then Some v' else items_get k d'
  end.

Section Recorder.

Variable utf8_decode : list byte → option string.
Variable TrackIDs : gmap Z string.

(** The decoder library, taken as it is used: the size of the header
    structure, the header decoder, the table from (format, version, id) to
    a packet class, the size of a class and the payload decoder. *)
Variable packet_type : Type.
Variable sizeof_PacketHeader : nat.
Variable PacketHeader_from_buffer_copy : list byte → PacketHeader.t.
Variable HeaderFieldsToPacketType : Z * Z * Z → option packet_type.
Variable sizeof : packet_type → nat.
Variable unpack_udp_packet : list byte → Packet.

#[local] Abbreviation processSession := (processSession TrackIDs).
#[local] Abbreviation processParticipant := (processParticipant utf8_decode).
#[local] Abbreviation processEvent := (processEvent utf8_decode).

(** The [if]/[elif] chain on [header.packetId]: the key the result is
    stored under and the tracker call. A payload of another class than
    the method reads has none of the attributes it asks for. *)
Definition dispatch (packetId : Z) (unpacket : Packet) (timestamp : datetime)
  : option (Z * M (list (point loc))) :=
  if decide (packetId = PacketID.MOTION) then
    Some (PacketID.MOTION,
          match unpacket with Motion p => processMotion p timestamp
                         | _ => lift (Raise AttributeError) end)
  else if decide (packetId = PacketID.SESSION) then
    Some (PacketID.SESSION,
          match unpacket with Session p => processSession p timestamp
                         | _ => lift (Raise AttributeError) end)
  else if decide (packetId = PacketID.LAP_DATA) then
    Some (PacketID.LAP_DATA,
          match unpacket with Lap p => processLap p timestamp
                         | _ => lift (Raise AttributeError) end)
  else if decide (packetId = PacketID.EVENT) then
    Some (PacketID.EVENT,
          match unpacket with Event p => processEvent p timestamp
                         | _ => lift (Raise AttributeError) end)
  else if decide (packetId = PacketID.PARTICIPANTS) then
    Some (PacketID.PARTICIPANTS,
          match unpacket with Participants p => processParticipant p timestamp
                         | _ => lift (Raise AttributeError) end)
  else if decide (packetId = PacketID.CAR_SETUPS) then
    Some (PacketID.CAR_STATUS,
          match unpacket with CarSetups p => processCarSetup p timestamp
                         | _ => lift (Raise AttributeError) end)
  else if decide (packetId = PacketID.CAR_STATUS) then
    Some (PacketID.CAR_STATUS,
          match unpacket with CarStatus p => processCarStatus p timestamp
                         | _ => lift (Raise AttributeError) end)
  else if decide (packetId = PacketID.CAR_TELEMETRY) then
    Some (PacketID.CAR_TELEMETRY,
          match unpacket with CarTelemetry p => processCarTelemetry p timestamp
                         | _ => lift (Raise AttributeError) end)
  else None.

(** The three checks before [unpack_udp_packet]: a rejection to log, or
    the header and the decoded payload. *)
Definition classify (packet : list byte) : event + PacketHeader.t * Packet :=
  if bool_decide (length packet < sizeof_PacketHeader)%nat then
    inl (log_error_too_short (length packet))
  else
    let header := PacketHeader_from_buffer_copy packet in
    let packet_type_tuple :=
      (PacketHeader.packetFormat header, PacketHeader.packetVersion header,
       PacketHeader.packetId header) in
    match HeaderFieldsToPacketType packet_type_tuple with
    | None => inl (log_error_unrecognized packet_type_tuple)
    | Some packet_type =>
        if bool_decide (length packet ≠ sizeof packet_type) then
          inl (log_error_unexpected_size packet_type_tuple (length packet)
                                         (sizeof packet_type))
        else inr (header, unpack_udp_packet packet)
    end.

(** One turn of the loop over [timestamped_packets]. *)
Definition process_one (jsonMessages : list (Z * list (point loc)))
  (tp : TimestampedPacket) : M (list (Z * list (point loc))) :=
  match classify (packet tp) with
  | inl rejection => emit rejection;; mret jsonMessages
  | inr (header, unpacket) =>
      match dispatch (PacketHeader.packetId header) unpacket (timestamp tp) with
      | Some (key, call) => v ← call; mret (assign key v jsonMessages)
      | None => mret jsonMessages
      end
  end.

(** [self.client.write_points(v)]: the sink serialises the records, tag
    dictionaries included, as they are at the time of the call. *)
Definition client_write_points (v : list (point loc)) : M unit :=
  λ w, emit (write_points (snapshot (heap w) <$> v)) w.

Definition process_incoming_packets
  (timestamped_packets : list TimestampedPacket) : M unit :=
  jsonMessages ← for_ timestamped_packets process_one [];
  t ← for_ jsonMessages (λ t '(k, v),
        client_write_points v;; mret (t + length v)%nat) 0%nat;
  emit (print_to_insert t);;
  emit (log_info_recorded (length timestamped_packets)).

Definition no_packets_received (age : Z) : M unit :=
  emit (log_info_no_packets age).

(** What one wake-up of [PacketRecorderThread.run] finds: the packets
    swapped out of the queue, the clock reading [utcnow()] would give and
    whether the quit socket was readable. *)
Record tick : Type := mk_tick {
  drained : list TimestampedPacket;
  utcnow : datetime;
  quit : bool }.

(** The body of [while not quitflag], from the swap on; the local
    variable [inactivity_timer] is passed through. *)
Definition run_iteration (inactivity_timer : datetime) (tk : tick)
  : M datetime :=
  let packets := drained tk in
  if bool_decide (length packets ≠ 0%nat) then
    tp ← lift (getitem packets (length packets - 1));
    let inactivity_timer := timestamp tp in
    process_incoming_packets packets;;
    mret inactivity_timer
  else
    let t_now := utcnow tk in
    let age := datetime_sub t_now inactivity_timer in
    no_packets_received age;;
    let inactivity_timer := t_now in
    mret inactivity_timer.

Fixpoint run_loop (ticks : list tick) (inactivity_timer : datetime)
  : M datetime :=
  match ticks with
  | [] => mret inactivity_timer
  | tk :: ticks' =>
      inactivity_timer ← run_iteration inactivity_timer tk;
      if quit tk then mret inactivity_timer
      else run_loop ticks' inactivity_timer
  end.

End Recorder.

(** ** The tracker fed with a sequence of decoded packets *)

Section Tracker.

Variable utf8_decode : list byte → option string.
Variable TrackIDs : gmap Z string.

(** The tracker method of a packet's class. *)
Definition feed (p : Packet) (t : datetime) : M (list (point loc)) :=
  match p with
  | Motion p => processMotion p t
  | Session p => processSession TrackIDs p t
  | Lap p => processLap p t
  | Event p => processEvent utf8_decode p t
  | Participants p => processParticipant utf8_decode p t
  | CarSetups p => processCarSetup p t
  | CarTelemetry p => processCarTelemetry p t
  | CarStatus p => processCarStatus p t
  end.

(** The calls for a sequence of packets, with what each returned. *)
Fixpoint feed_all (ps : list (Packet * datetime))
  : M (list (list (point loc))) :=
  match ps with
  | [] => mret []
  | (p, t) :: ps' =>
      out ← feed p t; outs ← feed_all ps'; mret (out :: outs)
  end.

End Tracker.

(** The readiness gate answers true. *)
Definition Ready (w : World) : Prop := (IsInitialized w).2 = Ok true.

(** The latch of the gate is set. *)
Definition latched (g : Game) : Prop := init g = true.

(** The gate is shut for want of a roster, or for want of an identity. *)
Definition no_roster (g : Game) : Prop := init g = false ∧ drivers g = [].
Definition no_identity (g : Game) : Prop := init g = false ∧ sessionID g = None.

(** A computation that keeps a property of the tracker's attributes. *)
Definition preserves {A} (P : Game → Prop) (m : M A) : Prop :=
  ∀ w, P (game w) → P (game (m w).1).

(** PARTICIPANTS packets that leave a non-empty roster, SESSION packets,
    and the packets of the six other classes. *)
Definition is_roster (p : Packet) : bool :=
  match p with
  | Participants p => bool_decide (0 < PacketParticipantsData_V1.numActiveCars p)
  | _ => false
  end.

Definition is_session (p : Packet) : bool :=
  match p with Session _ => true | _ => false end.

Definition other_type (p : Packet) : bool :=
  match p with Participants _ | Session _ => false | _ => true end.

Definition seen_both (ps : list (Packet * datetime)) : bool :=
  existsb (λ x, is_roster x.1) ps && existsb (λ x, is_session x.1) ps.

(** Seven-bit text, on which UTF-8 decoding is the identity. *)
Definition decode_ascii (b : list byte) : option string :=
  if forallb (λ c, bool_decide (Byte.to_N c < 128)%N) b
  then Some (string_of_list_byte b) else None.

Definition sample_tracks : gmap Z string :=
  <[0 := "Melbourne"]> (<[1 := "Paul Ricard"]> ∅).

Definition sample_time : datetime := mk_datetime 2019 9 7 14 5 9 0.

Definition sample_header (id uid : Z) : PacketHeader.t :=
  PacketHeader.mk 2019 1 id uid 1.5%float.

Definition sample_participants (k : Z) : PacketParticipantsData_V1.t :=
  PacketParticipantsData_V1.mk (sample_header 4 77) k
    [ParticipantData.mk [x41] (<["aiControlled" := VInt 0]> ∅);
     ParticipantData.mk [x42] (<["aiControlled" := VInt 1]> ∅)]
    (<["header" := VNone]> (<["numActiveCars" := VInt k]> ∅)).

Definition sample_session (uid : Z) : PacketSessionData_V1.t :=
  PacketSessionData_V1.mk (sample_header 1 uid) 0 0
    [MarshalZone.mk (<["zoneFlag" := VInt 0]> ∅);
     MarshalZone.mk (<["zoneFlag" := VInt 1]> ∅)]
    (<["marshalZones" := VNone]> (<["header" := VNone]> (<["trackId" := VInt 0]> ∅))).

(** The world after a PARTICIPANTS packet with two cars and a SESSION
    packet: the gate is open. *)
Definition sample_ready : World :=
  (feed_all decode_ascii sample_tracks
     [(Participants (sample_participants 2), sample_time);
      (Session (sample_session 77), sample_time)] World_init).1.

Definition sample_motion : PacketMotionData_V1.t :=
  let w4 := [VFloat 1; VFloat 2; VFloat 3; VFloat 4] in
  PacketMotionData_V1.mk (sample_header 0 77)
    (replicate 20 (CarMotionData.mk (<["worldPositionX" := VFloat 0]> ∅)))
    w4 w4 w4 w4 w4
    (VFloat 0) (VFloat 0) (VFloat 0) (VFloat 0) (VFloat 0) (VFloat 0)
    (VFloat 0) (VFloat 0) (VFloat 0) (VFloat 0).

Definition sample_lap (pos : Z) : PacketLapData_V1.t :=
  PacketLapData_V1.mk (sample_header 2 77)
    (replicate 20 (LapData.mk (<["carPosition" := VInt pos]> ∅))).

(** The composite identity of a session: capture time to the minute, track
    name and format code. *)
Definition session_identity (t : datetime) (track : string) (formula : Z)
  : string :=
  (strftime t "%Y%m%d_%H%M" +:+ "_") +:+ track +:+ "_" +:+ str formula.

(** The elapsed times of the inactivity observations of a trace. *)
Definition inactivity_ages (tr : list event) : list Z :=
  omap (λ e, match e with log_info_no_packets age => Some age | _ => None end) tr.

(** The batches the sink was called with. *)
Definition sink_calls (tr : list event) : list (list (point dict)) :=
  omap (λ e, match e with write_points b => Some b | _ => None end) tr.

(** A stand-in decoder for examples: three-byte datagrams, the first byte
    is the packet id and the second one a parameter of the payload. *)
Definition byte_Z (c : byte) : Z := Z.of_N (Byte.to_N c).

Definition sample_from_buffer_copy (b : list byte) : PacketHeader.t :=
  sample_header (byte_Z (nth 0 b x00)) 77.

Definition sample_table (key : Z * Z * Z) : option nat :=
  let '(format, version, id) := key in
  if bool_decide (format = 2019 ∧ version = 1 ∧ 0 ≤ id ≤ 7)
  then Some 3%nat else None.

Definition sample_unpack (b : list byte) : Packet :=
  let arg := byte_Z (nth 1 b x00) in
  match byte_Z (nth 0 b x00) with
  | 1 => Session (sample_session arg)
  | 2 => Lap (sample_lap arg)
  | 4 => Participants (sample_participants arg)
  | _ => Motion sample_motion
  end.

Definition sample_datagram (id arg : byte) (s : Z) : TimestampedPacket :=
  mk_TimestampedPacket (mk_datetime 2019 9 7 14 5 s 0) [id; arg; x00].

(** A computation that only appends to the trace and never reads it: from
    given attributes and store, the outcome and the appended events are
    the same whatever was logged before. *)
Definition blind {A} (m : M A) : Prop :=
  ∀ g h, ∃ g' h' Δ r,
    ∀ tr, m (mk_World g h tr) = (mk_World g' h' (tr ++ Δ), r).

(** The recorder over the stand-in decoder. *)
Definition sample_process_one :=
  process_one decode_ascii sample_tracks nat 2%nat sample_from_buffer_copy
    sample_table (λ n, n) sample_unpack.

Definition sample_process_incoming_packets :=
  process_incoming_packets decode_ascii sample_tracks nat 2%nat
    sample_from_buffer_copy sample_table (λ n, n) sample_unpack.

Definition sample_run_iteration :=
  run_iteration decode_ascii sample_tracks nat 2%nat sample_from_buffer_copy
    sample_table (λ n, n) sample_unpack.

Definition sample_run_loop :=
  run_loop decode_ascii sample_tracks nat 2%nat sample_from_buffer_copy
    sample_table (λ n, n) sample_unpack.

(** The type tag of the class of a decoded payload, and the eight type
    tags there are. *)
Definition type_tag (p : Packet) : Z :=
  match p with
  | Motion _ => PacketID.MOTION
  | Session _ => PacketID.SESSION
  | Lap _ => PacketID.LAP_DATA
  | Event _ => PacketID.EVENT
  | Participants _ => PacketID.PARTICIPANTS
  | CarSetups _ => PacketID.CAR_SETUPS
  | CarTelemetry _ => PacketID.CAR_TELEMETRY
  | CarStatus _ => PacketID.CAR_STATUS
  end.

Definition type_tags : list Z :=
  [PacketID.MOTION; PacketID.SESSION; PacketID.LAP_DATA; PacketID.EVENT;
   PacketID.PARTICIPANTS; PacketID.CAR_SETUPS; PacketID.CAR_TELEMETRY;
   PacketID.CAR_STATUS].

Section Returned.

Variable utf8_decode : list byte → option string.
Variable TrackIDs : gmap Z string.
Variable packet_type : Type.
Variable sizeof_PacketHeader : nat.
Variable PacketHeader_from_buffer_copy : list byte → PacketHeader.t.
Variable HeaderFieldsToPacketType : Z * Z * Z → option packet_type.
Variable sizeof : packet_type → nat.
Variable unpack_udp_packet : list byte → Packet.

(** Routing in the words of the specification, written without the
    [if]/[elif] chain of [main.py]: a decoded packet is routed by the type
    tag of its header to the tracker method for that type, which is the
    method [feed] picks for a payload of that type's class. The method
    for one type, handed a payload of another class, finds none of the
    attributes it reads. A tag that is none of the eight routes nowhere. *)
Definition routed_by_type_tag (tag : Z) (unpacket : Packet) (t : datetime)
  : option (M (list (point loc))) :=
  if decide (tag ∈ type_tags) then
    Some (if decide (type_tag unpacket = tag)
          then feed utf8_decode TrackIDs unpacket t
          else lift (Raise AttributeError))
  else None.

(** The successfully decoded packets of a drained set in arrival order,
    each routed by [routed_by_type_tag], with its type tag and the records
    its tracker call returned. *)
Fixpoint returned (tps : list TimestampedPacket)
  : M (list (Z * list (point loc))) :=
  match tps with
  | [] => mret []
  | tp :: tps' =>
      match classify packet_type sizeof_PacketHeader
              PacketHeader_from_buffer_copy HeaderFieldsToPacketType sizeof
              unpack_udp_packet (packet tp) with
      | inl rejection => emit rejection;; returned tps'
      | inr (header, unpacket) =>
          let id := PacketHeader.packetId header in
          match routed_by_type_tag id unpacket (timestamp tp) with
          | Some call =>
              v ← call; rest ← returned tps'; mret ((id, v) :: rest)
          | None => returned tps'
          end
      end
  end.

End Returned.

(** What the last packet of type [id] returned, if there was one. *)
Fixpoint last_returned (id : Z) (calls : list (Z * list (point loc)))
  : option (list (point loc)) :=
  match calls with
  | [] => None
  | (id', v) :: rest =>
      match last_returned id rest with
      | Some v' => Some v'
      | None => if decide (id' = id) then Some v else None
      end
  end.

(** The key a packet id is stored under by the [if]/[elif] chain. *)
Definition key_of (id : Z) : Z :=
  if decide (id = PacketID.CAR_SETUPS) then PacketID.CAR_STATUS else id.

(** The events of the second half of [process_incoming_packets]: one sink
    call per stored batch, then the two counts. *)
Definition flush_events (h : list dict) (jm : list (Z * list (point loc)))
  (n : nat) : list event :=
  ((λ kv, write_points (snapshot h <$> kv.2)) <$> jm)
  ++ [print_to_insert (sum_list ((λ kv, length kv.2) <$> jm));
      log_info_recorded n].

Definition sample_returned :=
  returned decode_ascii sample_tracks nat 2%nat sample_from_buffer_copy
    sample_table (λ n, n) sample_unpack.

(** The dictionary [jsonMessages] after the calls [calls] were stored. *)
Definition store_all (calls : list (Z * list (point loc)))
  (jm : list (Z * list (point loc))) : list (Z * list (point loc)) :=
  foldl (λ d c, assign (key_of c.1) c.2 d) jm calls.

(** The batch of type [id] in [jm] against the calls of a drained set:
    there is one exactly when a packet of the type was decoded; it has the
    records the last such packet's call returned, and every record in it
    was returned by the call for a packet of that type. What became of
    the records of the earlier packets of the type is not said. *)
Definition batch_of_type (id : Z) (calls jm : list (Z * list (point loc)))
  : Prop :=
  match last_returned id calls with
  | None => items_get id jm = None
  | Some v =>
      ∃ b, items_get id jm = Some b
           ∧ (∀ r, r ∈ v → r ∈ b)
           ∧ (∀ r, r ∈ b → ∃ v', (id, v') ∈ calls ∧ r ∈ v')
  end.

(** The four scalar fields a wheel array [arr] of quantity [q] is expanded
    to, in the order RL, RR, FL, FR, the array-valued field being gone. *)
Definition wheel_fields (q : string) (arr : list value) (d : dict) : Prop :=
  d !! (q +:+ "_RL") = arr !! 0%nat
  ∧ d !! (q +:+ "_RR") = arr !! 1%nat
  ∧ d !! (q +:+ "_FL") = arr !! 2%nat
  ∧ d !! (q +:+ "_FR") = arr !! 3%nat
  ∧ d !! q = None.

(** A car's telemetry as the decoder delivers it: five arrays of four, and
    a field dictionary that has the five array-valued entries. *)
Definition telemetry_shape (car : CarTelemetryData.t) : Prop :=
  length (CarTelemetryData.brakesTemperature car) = 4%nat
  ∧ length (CarTelemetryData.tyresSurfaceTemperature car) = 4%nat
  ∧ length (CarTelemetryData.tyresInnerTemperature car) = 4%nat
  ∧ length (CarTelemetryData.tyresPressure car) = 4%nat
  ∧ length (CarTelemetryData.surfaceType car) = 4%nat
  ∧ is_Some (CarTelemetryData.fields car !! "brakesTemperature")
  ∧ is_Some (CarTelemetryData.fields car !! "tyresSurfaceTemperature")
  ∧ is_Some (CarTelemetryData.fields car !! "tyresInnerTemperature")
  ∧ is_Some (CarTelemetryData.fields car !! "tyresPressure")
  ∧ is_Some (CarTelemetryData.fields car !! "surfaceType").

(** The record of a participant: its field dictionary with the decoded
    name put in. *)
Definition participant_record (dic : loc) (t : string)
  (p : ParticipantData.t) (driver : string) : point loc :=
  mk_point "ParticipantData" dic t
    (<["name" := VStr driver]> (ParticipantData.fields p)).

Definition sample_car_telemetry (p0 p1 p2 p3 : float) : CarTelemetryData.t :=
  let temps := [VInt 400; VInt 401; VInt 402; VInt 403] in
  let pressure := [VFloat p0; VFloat p1; VFloat p2; VFloat p3] in
  let surface := [VInt 0; VInt 0; VInt 1; VInt 1] in
  CarTelemetryData.mk
    (<["speed" := VInt 250]>
       (<["brakesTemperature" := VArr temps]>
          (<["tyresSurfaceTemperature" := VArr temps]>
             (<["tyresInnerTemperature" := VArr temps]>
                (<["tyresPressure" := VArr pressure]>
                   (<["surfaceType" := VArr surface]> ∅))))))
    temps temps temps pressure surface.

Definition sample_telemetry : PacketCarTelemetryData_V1.t :=
  PacketCarTelemetryData_V1.mk (sample_header 6 77)
    (replicate 20 (sample_car_telemetry 1 2 3 4)).

(** The car position field of each record of a batch. *)
Definition car_positions {T} (b : list (point T)) : list (option value) :=
  (λ r, fields r !! "carPosition") <$> b.

(** What the CAR_TELEMETRY record of car slot [i] has to be: each of the
    five wheel arrays of that car expanded, none of them left as a field. *)
Definition telemetry_record (packet : PacketCarTelemetryData_V1.t)
  (i : nat) (r : point loc) : Prop :=
  ∃ car, PacketCarTelemetryData_V1.carTelemetryData packet !! i = Some car
    ∧ measurement r = "CarTelemetryData"
    ∧ wheel_fields "brakesTemperature"
        (CarTelemetryData.brakesTemperature car) (fields r)
    ∧ wheel_fields "tyresSurfaceTemperature"
        (CarTelemetryData.tyresSurfaceTemperature car) (fields r)
    ∧ wheel_fields "tyresInnerTemperature"
        (CarTelemetryData.tyresInnerTemperature car) (fields r)
    ∧ wheel_fields "tyresPressure"
        (CarTelemetryData.tyresPressure car) (fields r)
    ∧ wheel_fields "surfaceType"
        (CarTelemetryData.surfaceType car) (fields r).

(** [self.drivers.append(driver)] seen on the attributes. *)
Definition with_driver (g : Game) (driver : string) : Game :=
  mk_Game (drivers g ++ [driver]) (sessionID g) (sessionIDBrut g) (init g).

Definition sample_names : list string := ["A"; "B"].

(** ** Packets as the wire layout has them *)

(** The per-car arrays have twenty slots, the per-wheel arrays four. *)
Definition car_slots : nat := 20.

Definition is_wheel_array (l : list value) : bool :=
  bool_decide (length l = 4%nat).

(** An entry of a field dictionary that, if present, is a per-wheel array. *)
Definition field_wheel_array (d : dict) (q : string) : bool :=
  match d !! q with
  | Some (VArr l) => is_wheel_array l
  | Some _ => false
  | None => true
  end.

Definition wf_telemetry (car : CarTelemetryData.t) : bool :=
  is_wheel_array (CarTelemetryData.brakesTemperature car)
  && is_wheel_array (CarTelemetryData.tyresSurfaceTemperature car)
  && is_wheel_array (CarTelemetryData.tyresInnerTemperature car)
  && is_wheel_array (CarTelemetryData.tyresPressure car)
  && is_wheel_array (CarTelemetryData.surfaceType car).

Definition wf_status (car : CarStatusData.t) : bool :=
  field_wheel_array (CarStatusData.fields car) "tyresWear"
  && field_wheel_array (CarStatusData.fields car) "tyresDamage".

(** The shape of a decoded packet: full per-car arrays, per-wheel arrays of
    four, and no more active cars than car slots. *)
Definition wf_packet (p : Packet) : bool :=
  match p with
  | Motion p =>
      bool_decide (length (PacketMotionData_V1.carMotionData p) = car_slots)
      && is_wheel_array (PacketMotionData_V1.suspensionPosition p)
      && is_wheel_array (PacketMotionData_V1.suspensionVelocity p)
      && is_wheel_array (PacketMotionData_V1.suspensionAcceleration p)
      && is_wheel_array (PacketMotionData_V1.wheelSpeed p)
      && is_wheel_array (PacketMotionData_V1.wheelSlip p)
  | Session _ => true
  | Lap p => bool_decide (length (PacketLapData_V1.lapData p) = car_slots)
  | Event _ => true
  | Participants p =>
      bool_decide (length (PacketParticipantsData_V1.participants p) = car_slots)
      && bool_decide (PacketParticipantsData_V1.numActiveCars p ≤ Z.of_nat car_slots)
  | CarSetups p =>
      bool_decide (length (PacketCarSetupData_V1.carSetups p) = car_slots)
  | CarTelemetry p =>
      bool_decide (length (PacketCarTelemetryData_V1.carTelemetryData p) = car_slots)
      && forallb wf_telemetry (PacketCarTelemetryData_V1.carTelemetryData p)
  | CarStatus p =>
      bool_decide (length (PacketCarStatusData_V1.carStatusData p) = car_slots)
      && forallb wf_status (PacketCarStatusData_V1.carStatusData p)
  end.

(** The roster has no more names than there are car slots. *)
Definition roster_fits (g : Game) : Prop :=
  (length (drivers g) ≤ car_slots)%nat.

(** A computation that never fails with an out-of-range index, in any
    world, or in the worlds whose tracker satisfies [P]. *)
Definition safe {A} (m : M A) : Prop :=
  ∀ w, (m w).2 ≠ Raise IndexError.

Definition safe_from {A} (P : Game → Prop) (m : M A) : Prop :=
  ∀ w, P (game w) → (m w).2 ≠ Raise IndexError.

Definition sample_grid : PacketParticipantsData_V1.t :=
  PacketParticipantsData_V1.mk (sample_header 4 77) 20
    (replicate 20 (ParticipantData.mk [x41] (<["aiControlled" := VInt 1]> ∅)))
    (<["header" := VNone]> (<["numActiveCars" := VInt 20]> ∅)).

Definition sample_status : PacketCarStatusData_V1.t :=
  let wear := VArr [VInt 1; VInt 2; VInt 3; VInt 4] in
  PacketCarStatusData_V1.mk (sample_header 7 77)
    (replicate 20 (CarStatusData.mk
                     (<["tyresWear" := wear]> (<["tyresDamage" := wear]> ∅)))).

(** ** The tag sets the methods build *)

(** The dictionary [dic] after the three assignments from the header. *)
Definition header_dict (g : Game) (h : PacketHeader.t) : dict :=
  <["packetId" := VInt (PacketHeader.packetId h)]>
    (<["sessionTime" := VFloat (PacketHeader.sessionTime h)]>
       (<["sessionId" := of_option_str (sessionID g)]> ∅)).

Definition driver_dict (g : Game) (h : PacketHeader.t) (driver : string)
  : dict :=
  <["driver" := VStr driver]> (header_dict g h).

(** The tracker once the gate has answered true: the latch is set. *)
Definition open_gate (g : Game) : Game :=
  mk_Game (drivers g) (sessionID g) (sessionIDBrut g) true.

(** The record a per-driver method appends for one car slot, as the sink
    gets it. *)
Definition driver_point (name : string) (g : Game) (h : PacketHeader.t)
  (t : datetime) (driver : string) (fields : dict) : point dict :=
  mk_point name (driver_dict g h driver) (strftime t time_format) fields.

Definition sample_setup : PacketCarSetupData_V1.t :=
  PacketCarSetupData_V1.mk (sample_header 5 77)
    (replicate 20 (CarSetupData.mk (<["frontWing" := VInt 5]> ∅))).

(** ** What the records of the other per-car methods have to hold *)

(** The fields of the aggregate MOTION record: the ten scalars of the
    packet and the five wheel arrays, each expanded. *)
Definition motion_fields (p : PacketMotionData_V1.t) (d : dict) : Prop :=
  d !! "localVelocityX" = Some (PacketMotionData_V1.localVelocityX p)
  ∧ d !! "localVelocityY" = Some (PacketMotionData_V1.localVelocityY p)
  ∧ d !! "localVelocityZ" = Some (PacketMotionData_V1.localVelocityZ p)
  ∧ d !! "angularVelocityX" = Some (PacketMotionData_V1.angularVelocityX p)
  ∧ d !! "angularVelocityY" = Some (PacketMotionData_V1.angularVelocityY p)
  ∧ d !! "angularVelocityZ" = Some (PacketMotionData_V1.angularVelocityZ p)
  ∧ d !! "angularAccelerationX"
    = Some (PacketMotionData_V1.angularAccelerationX p)
  ∧ d !! "angularAccelerationY"
    = Some (PacketMotionData_V1.angularAccelerationY p)
  ∧ d !! "angularAccelerationZ"
    = Some (PacketMotionData_V1.angularAccelerationZ p)
  ∧ d !! "frontWheelsAngle" = Some (PacketMotionData_V1.frontWheelsAngle p)
  ∧ wheel_fields "suspensionPosition"
      (PacketMotionData_V1.suspensionPosition p) d
  ∧ wheel_fields "suspensionVelocity"
      (PacketMotionData_V1.suspensionVelocity p) d
  ∧ wheel_fields "suspensionAcceleration"
      (PacketMotionData_V1.suspensionAcceleration p) d
  ∧ wheel_fields "wheelSpeed" (PacketMotionData_V1.wheelSpeed p) d
  ∧ wheel_fields "wheelSlip" (PacketMotionData_V1.wheelSlip p) d.

(** A car's status as the decoder delivers it: wear and damage are entries
    of the field dictionary, arrays of four. *)
Definition status_shape (car : CarStatusData.t) : Prop :=
  ∃ wear damage,
    CarStatusData.fields car !! "tyresWear" = Some (VArr wear)
    ∧ length wear = 4%nat
    ∧ CarStatusData.fields car !! "tyresDamage" = Some (VArr damage)
    ∧ length damage = 4%nat.

(** The keys [processCarStatus] writes or deletes. *)
Definition status_keys : list string :=
  ["tyresWear"; "tyresWear_RL"; "tyresWear_RR"; "tyresWear_FL";
   "tyresWear_FR"; "tyresDamage"; "tyresDamage_RL"; "tyresDamage_RR";
   "tyresDamage_FL"; "tyresDamage_FR"].

(** What the CAR_STATUS record of car slot [i] has to be: wear and damage
    of that car expanded, the two arrays gone, every other field of the
    car as it was. *)
Definition status_record (packet : PacketCarStatusData_V1.t)
  (i : nat) (r : point loc) : Prop :=
  ∃ car wear damage,
    PacketCarStatusData_V1.carStatusData packet !! i = Some car
    ∧ CarStatusData.fields car !! "tyresWear" = Some (VArr wear)
    ∧ CarStatusData.fields car !! "tyresDamage" = Some (VArr damage)
    ∧ measurement r = "CarStatusData"
    ∧ wheel_fields "tyresWear" wear (fields r)
    ∧ wheel_fields "tyresDamage" damage (fields r)
    ∧ ∀ k, k ∉ status_keys → fields r !! k = CarStatusData.fields car !! k.

(** ** The tag set shared by the records of one SESSION packet *)

Definition zone_label (i : nat) : value :=
  VStr ("MarshalZone" +:+ str (Z.of_nat i)).

(** The dictionary [dic] of the zone loop after [n] turns that started at
    index [i]: the label of the last turn, if there was one. *)
Definition zone_tags (i n : nat) (d : dict) : dict :=
  match n with
  | O => d
  | S m => <["MarshalZoneId" := zone_label (i + m)]> d
  end.

(** The records of a SESSION packet as the sink reads them: one per marshal
    zone, all with the tags the loop ended with, then the session record. *)
Definition session_points (g : Game) (p : PacketSessionData_V1.t)
  (t : datetime) : list (point dict) :=
  let hd := PacketSessionData_V1.header p in
  let zones := PacketSessionData_V1.marshalZones p in
  ((λ mz, mk_point "MarshalZones"
            (zone_tags 0 (length zones) (header_dict g hd))
            (strftime t time_format) (MarshalZone.fields mz)) <$> zones)
  ++ [mk_point "SessionData" (header_dict g hd) (strftime t time_format)
        (delete "header"
           (delete "marshalZones" (PacketSessionData_V1.fields p)))].

(** The tracker after a SESSION packet that opened the gate. *)
Definition with_identity (g : Game) (s : string) (uid : Z) : Game :=
  mk_Game (drivers g) (Some s) (Some uid) true.

(** ** The tag set shared by the records of one PARTICIPANTS packet *)

(** The dictionary [dic] after the loop over the active cars: the driver
    entry holds the name written last, if any was. *)
Definition shared_driver_tags (names : list string) (d : dict) : dict :=
  match last names with
  | Some nm => <["driver" := VStr nm]> d
  | None => d
  end.

(** The tracker with its roster replaced. *)
Definition with_roster (g : Game) (names : list string) : Game :=
  mk_Game names (sessionID g) (sessionIDBrut g) (init g).

(** ** What a tracker call may touch *)

(** A computation confined to the dictionaries it allocates itself: the
    first [n] dictionaries of the store and the trace are left as they
    are. *)
Definition confined (n : nat) {A} (m : M A) : Prop :=
  ∀ w, (n ≤ length (heap w))%nat →
    take n (heap (m w).1) = take n (heap w)
    ∧ (n ≤ length (heap (m w).1))%nat
    ∧ trace (m w).1 = trace w.

(** Records whose tag dictionaries are all in the store [h]. *)
Definition tags_in (h : list dict) (json : list (point loc)) : Prop :=
  Forall (λ r, (tags r < length h)%nat) json.

(** ** Attributes held fixed *)

Definition roster_is (ds : list string) (g : Game) : Prop := drivers g = ds.

Definition identity_is (sid : option string) (brut : option Z) (g : Game)
  : Prop :=
  sessionID g = sid ∧ sessionIDBrut g = brut.

(** ** The flush pipeline *)

(** The keys [jsonMessages] can get: every packet id but CAR_SETUPS. *)
Definition batch_keys : list Z :=
  [PacketID.MOTION; PacketID.SESSION; PacketID.LAP_DATA; PacketID.EVENT;
   PacketID.PARTICIPANTS; PacketID.CAR_TELEMETRY; PacketID.CAR_STATUS].

(** The calls of a drained set, each under the key its result is stored
    with. *)
Definition by_key (calls : list (Z * list (point loc)))
  : list (Z * list (point loc)) :=
  (λ c, (key_of c.1, c.2)) <$> calls.

(** [jsonMessages[key] = call(...)]: the outcome of a tracker call, stored
    under [key] when the call returns. *)
Definition stored (key : Z) (jm : list (Z * list (point loc)))
  (outcome : World * result (list (point loc)))
  : World * result (list (Z * list (point loc))) :=
  match outcome with
  | (w', Ok v) => (w', Ok (assign key v jm))
  | (w', Raise e) => (w', Raise e)
  end.

(** What consecutive wake-ups without packets report, from the inactivity
    timer and the clock readings. *)
Fixpoint idle_ages (timer : datetime) (clocks : list datetime) : list Z :=
  match clocks with
  | [] => []
  | c :: cs => datetime_sub c timer :: idle_ages c cs
  end.

Definition sum_Z (l : list Z) : Z := foldr Z.add 0 l.

(** A stand-in payload decoder that also knows the two per-car types
    stored under one key. *)
Definition sample_unpack_cars (b : list byte) : Packet :=
  match byte_Z (nth 0 b x00) with
  | 5 => CarSetups sample_setup
  | 7 => CarStatus sample_status
  | _ => sample_unpack b
  end.

(** A drained set whose last packet makes its tracker call fail: three
    active cars announced over an array of two participants. *)
Definition sample_failing_drain : list TimestampedPacket :=
  [sample_datagram x04 x02 9; sample_datagram x01 x4d 9;
   sample_datagram x02 x01 9; sample_datagram x04 x03 9].

(** ** The hand-over of packets between the two threads *)

(** The two list objects of [PacketRecorderThread]: the attribute
    [self._packets] the receiver thread appends to, and the local variable
    [packets] of [run]. *)
Record Handover : Type := mk_Handover {
  self_packets : list TimestampedPacket;
  packets : list TimestampedPacket }.

Definition Handover_init : Handover := mk_Handover [] [].

(** [record_packet], under the lock. *)
Definition record_packet (timestamped_packet : TimestampedPacket)
  (q : Handover) : Handover :=
  mk_Handover (self_packets q ++ [timestamped_packet]) (packets q).

(** One turn of the loop of [run] seen from the two lists, for a flush
    that returns: the swap under the lock, then what is passed to
    [process_incoming_packets] (nothing when [packets] is empty) and the
    lists after [packets.clear()]. *)
Definition wake_up (q : Handover) : list TimestampedPacket * Handover :=
  let q := mk_Handover (packets q) (self_packets q) in
  if bool_decide (length (packets q) ≠ 0%nat)
  then (packets q, mk_Handover (self_packets q) [])
  else ([], q).

(** What the two threads do to the lists, in the order the lock grants. *)
Inductive action : Type :=
| received (timestamped_packet : TimestampedPacket)
| woke.

Fixpoint hand_over (schedule : list action) (q : Handover)
  : list (list TimestampedPacket) * Handover :=
  match schedule with
  | [] => ([], q)
  | received tp :: rest => hand_over rest (record_packet tp q)
  | woke :: rest =>
      let '(batch, q) := wake_up q in
      let '(batches, q) := hand_over rest q in
      (batch :: batches, q)
  end.

Definition arrivals (schedule : list action) : list TimestampedPacket :=
  omap (λ a, match a with received tp => Some tp | woke => None end) schedule.

(** ** [formatLapJsonMessage] *)

(** The method of [PacketRecorder] that nothing calls. [packet.header.fields]
    is one dictionary, kept at [header_fields] in the store. *)
Definition formatLapJsonMessage (header_fields : loc)
  (packet : PacketLapData_V1.t) (time : datetime) : M (list (point loc)) :=
  let json := [] in
  json ← for_ (seq 0 20) (λ json i,
      let dic := header_fields in
      setitem dic "driver" (VInt (Z.of_nat i + 1));;
      car ← lift (getitem (PacketLapData_V1.lapData packet) i);
      mret (json ++ [mk_point "LapData" dic (strftime time time_format)
                       (LapData.fields car)]))
    json;
  mret json.

(** The keys [processCarTelemetry] writes or deletes. *)
Definition telemetry_keys : list string :=
  q ← ["brakesTemperature"; "tyresSurfaceTemperature";
       "tyresInnerTemperature"; "tyresPressure"; "surfaceType"];
  [q; q +:+ "_RL"; q +:+ "_RR"; q +:+ "_FL"; q +:+ "_FR"].

(** The CAR_TELEMETRY record of car slot [i] has every field of the car
    that is none of these keys. *)
Definition telemetry_rest (packet : PacketCarTelemetryData_V1.t)
  (i : nat) (r : point loc) : Prop :=
  ∃ car, PacketCarTelemetryData_V1.carTelemetryData packet !! i = Some car
    ∧ ∀ k, k ∉ telemetry_keys →
           fields r !! k = CarTelemetryData.fields car !! k.

(** * Properties *)

(** ** Stepping through the monad *)

Lemma bind_Ok {A B} (m : M A) (k : A → M B) w w' a :
  m w = (w', Ok a) → (m ≫= k) w = k a w'.
Proof. intros H. unfold mbind, M_bind, bind. by rewrite H. Qed.

Lemma bind_Raise {A B} (m : M A) (k : A → M B) w w' e :
  m w = (w', Raise e) → (m ≫= k) w = (w', Raise e).
Proof. intros H. unfold mbind, M_bind, bind. by rewrite H. Qed.

(** Run the primitive operations of a computation applied to a world. *)
Ltac mrun :=
  repeat (progress (cbv beta delta
    [mbind M_bind bind mret M_ret ret lift get_self set_self set_init
     set_drivers set_sessionID set_sessionIDBrut drivers_append new_dict
     setitem emit]; simpl)).

(** ** Properties of the attributes kept by the methods *)

Section Preserves.

Context (P : Game → Prop).

Lemma preserves_ret {A} (a : A) : preserves P (mret a).
Proof. by intros w H. Qed.

Lemma preserves_lift {A} (r : result A) : preserves P (lift r).
Proof. by intros w H. Qed.

Lemma preserves_bind {A B} (m : M A) (k : A → M B) :
  preserves P m → (∀ a, preserves P (k a)) → preserves P (m ≫= k).
Proof.
  intros Hm Hk w H. unfold mbind, M_bind, bind.
  specialize (Hm w H). destruct (m w) as [w' [a|e]]; simpl in *; [|done].
  by apply Hk.
Qed.

Lemma preserves_for {A S} (l : list A) (body : S → A → M S) s :
  (∀ s x, preserves P (body s x)) → preserves P (for_ l body s).
Proof.
  intros Hb. revert s. induction l as [|x l IH]; intros s; simpl.
  - apply preserves_ret.
  - apply preserves_bind; auto.
Qed.

Lemma preserves_get_self : preserves P get_self.
Proof. by intros w H. Qed.

Lemma preserves_new_dict : preserves P new_dict.
Proof. by intros w H. Qed.

Lemma preserves_setitem l k v : preserves P (setitem l k v).
Proof. by intros w H. Qed.

Lemma preserves_emit e : preserves P (emit e).
Proof. by intros w H. Qed.

End Preserves.

Create HintDb keeps.

#[local] Hint Resolve preserves_ret preserves_lift preserves_get_self
  preserves_new_dict preserves_setitem preserves_emit : keeps.

(** The setters and the gate, for a property given by cases on the record. *)
Ltac keeps_prim :=
  match goal with
  | |- preserves _ (set_drivers _) => idtac
  | |- preserves _ (set_sessionID _) => idtac
  | |- preserves _ (set_sessionIDBrut _) => idtac
  | |- preserves _ drivers_append => idtac
  | |- preserves _ (drivers_append _) => idtac
  | |- preserves _ IsInitialized => idtac
  end;
  let H := fresh in
  intros [[? ? ? ?] ? ?] H; red in H; simpl in H |- *;
  solve [ done | subst; simpl; done
        | destruct_and?; subst; simpl; repeat split; done ].

Ltac keeps_step :=
  first
    [ solve [auto with keeps]
    | keeps_prim
    | match goal with
      | |- preserves _ (if ?b then _ else _) => destruct b
      | |- preserves _ (match ?x with (_, _) => _ end) => destruct x
      | |- preserves _ ((let '(_, _) := ?x in _) _) => destruct x
      end
    | apply preserves_for; intros
    | apply preserves_bind; [|intros] ].

Ltac keeps := repeat keeps_step.

Ltac unfold_methods :=
  unfold processMotion, processSession, processLap, processEvent,
    processParticipant, processCarSetup, processCarTelemetry,
    processCarStatus, mySessionId, header_tags, driver_tags.

(** ** The readiness gate *)

Lemma latched_feed utf8_decode TrackIDs p t :
  preserves latched (feed utf8_decode TrackIDs p t).
Proof. destruct p; simpl; unfold_methods; keeps. Qed.

Lemma latched_feed_all utf8_decode TrackIDs ps :
  preserves latched (feed_all utf8_decode TrackIDs ps).
Proof.
  induction ps as [|[p t] ps IH]; simpl.
  - apply preserves_ret.
  - apply preserves_bind; [apply latched_feed|intros out].
    apply preserves_bind; [apply IH|intros outs]. apply preserves_ret.
Qed.

Lemma Ready_latches w : Ready w → latched (game (IsInitialized w).1).
Proof.
  destruct w as [[ds sid brut i] h tr]. unfold Ready, latched.
  destruct i; simpl; [done|]. by intros [= ->].
Qed.

Lemma latched_Ready w : latched (game w) → Ready w.
Proof.
  destruct w as [[ds sid brut i] h tr]. unfold Ready, latched. simpl.
  by intros ->.
Qed.

(** C3: once [IsInitialized] has answered true it answers true after any
    further sequence of packets, whatever they do to the roster and to the
    session identity. *)
Theorem IsInitialized_monotone utf8_decode TrackIDs
  (w : World) (ps : list (Packet * datetime)) :
  Ready w →
  Ready (feed_all utf8_decode TrackIDs ps (IsInitialized w).1).1.
Proof.
  intros H. apply latched_Ready, latched_feed_all, Ready_latches, H.
Qed.

(** After the gate opened, a PARTICIPANTS packet with no active car empties
    the roster and a SESSION packet with another raw id replaces the
    identity; the gate stays open. *)
Lemma IsInitialized_monotone_witness :
  Ready sample_ready ∧
  Ready (feed_all decode_ascii sample_tracks
           [(Participants (sample_participants 0), sample_time);
            (Session (sample_session 78), sample_time)]
           (IsInitialized sample_ready).1).1.
Proof.
  assert (H : Ready sample_ready) by (vm_compute; reflexivity).
  split; [exact H|]. apply (IsInitialized_monotone _ _ _ _ H).
Defined.

(** ** Nothing is emitted while the gate is shut *)

Section Shut.

Variable utf8_decode : list byte → option string.
Variable TrackIDs : gmap Z string.

#[local] Abbreviation feed := (feed utf8_decode TrackIDs).
#[local] Abbreviation feed_all := (feed_all utf8_decode TrackIDs).

Lemma IsInitialized_shut w :
  no_roster (game w) ∨ no_identity (game w) →
  IsInitialized w = (w, Ok false).
Proof.
  destruct w as [[ds sid brut i] h tr].
  intros [[Hi Hd]|[Hi Hs]]; simpl in *; subst; [done|].
  unfold IsInitialized; mrun. by rewrite andb_false_r.
Qed.

Lemma no_roster_IsInitialized : preserves no_roster IsInitialized.
Proof. intros w H. by rewrite IsInitialized_shut; [|left]. Qed.

Lemma no_identity_IsInitialized : preserves no_identity IsInitialized.
Proof. intros w H. by rewrite IsInitialized_shut; [|right]. Qed.

Hint Resolve no_roster_IsInitialized no_identity_IsInitialized : keeps.

Lemma feed_other_shut p t w :
  no_roster (game w) ∨ no_identity (game w) →
  other_type p = true → feed p t w = (w, Ok []).
Proof.
  intros H Hp. destruct p; try discriminate Hp; simpl;
    unfold_methods; by rewrite (bind_Ok _ _ _ _ _ (IsInitialized_shut w H)).
Qed.

(** A PARTICIPANTS packet that finds the gate shut returns no record. *)
Lemma processParticipant_shut p t w :
  no_roster (game w) ∨ no_identity (game w) →
  ∀ out, (processParticipant utf8_decode p t w).2 = Ok out → out = [].
Proof.
  intros H out. unfold processParticipant.
  rewrite (bind_Ok _ _ _ _ _ (IsInitialized_shut w H)). simpl.
  unfold mbind, M_bind, bind.
  destruct (set_drivers [] w) as [w1 [[]|e]]; [|done].
  destruct (for_ _ _ _ w1) as [w2 [[]|e]]; [|done].
  simpl. by intros [= <-].
Qed.

(** A SESSION packet that finds no roster returns no record. *)
Lemma processSession_no_roster p t w :
  no_roster (game w) →
  ∀ out, (processSession TrackIDs p t w).2 = Ok out → out = [].
Proof.
  intros H out. unfold processSession.
  assert (Hm : preserves no_roster (mySessionId TrackIDs p t))
    by (unfold_methods; keeps).
  specialize (Hm w H). unfold mbind at 1, M_bind, bind.
  destruct (mySessionId TrackIDs p t w) as [w1 [sid|e]]; [|done].
  simpl in Hm.
  assert (Hs : preserves no_roster (set_sessionID sid)) by keeps.
  specialize (Hs w1 Hm). unfold mbind at 1, M_bind, bind.
  destruct (set_sessionID sid w1) as [w2 [[]|e]]; [|done].
  simpl in Hs. rewrite (bind_Ok _ _ _ _ _ (IsInitialized_shut w2 (or_introl Hs))).
  simpl. by intros [= <-].
Qed.

Lemma no_roster_feed p t :
  is_roster p = false → preserves no_roster (feed p t).
Proof.
  intros Hp. destruct p; simpl; unfold_methods; try solve [keeps].
  simpl in Hp; apply bool_decide_eq_false in Hp.
  replace (Z.to_nat (PacketParticipantsData_V1.numActiveCars p))
    with 0%nat by lia.
  simpl. keeps.
Qed.

Lemma no_identity_feed p t :
  is_session p = false → preserves no_identity (feed p t).
Proof.
  intros Hp. destruct p; try discriminate Hp; simpl; unfold_methods; keeps.
Qed.

Lemma feed_shut p t w out :
  (no_roster (game w) ∧ is_roster p = false)
  ∨ (no_identity (game w) ∧ is_session p = false) →
  (feed p t w).2 = Ok out → out = [].
Proof.
  intros H Hout.
  assert (Hw : no_roster (game w) ∨ no_identity (game w)) by tauto.
  destruct (other_type p) eqn:Ho.
  { rewrite (feed_other_shut p t w Hw Ho) in Hout. by injection Hout. }
  destruct p; try discriminate Ho; simpl in Hout.
  - destruct H as [[H _]|[_ H]]; [|done].
    by eapply processSession_no_roster.
  - by eapply processParticipant_shut.
Qed.

Lemma feed_all_shut ps : ∀ w w' outs,
  (no_roster (game w) ∧ existsb (λ x, is_roster x.1) ps = false)
  ∨ (no_identity (game w) ∧ existsb (λ x, is_session x.1) ps = false) →
  feed_all ps w = (w', Ok outs) →
  Forall (λ out, out = []) outs
  ∧ (no_roster (game w') ∨ no_identity (game w')).
Proof.
  induction ps as [|[p t] ps IH]; intros w w' outs H; simpl.
  - intros [= <- <-]. split; [constructor|tauto].
  - simpl in H. rewrite !orb_false_iff in H.
    unfold mbind at 1, M_bind, bind.
    pose proof (feed_shut p t w) as Hout.
    assert (Hr : is_roster p = false → no_roster (game w) →
                 no_roster (game (feed p t w).1))
      by (intros ??; by apply no_roster_feed).
    assert (Hi : is_session p = false → no_identity (game w) →
                 no_identity (game (feed p t w).1))
      by (intros ??; by apply no_identity_feed).
    destruct (feed p t w) as [w1 [out|e]]; [|done].
    unfold mbind at 1, M_bind, bind.
    destruct (feed_all ps w1) as [w2 [outs'|e]] eqn:E; [|done].
    simpl. intros [= <- <-].
    destruct (IH w1 w2 outs') as [Ho Hw]; [|done|].
    { destruct H as [[H [H1 H2]]|[H [H1 H2]]]; [left|right];
        (split; [|done]); [apply (Hr H1 H)|apply (Hi H1 H)]. }
    split; [|done]. constructor; [|done].
    apply Hout; [|done]. tauto.
Qed.

End Shut.

(** C2: as long as a PARTICIPANTS packet with a non-empty roster and a
    SESSION packet have not both been seen, every record list returned so
    far is empty and a call of any of the six other methods returns the
    empty list. *)
Theorem no_record_before_both_seen utf8_decode TrackIDs
  (ps : list (Packet * datetime)) (w : World) outs :
  seen_both ps = false →
  feed_all utf8_decode TrackIDs ps World_init = (w, Ok outs) →
  Forall (λ out, out = []) outs
  ∧ ∀ p t, other_type p = true →
           feed utf8_decode TrackIDs p t w = (w, Ok []).
Proof.
  intros Hs Hrun. unfold seen_both in Hs. apply andb_false_iff in Hs.
  destruct (feed_all_shut utf8_decode TrackIDs ps World_init w outs)
    as [Ho Hw]; [|done|].
  { destruct Hs as [Hs|Hs]; [left|right]; done. }
  split; [done|]. intros p t Hp. by apply feed_other_shut.
Qed.

(** Before any SESSION packet: a roster of two and a MOTION packet. *)
Lemma no_record_before_both_seen_witness :
  let ps := [(Participants (sample_participants 2), sample_time);
             (Motion sample_motion, sample_time)] in
  let w := (feed_all decode_ascii sample_tracks ps World_init).1 in
  Forall (λ out : list (point loc), out = []) [[]; []]
  ∧ ∀ p t, other_type p = true →
           feed decode_ascii sample_tracks p t w = (w, Ok []).
Proof.
  apply (no_record_before_both_seen decode_ascii sample_tracks
           [(Participants (sample_participants 2), sample_time);
            (Motion sample_motion, sample_time)]).
  - reflexivity.
  - vm_compute. reflexivity.
Defined.

(** ** Session identity *)

(** C6, as the code has it: the identity is left alone when the raw session
    id is the one seen last, and otherwise replaced by the composite of the
    packet's capture time (to the minute), track name and format code,
    whatever the identity was before. *)
Theorem mySessionId_recomputed TrackIDs (p : PacketSessionData_V1.t)
  (t : datetime) (w : World) :
  let uid := PacketHeader.sessionUID (PacketSessionData_V1.header p) in
  (sessionIDBrut (game w) = Some uid →
   mySessionId TrackIDs p t w = (w, Ok (sessionID (game w))))
  ∧ (∀ track,
       sessionIDBrut (game w) ≠ Some uid →
       TrackIDs !! PacketSessionData_V1.trackId p = Some track →
       let s := session_identity t track (PacketSessionData_V1.m_formula p) in
       mySessionId TrackIDs p t w =
         ({| game := {| drivers := drivers (game w); sessionID := Some s;
                        sessionIDBrut := Some uid; init := init (game w) |};
             heap := heap w; trace := trace w |}, Ok (Some s))).
Proof.
  destruct w as [[ds sid brut i] h tr]. simpl. split.
  - intros ->. unfold mySessionId. mrun.
    rewrite bool_decide_eq_false_2 by (intros H; by apply H). by mrun.
  - intros track Hne Htrack. unfold mySessionId. mrun.
    rewrite bool_decide_eq_true_2 by congruence. mrun.
    rewrite Htrack. by mrun.
Qed.

Lemma mySessionId_recomputed_witness :
  let p := sample_session 78 in
  let w := sample_ready in
  (sessionIDBrut (game w) = Some 78 →
   mySessionId sample_tracks p sample_time w = (w, Ok (sessionID (game w))))
  ∧ (∀ track,
       sessionIDBrut (game w) ≠ Some 78 →
       sample_tracks !! 0 = Some track →
       let s := session_identity sample_time track 0 in
       mySessionId sample_tracks p sample_time w =
         ({| game := {| drivers := drivers (game w); sessionID := Some s;
                        sessionIDBrut := Some 78; init := init (game w) |};
             heap := heap w; trace := trace w |}, Ok (Some s))).
Proof.
  exact (mySessionId_recomputed sample_tracks (sample_session 78)
           sample_time sample_ready).
Defined.

(** C6 as stated fails: a SESSION packet with another raw session id,
    captured within the same minute on the same track and format, yields
    the identity string that was there before. *)
Lemma session_identity_not_new :
  let t1 := mk_datetime 2019 9 7 14 5 9 0 in
  let t2 := mk_datetime 2019 9 7 14 5 40 0 in
  let w1 := (processSession sample_tracks (sample_session 77) t1 World_init).1 in
  let w2 := (processSession sample_tracks (sample_session 78) t2 w1).1 in
  sessionIDBrut (game w1) = Some 77
  ∧ sessionIDBrut (game w2) = Some 78
  ∧ sessionID (game w1) = Some "20190907_1405_Melbourne_0"
  ∧ sessionID (game w2) = sessionID (game w1).
Proof. vm_compute. repeat split; reflexivity. Qed.

(** ** The trace is write-only *)

Section Blind.

Lemma blind_ret {A} (a : A) : blind (mret a).
Proof. intros g h. exists g, h, [], (Ok a). intros tr. by rewrite app_nil_r. Qed.

Lemma blind_lift {A} (r : result A) : blind (lift r).
Proof. intros g h. exists g, h, [], r. intros tr. by rewrite app_nil_r. Qed.

Lemma blind_bind {A B} (m : M A) (k : A → M B) :
  blind m → (∀ a, blind (k a)) → blind (m ≫= k).
Proof.
  intros Hm Hk g h. destruct (Hm g h) as (g1 & h1 & Δ1 & [a|e] & H1).
  - destruct (Hk a g1 h1) as (g2 & h2 & Δ2 & r & H2).
    exists g2, h2, (Δ1 ++ Δ2), r. intros tr.
    unfold mbind, M_bind, bind. by rewrite H1, H2, app_assoc.
  - exists g1, h1, Δ1, (Raise e). intros tr.
    unfold mbind, M_bind, bind. by rewrite H1.
Qed.

Lemma blind_for {A S} (l : list A) (body : S → A → M S) s :
  (∀ s x, blind (body s x)) → blind (for_ l body s).
Proof.
  intros Hb. revert s. induction l as [|x l IH]; intros s; simpl.
  - apply blind_ret.
  - apply blind_bind; auto.
Qed.

Lemma blind_get_self : blind get_self.
Proof. intros g h. exists g, h, [], (Ok g). intros tr. by rewrite app_nil_r. Qed.

Lemma blind_set_self g0 : blind (set_self g0).
Proof. intros g h. exists g0, h, [], (Ok tt). intros tr. by rewrite app_nil_r. Qed.

Lemma blind_new_dict : blind new_dict.
Proof.
  intros g h. exists g, (h ++ [∅]), [], (Ok (length h)). intros tr.
  by rewrite app_nil_r.
Qed.

Lemma blind_setitem l k v : blind (setitem l k v).
Proof.
  intros g h. exists g, (<[l := <[k := v]> (deref h l)]> h), [], (Ok tt).
  intros tr. by rewrite app_nil_r.
Qed.

Lemma blind_emit e : blind (emit e).
Proof. intros g h. by exists g, h, [e], (Ok tt). Qed.

Lemma blind_client_write_points v : blind (client_write_points v).
Proof.
  intros g h. by exists g, h, [write_points (snapshot h <$> v)], (Ok tt).
Qed.

End Blind.

Create HintDb blind.

#[local] Hint Resolve blind_ret blind_lift blind_get_self blind_set_self
  blind_new_dict blind_setitem blind_emit blind_client_write_points : blind.

Ltac blind_step :=
  first
    [ solve [auto with blind]
    | match goal with
      | |- blind (if ?b then _ else _) => destruct b
      | |- blind (match ?x with (_, _) => _ end) => destruct x
      | |- blind ((let '(_, _) := ?x in _) _) => destruct x
      end
    | apply blind_for; intros
    | apply blind_bind; [|intros] ].

Ltac blinds := repeat blind_step.

Lemma blind_feed utf8_decode TrackIDs p t :
  blind (feed utf8_decode TrackIDs p t).
Proof. destruct p; unfold feed; unfold_methods; unfold IsInitialized; blinds. Qed.

Section Flush.

Variable utf8_decode : list byte → option string.
Variable TrackIDs : gmap Z string.
Variable packet_type : Type.
Variable sizeof_PacketHeader : nat.
Variable PacketHeader_from_buffer_copy : list byte → PacketHeader.t.
Variable HeaderFieldsToPacketType : Z * Z * Z → option packet_type.
Variable sizeof : packet_type → nat.
Variable unpack_udp_packet : list byte → Packet.

#[local] Abbreviation dispatch_ := (dispatch utf8_decode TrackIDs).
#[local] Abbreviation classify_ :=
  (classify packet_type sizeof_PacketHeader PacketHeader_from_buffer_copy
     HeaderFieldsToPacketType sizeof unpack_udp_packet).
#[local] Abbreviation process_one_ :=
  (process_one utf8_decode TrackIDs packet_type sizeof_PacketHeader
     PacketHeader_from_buffer_copy HeaderFieldsToPacketType sizeof
     unpack_udp_packet).
#[local] Abbreviation process_incoming_packets_ :=
  (process_incoming_packets utf8_decode TrackIDs packet_type
     sizeof_PacketHeader PacketHeader_from_buffer_copy
     HeaderFieldsToPacketType sizeof unpack_udp_packet).
#[local] Abbreviation run_iteration_ :=
  (run_iteration utf8_decode TrackIDs packet_type
     sizeof_PacketHeader PacketHeader_from_buffer_copy
     HeaderFieldsToPacketType sizeof unpack_udp_packet).

Ltac blind_method :=
  lazymatch goal with
  | |- blind (lift _) => apply blind_lift
  | |- blind (processMotion ?p ?t) => exact (blind_feed utf8_decode TrackIDs (Motion p) t)
  | |- blind (processSession ?T ?p ?t) => exact (blind_feed utf8_decode T (Session p) t)
  | |- blind (processLap ?p ?t) => exact (blind_feed utf8_decode TrackIDs (Lap p) t)
  | |- blind (processEvent ?d ?p ?t) => exact (blind_feed d TrackIDs (Event p) t)
  | |- blind (processParticipant ?d ?p ?t) =>
      exact (blind_feed d TrackIDs (Participants p) t)
  | |- blind (processCarSetup ?p ?t) => exact (blind_feed utf8_decode TrackIDs (CarSetups p) t)
  | |- blind (processCarTelemetry ?p ?t) =>
      exact (blind_feed utf8_decode TrackIDs (CarTelemetry p) t)
  | |- blind (processCarStatus ?p ?t) => exact (blind_feed utf8_decode TrackIDs (CarStatus p) t)
  end.

Lemma blind_dispatch id unpacket ts key call :
  dispatch_ id unpacket ts = Some (key, call) → blind call.
Proof.
  unfold dispatch. intros H.
  repeat (destruct (decide _) in H;
          [ injection H as <- <-; destruct unpacket; blind_method | ]).
  discriminate H.
Qed.

Lemma blind_process_one jm tp : blind (process_one_ jm tp).
Proof.
  unfold process_one.
  destruct (classify_ (packet tp)) as [rej|[header unpacket]]; [blinds|].
  destruct (dispatch_ _ _ _) as [[key call]|] eqn:E; [|blinds].
  apply blind_bind; [by eapply blind_dispatch|intros; blinds].
Qed.


(** C9, as the code has it: a tick that drains nothing calls the sink not
    at all and reports one inactivity observation, the clock reading less
    the inactivity timer, and then moves the timer to that reading; a
    tick that drains packets moves the timer to the reception time of
    the last of them. *)
Theorem empty_tick_reports_since_timer (inactivity_timer : datetime)
  (tk : tick) (w : World) :
  (drained tk = [] →
   run_iteration_ inactivity_timer tk w
     = (mk_World (game w) (heap w)
          (trace w ++ [log_info_no_packets
                         (datetime_sub (utcnow tk) inactivity_timer)]),
        Ok (utcnow tk)))
  ∧ (∀ pre tp t', drained tk = pre ++ [tp] →
       (run_iteration_ inactivity_timer tk w).2 = Ok t' →
       t' = timestamp tp).
Proof.
  split.
  - intros Hd. unfold run_iteration. rewrite Hd. reflexivity.
  - intros pre tp t' Hd. unfold run_iteration. rewrite Hd.
    rewrite bool_decide_eq_true_2
      by (rewrite length_app; simpl; lia).
    replace (length (pre ++ [tp]) - 1)%nat with (length pre)
      by (rewrite length_app; simpl; lia).
    unfold getitem. rewrite lookup_app_r, Nat.sub_diag by lia. simpl.
    unfold mbind at 1, M_bind, bind. simpl.
    unfold mbind at 1, M_bind, bind.
    destruct (process_incoming_packets_ _ _) as [w' [[]|e]]; simpl; congruence.
Qed.

End Flush.


Lemma empty_tick_reports_since_timer_witness :
  let t0 := mk_datetime 2019 9 7 14 5 9 0 in
  let t1 := mk_datetime 2019 9 7 14 5 10 0 in
  let tk := mk_tick [] t1 false in
  (drained tk = [] →
   sample_run_iteration t0 tk World_init
     = (mk_World Game_init [] [log_info_no_packets (datetime_sub t1 t0)],
        Ok t1))
  ∧ (∀ pre tp t', drained tk = pre ++ [tp] →
       (sample_run_iteration t0 tk World_init).2 = Ok t' →
       t' = timestamp tp).
Proof.
  exact (empty_tick_reports_since_timer decode_ascii sample_tracks nat 2%nat
           sample_from_buffer_copy sample_table (λ n, n) sample_unpack
           (mk_datetime 2019 9 7 14 5 9 0)
           (mk_tick [] (mk_datetime 2019 9 7 14 5 10 0) false) World_init).
Defined.

(** C9 as stated fails: after a drain whose last packet arrived at
    14:05:09, empty ticks at 14:05:10 and 14:05:11 both report one second;
    the second does not report the two seconds elapsed since that drain. *)
Lemma consecutive_empty_ticks_restart_the_clock :
  let t1 := mk_datetime 2019 9 7 14 5 10 0 in
  let t2 := mk_datetime 2019 9 7 14 5 11 0 in
  let ticks := [mk_tick [sample_datagram x04 x02 9] t1 false;
                mk_tick [] t1 false;
                mk_tick [] t2 true] in
  let w := (sample_run_loop ticks (mk_datetime 2019 9 7 14 5 0 0)
              World_init).1 in
  inactivity_ages (trace w) = [1000000; 1000000]
  ∧ datetime_sub t2 (timestamp (sample_datagram x04 x02 9)) = 2000000.
Proof. vm_compute. split; reflexivity. Qed.

(** ** The per-type batches of a flush cycle *)

Lemma items_get_assign {V} (k k' : Z) (v : V) d :
  items_get k (assign k' v d)
  = if decide (k' = k) then Some v else items_get k d.
Proof.
  induction d as [|[k0 v0] d IH]; simpl.
  - by destruct (decide (k' = k)).
  - destruct (decide (k0 = k')) as [->|Hne]; simpl.
    + by destruct (decide (k' = k)).
    + destruct (decide (k0 = k)) as [->|Hne'].
      * by rewrite decide_False by congruence.
      * apply IH.
Qed.

Lemma assign_keys {V} (k : Z) (v : V) d :
  (assign k v d).*1 = if decide (k ∈ d.*1) then d.*1 else d.*1 ++ [k].
Proof.
  induction d as [|[k0 v0] d IH]; csimpl.
  - done.
  - destruct (decide (k0 = k)) as [->|Hne]; csimpl.
    + rewrite decide_True; [done|]. apply list_elem_of_here.
    + rewrite IH. destruct (decide (k ∈ d.*1)) as [Hin|Hnin].
      * rewrite decide_True; [done|]. by apply list_elem_of_further.
      * rewrite decide_False; [done|].
        rewrite elem_of_cons. intros [->|?]; done.
Qed.

Lemma assign_NoDup {V} (k : Z) (v : V) d :
  NoDup d.*1 → NoDup (assign k v d).*1.
Proof.
  intros H. rewrite assign_keys. destruct (decide (k ∈ d.*1)); [done|].
  apply NoDup_app. split; [done|]. split; [|apply NoDup_singleton].
  intros x Hx. rewrite list_elem_of_singleton. by intros ->.
Qed.

Lemma store_all_NoDup calls : ∀ jm,
  NoDup jm.*1 → NoDup (store_all calls jm).*1.
Proof.
  induction calls as [|[id v] calls IH]; intros jm H; simpl; [done|].
  apply IH. by apply assign_NoDup.
Qed.

Lemma items_get_store_all (id : Z) calls : ∀ jm,
  id ≠ PacketID.CAR_SETUPS → id ≠ PacketID.CAR_STATUS →
  items_get id (store_all calls jm)
  = match last_returned id calls with
    | Some v => Some v
    | None => items_get id jm
    end.
Proof.
  induction calls as [|[id' v] calls IH]; intros jm H5 H7; simpl; [done|].
  change (foldl _ ?j calls) with (store_all calls j). rewrite IH by done.
  destruct (last_returned id calls); [done|].
  rewrite items_get_assign. unfold key_of.
  destruct (decide (id' = PacketID.CAR_SETUPS)) as [->|?].
  - rewrite !decide_False by congruence. done.
  - by destruct (decide (id' = id)).
Qed.

Lemma write_loop (jm : list (Z * list (point loc))) : ∀ (t0 : nat) w,
  for_ jm (λ t '(k, v), client_write_points v;; mret (t + length v)%nat) t0 w
  = (mk_World (game w) (heap w)
       (trace w ++ ((λ kv, write_points (snapshot (heap w) <$> kv.2)) <$> jm)),
     Ok (t0 + sum_list ((λ kv, length kv.2) <$> jm))%nat).
Proof.
  induction jm as [|[k v] jm IH]; intros t0 [g h tr]; simpl.
  - by rewrite app_nil_r, Nat.add_0_r.
  - unfold mbind at 1, M_bind, bind. simpl.
    rewrite IH. simpl. by rewrite <- app_assoc, Nat.add_assoc.
Qed.

Section Batches.

Variable utf8_decode : list byte → option string.
Variable TrackIDs : gmap Z string.
Variable packet_type : Type.
Variable sizeof_PacketHeader : nat.
Variable PacketHeader_from_buffer_copy : list byte → PacketHeader.t.
Variable HeaderFieldsToPacketType : Z * Z * Z → option packet_type.
Variable sizeof : packet_type → nat.
Variable unpack_udp_packet : list byte → Packet.

#[local] Abbreviation process_one_ :=
  (process_one utf8_decode TrackIDs packet_type sizeof_PacketHeader
     PacketHeader_from_buffer_copy HeaderFieldsToPacketType sizeof
     unpack_udp_packet).
#[local] Abbreviation process_incoming_packets_ :=
  (process_incoming_packets utf8_decode TrackIDs packet_type
     sizeof_PacketHeader PacketHeader_from_buffer_copy
     HeaderFieldsToPacketType sizeof unpack_udp_packet).
#[local] Abbreviation returned_ :=
  (returned utf8_decode TrackIDs packet_type
     sizeof_PacketHeader PacketHeader_from_buffer_copy
     HeaderFieldsToPacketType sizeof unpack_udp_packet).

Lemma dispatch_key id unpacket ts key call :
  dispatch utf8_decode TrackIDs id unpacket ts = Some (key, call) →
  key = key_of id.
Proof.
  unfold dispatch, key_of. intros H.
  repeat (destruct (decide (id = _)) as [->|?] in H;
          [by injection H as <- _|]).
  discriminate H.
Qed.

Lemma process_one_unfold jm tp w :
  process_one_ jm tp w
  = match classify packet_type sizeof_PacketHeader
            PacketHeader_from_buffer_copy HeaderFieldsToPacketType sizeof
            unpack_udp_packet (packet tp) with
    | inl rejection =>
        (mk_World (game w) (heap w) (trace w ++ [rejection]), Ok jm)
    | inr (header, unpacket) =>
        match dispatch utf8_decode TrackIDs (PacketHeader.packetId header)
                unpacket (timestamp tp) with
        | Some (key, call) =>
            match call w with
            | (w', Ok v) => (w', Ok (assign key v jm))
            | (w', Raise e) => (w', Raise e)
            end
        | None => (w, Ok jm)
        end
    end.
Proof.
  unfold process_one.
  destruct (classify _ _ _ _ _ _ _) as [rej|[header unpacket]]; [done|].
  destruct (dispatch _ _ _ _ _) as [[key call]|]; [|done].
  unfold mbind, M_bind, bind. by destruct (call w) as [w' [v|e]].
Qed.

Lemma for_cons {A S} (x : A) l (body : S → A → M S) s w :
  for_ (x :: l) body s w
  = match body s x w with
    | (w', Ok s') => for_ l body s' w'
    | (w', Raise e) => (w', Raise e)
    end.
Proof. reflexivity. Qed.

(** The [if]/[elif] chain routes as the specification says, and stores
    under [key_of]. *)
Lemma dispatch_routed id unpacket ts :
  dispatch utf8_decode TrackIDs id unpacket ts
  = match routed_by_type_tag utf8_decode TrackIDs id unpacket ts with
    | Some call => Some (key_of id, call)
    | None => None
    end.
Proof.
  unfold dispatch, routed_by_type_tag, key_of.
  repeat (destruct (decide (id = _)) as [->|?]; [by destruct unpacket|]).
  rewrite (decide_False (P := id ∈ type_tags)); [done|].
  unfold type_tags. rewrite !elem_of_cons, elem_of_nil. tauto.
Qed.

Lemma loop_returned tps : ∀ jm w w1 calls,
  returned_ tps w = (w1, Ok calls) →
  for_ tps process_one_ jm w = (w1, Ok (store_all calls jm)).
Proof.
  induction tps as [|tp tps IH]; intros jm w w1 calls.
  - simpl. by intros [= <- <-].
  - rewrite for_cons, process_one_unfold. simpl.
    destruct (classify _ _ _ _ _ _ _) as [rej|[header unpacket]].
    + intros H. by apply IH.
    + rewrite dispatch_routed.
      destruct (routed_by_type_tag _ _ _ _ _) as [call|].
      * intros H.
        unfold mbind at 1, M_bind, bind in H.
        destruct (call w) as [w2 [v|e]]; [|done].
        unfold mbind at 1, M_bind, bind in H.
        destruct (returned_ tps w2) as [w3 [rest|e]] eqn:Er; [|done].
        simpl in H. injection H as <- <-. simpl.
        by apply IH.
      * intros H. by apply IH.
Qed.

Lemma last_returned_elem id calls v :
  last_returned id calls = Some v → (id, v) ∈ calls.
Proof.
  induction calls as [|[id' v'] calls IH]; simpl; [done|].
  destruct (last_returned id calls) as [v0|].
  - intros [= <-]. apply list_elem_of_further. by apply IH.
  - destruct (decide (id' = id)) as [->|]; [|done].
    intros [= <-]. apply list_elem_of_here.
Qed.


End Batches.



(** ** What the methods return once the gate is open *)

Lemma IsInitialized_Ready w :
  Ready w →
  IsInitialized w
  = (mk_World (mk_Game (drivers (game w)) (sessionID (game w))
                       (sessionIDBrut (game w)) true)
              (heap w) (trace w), Ok true).
Proof.
  destruct w as [[ds sid brut i] h tr]. unfold Ready.
  destruct i; simpl; [done|]. unfold IsInitialized. mrun. by intros [= ->].
Qed.

Lemma header_tags_run hd w :
  ∃ hp, header_tags hd w
        = (mk_World (game w) hp (trace w), Ok (length (heap w))).
Proof. unfold header_tags. mrun. by eexists. Qed.

Lemma driver_tags_run hd d w :
  ∃ hp, driver_tags hd d w
        = (mk_World (game w) hp (trace w), Ok (length (heap w))).
Proof. unfold driver_tags, header_tags. mrun. by eexists. Qed.

(** A loop over the roster whose body appends one record per driver and
    leaves the tracker's attributes alone. *)
Lemma indexed_loop (body : nat * list (point loc) → string →
                           M (nat * list (point loc)))
  (R : nat → point loc → Prop) (n : nat) :
  (∀ i json driver w, (i < n)%nat →
     ∃ w' r, body (i, json) driver w = (w', Ok (S i, json ++ [r]))
             ∧ game w' = game w ∧ trace w' = trace w ∧ R i r) →
  ∀ ds i json w, (i + length ds ≤ n)%nat →
    ∃ w' json',
      for_ ds body (i, json) w
      = (w', Ok ((i + length ds)%nat, json ++ json'))
      ∧ game w' = game w ∧ trace w' = trace w
      ∧ length json' = length ds
      ∧ ∀ j, (j < length ds)%nat →
             ∃ r, json' !! j = Some r ∧ R (i + j)%nat r.
Proof.
  intros Hbody ds. induction ds as [|d ds IH]; intros i json w Hn.
  - exists w, []. simpl. rewrite Nat.add_0_r, app_nil_r.
    do 4 (split; [done|]). intros j Hj. lia.
  - simpl in Hn. destruct (Hbody i json d w) as (w1 & r & Hb & Hg & Ht & HR); [lia|].
    destruct (IH (S i) (json ++ [r]) w1) as (w2 & json2 & Hl & Hg2 & Ht2 & Hlen & Hrec);
      [lia|].
    exists w2, (r :: json2). simpl. rewrite (bind_Ok _ _ _ _ _ Hb), Hl.
    rewrite <- app_assoc. simpl.
    replace (i + S (length ds))%nat with (S (i + length ds)) by lia.
    split; [done|]. split; [by rewrite Hg2|]. split; [by rewrite Ht2|].
    split; [by rewrite Hlen|].
    intros [|j] Hj.
    + exists r. rewrite Nat.add_0_r. done.
    + destruct (Hrec j) as (r' & Hr' & HR'); [simpl in Hj; lia|].
      exists r'. split; [done|].
      by replace (i + S j)%nat with (S i + j)%nat by lia.
Qed.

Lemma expand4_Ok q a0 a1 a2 a3 (fields : dict) :
  expand4 q [a0; a1; a2; a3] fields
  = Ok (<[q +:+ "_FR" := a3]> (<[q +:+ "_FL" := a2]>
         (<[q +:+ "_RR" := a1]> (<[q +:+ "_RL" := a0]> fields)))).
Proof. reflexivity. Qed.

Lemma length_4 {A} (l : list A) :
  length l = 4%nat → ∃ a0 a1 a2 a3, l = [a0; a1; a2; a3].
Proof.
  destruct l as [|a0 [|a1 [|a2 [|a3 [|a4 l]]]]]; try discriminate.
  by exists a0, a1, a2, a3.
Qed.

Lemma lift_Ok {A B} (a : A) (k : A → M B) w : (lift (Ok a) ≫= k) w = k a w.
Proof. reflexivity. Qed.

Lemma dict_del_Ok (d : dict) k :
  is_Some (d !! k) → dict_del d k = Ok (delete k d).
Proof. intros [v Hv]. unfold dict_del. by rewrite Hv. Qed.

Lemma telemetry_body (packet : PacketCarTelemetryData_V1.t) (t : string)
  hd i json driver w car :
  PacketCarTelemetryData_V1.carTelemetryData packet !! i = Some car →
  telemetry_shape car →
  ∃ w' r,
    (dic ← driver_tags hd driver;
     car ← lift (getitem (PacketCarTelemetryData_V1.carTelemetryData packet) i);
     let fields := CarTelemetryData.fields car in
     fields ← lift (expand4 "brakesTemperature" (CarTelemetryData.brakesTemperature car) fields);
     fields ← lift (expand4 "tyresSurfaceTemperature" (CarTelemetryData.tyresSurfaceTemperature car) fields);
     fields ← lift (expand4 "tyresInnerTemperature" (CarTelemetryData.tyresInnerTemperature car) fields);
     fields ← lift (expand4 "tyresPressure" (CarTelemetryData.tyresPressure car) fields);
     fields ← lift (expand4 "surfaceType" (CarTelemetryData.surfaceType car) fields);
     fields ← lift (dict_del fields "surfaceType");
     fields ← lift (dict_del fields "tyresPressure");
     fields ← lift (dict_del fields "tyresInnerTemperature");
     fields ← lift (dict_del fields "tyresSurfaceTemperature");
     fields ← lift (dict_del fields "brakesTemperature");
     mret (S i, json ++ [mk_point "CarTelemetryData" dic t fields])) w
    = (w', Ok (S i, json ++ [r]))
    ∧ game w' = game w ∧ trace w' = trace w ∧ telemetry_record packet i r.
Proof.
  intros Hcar (Hb & Hs & Hi & Hp & Hy & Kb & Ks & Ki & Kp & Ky).
  destruct (driver_tags_run hd driver w) as [hp Htags].
  rewrite (bind_Ok _ _ _ _ _ Htags).
  unfold getitem. rewrite Hcar, lift_Ok. cbv beta.
  destruct (length_4 _ Hb) as (b0 & b1 & b2 & b3 & Eb).
  destruct (length_4 _ Hs) as (s0 & s1 & s2 & s3 & Es).
  destruct (length_4 _ Hi) as (i0 & i1 & i2 & i3 & Ei).
  destruct (length_4 _ Hp) as (p0 & p1 & p2 & p3 & Ep).
  destruct (length_4 _ Hy) as (y0 & y1 & y2 & y3 & Ey).
  rewrite Eb, Es, Ei, Ep, Ey.
  repeat (rewrite expand4_Ok, lift_Ok; cbv beta).
  cbv beta iota delta [String.append].
  repeat (rewrite dict_del_Ok, lift_Ok;
          [|by rewrite ?lookup_delete_ne, ?lookup_insert_ne by done]).
  eexists _, _. split; [reflexivity|].
  split; [done|]. split; [done|].
  exists car. split; [done|]. split; [done|].
  rewrite Eb, Es, Ei, Ep, Ey. unfold wheel_fields.
  cbv beta iota delta [String.append]. cbn [fields lookup list_lookup].
  repeat split;
    rewrite ?lookup_delete_ne by done; rewrite ?lookup_delete_eq;
    rewrite ?lookup_insert_ne by done; rewrite ?lookup_insert_eq; done.
Qed.

(** C7: once ready, every per-driver CAR_TELEMETRY record has the four
    scalar fields of each wheel array (tyre pressure, brake temperature,
    tyre surface and inner temperature, surface type), element 0 to 3 as
    RL, RR, FL, FR, and none of the array-valued fields. *)
Theorem processCarTelemetry_expands (packet : PacketCarTelemetryData_V1.t)
  (time : datetime) (w : World) :
  Ready w →
  (∀ i, (i < length (drivers (game w)))%nat →
     ∃ car, PacketCarTelemetryData_V1.carTelemetryData packet !! i = Some car
            ∧ telemetry_shape car) →
  ∃ w' json,
    processCarTelemetry packet time w = (w', Ok json)
    ∧ length json = length (drivers (game w))
    ∧ ∀ i, (i < length (drivers (game w)))%nat →
           ∃ r, json !! i = Some r ∧ telemetry_record packet i r.
Proof.
  intros Hready Hcars. unfold processCarTelemetry.
  rewrite (bind_Ok _ _ _ _ _ (IsInitialized_Ready w Hready)). simpl.
  unfold mbind at 1, M_bind, bind. simpl.
  match goal with
  | |- context [mbind _ (for_ ?ds ?body ?s) ?w0] =>
      assert (Hbody : ∀ i json driver w1,
                (i < length (drivers (game w)))%nat →
                ∃ w' r, body (i, json) driver w1
                        = (w', Ok (S i, json ++ [r]))
                        ∧ game w' = game w1 ∧ trace w' = trace w1
                        ∧ telemetry_record packet i r);
      [|destruct (indexed_loop body (telemetry_record packet) _ Hbody
                   ds 0%nat [] w0 ltac:(simpl; lia))
          as (w' & json & Hloop & _ & _ & Hlen & Hrec)]
  end.
  - intros i json driver w0 Hi. destruct (Hcars i Hi) as (car & Hcar & Hshape).
    apply (telemetry_body packet _ _ i json driver w0 car Hcar Hshape).
  - exists w', json. unfold mbind at 1, M_bind, bind. rewrite Hloop. simpl.
    split; [done|]. split; [done|]. intros i Hi.
    destruct (Hrec i Hi) as (r & Hr & HR). by exists r.
Qed.

Lemma processCarTelemetry_expands_witness :
  ∃ w' json,
    processCarTelemetry sample_telemetry sample_time sample_ready
    = (w', Ok json)
    ∧ length json = length (drivers (game sample_ready))
    ∧ ∀ i, (i < length (drivers (game sample_ready)))%nat →
           ∃ r, json !! i = Some r ∧ telemetry_record sample_telemetry i r.
Proof.
  apply (processCarTelemetry_expands sample_telemetry sample_time sample_ready).
  - vm_compute. reflexivity.
  - intros i Hi. exists (sample_car_telemetry 1 2 3 4). split.
    + apply lookup_replicate_2. vm_compute in Hi. lia.
    + unfold telemetry_shape. simpl.
      repeat split; try reflexivity; by eexists.
Defined.

(** The example of the specification: tyre pressures 1.0, 2.0, 3.0, 4.0
    for the two cars of the roster. *)
Example telemetry_pressures :
  match processCarTelemetry sample_telemetry sample_time sample_ready with
  | (_, Ok json) =>
      (λ r : point loc,
         (fields r !! "tyresPressure_RL", fields r !! "tyresPressure_RR",
          fields r !! "tyresPressure_FL", fields r !! "tyresPressure_FR",
          fields r !! "tyresPressure")) <$> json
      = replicate 2 (Some (VFloat 1), Some (VFloat 2), Some (VFloat 3),
                     Some (VFloat 4), None)
  | (_, Raise _) => False
  end.
Proof. vm_compute. reflexivity. Qed.

(** The loop of [processParticipant] over the car slots [i .. i+n-1]. *)
Lemma participant_loop (utf8_decode : list byte → option string)
  (dic : loc) (t : string)
  (body : list ParticipantData.t * list (point loc) → nat →
          M (list ParticipantData.t * list (point loc))) :
  (∀ i parts json w p nm,
     parts !! i = Some p → utf8_decode (ParticipantData.name p) = Some nm →
     ∃ w', body (parts, json) i w
           = (w', Ok (<[i := set_fields p (<["name" := VStr nm]>
                                             (ParticipantData.fields p))]> parts,
                      json ++ [participant_record dic t p nm]))
           ∧ game w' = with_driver (game w) nm) →
  ∀ n i parts json w names,
    Forall2 (λ p nm, utf8_decode (ParticipantData.name p) = Some nm)
      (take n (drop i parts)) names →
    length names = n →
    ∃ w' parts',
      for_ (seq i n) body (parts, json) w
      = (w', Ok (parts',
                 json ++ zip_with (participant_record dic t)
                           (take n (drop i parts)) names))
      ∧ game w' = foldl with_driver (game w) names.
Proof.
  intros Hbody n. induction n as [|n IH]; intros i parts json w names HF Hlen.
  - destruct names; [|done]. exists w, parts. simpl.
    by rewrite app_nil_r.
  - destruct names as [|nm names]; [done|].
    destruct (drop i parts) as [|p rest] eqn:Ed; [by inversion HF|].
    assert (Hp : parts !! i = Some p).
    { pose proof (lookup_drop parts i 0) as H. rewrite Ed in H.
      simpl in H. by rewrite Nat.add_0_r in H. }
    assert (Hrest : rest = drop (S i) parts).
    { rewrite (drop_S _ _ _ Hp) in Ed. by injection Ed. }
    simpl in HF. apply Forall2_cons in HF as [Hnm HF].
    destruct (Hbody i parts json w p nm Hp Hnm) as (w1 & Hb & Hg).
    set (parts1 := <[i := _]> parts) in Hb.
    destruct (IH (S i) parts1 (json ++ [participant_record dic t p nm])
                w1 names) as (w2 & parts2 & Hl & Hg2).
    { unfold parts1. rewrite drop_insert_lt by lia. by rewrite <- Hrest. }
    { simpl in Hlen. lia. }
    exists w2, parts2. simpl. rewrite (bind_Ok _ _ _ _ _ Hb), Hl.
    unfold parts1. rewrite drop_insert_lt by lia.
    rewrite <- Hrest, <- app_assoc. simpl. by rewrite Hg2, Hg.
Qed.

Lemma drivers_foldl names : ∀ g,
  drivers (foldl with_driver g names) = drivers g ++ names.
Proof.
  induction names as [|nm names IH]; intros g; simpl.
  - by rewrite app_nil_r.
  - rewrite IH. simpl. by rewrite <- app_assoc.
Qed.

(** C4: once ready, a PARTICIPANTS packet with [numActiveCars = k] leaves
    the roster with the [k] decoded names of slots 0 to k-1, in that order,
    and returns [k] records, the record of slot [i] holding the fields of
    participant [i] with its decoded name. *)
Theorem processParticipant_roster (utf8_decode : list byte → option string)
  (packet : PacketParticipantsData_V1.t) (time : datetime) (w : World)
  (names : list string) :
  let k := PacketParticipantsData_V1.numActiveCars packet in
  let slots := take (Z.to_nat k) (PacketParticipantsData_V1.participants packet) in
  Ready w →
  is_Some (PacketParticipantsData_V1.fields packet !! "header") →
  0 ≤ k →
  Forall2 (λ p nm, utf8_decode (ParticipantData.name p) = Some nm) slots names →
  length names = Z.to_nat k →
  ∃ w' json,
    processParticipant utf8_decode packet time w = (w', Ok json)
    ∧ drivers (game w') = names
    ∧ Z.of_nat (length (drivers (game w'))) = k
    ∧ Z.of_nat (length json) = k
    ∧ json = zip_with (participant_record (length (heap w))
                         (strftime time time_format)) slots names.
Proof.
  intros k slots Hready Hheader Hk HF Hlen. unfold processParticipant.
  rewrite (bind_Ok _ _ _ _ _ (IsInitialized_Ready w Hready)). simpl.
  match goal with
  | |- context [mbind _ (header_tags ?hd) ?w0] =>
      destruct (header_tags_run hd w0) as [hp Htags]
  end.
  rewrite (bind_Ok _ _ _ _ _ Htags). simpl heap.
  rewrite (dict_del_Ok _ _ Hheader), lift_Ok.
  unfold mbind at 1, M_bind, bind. simpl.
  match goal with
  | |- context [mbind _ (for_ _ ?body ?s) ?w0] =>
      assert (Hbody : ∀ i parts json w1 p nm,
                parts !! i = Some p →
                utf8_decode (ParticipantData.name p) = Some nm →
                ∃ w', body (parts, json) i w1
                      = (w', Ok (<[i := set_fields p
                                          (<["name" := VStr nm]>
                                             (ParticipantData.fields p))]> parts,
                                 json ++ [participant_record (length (heap w))
                                            (strftime time time_format) p nm]))
                      ∧ game w' = with_driver (game w1) nm);
      [|destruct (participant_loop utf8_decode _ _ body Hbody
                   (Z.to_nat k) 0%nat
                   (PacketParticipantsData_V1.participants packet) [] w0 names
                   HF Hlen)
          as (w' & parts' & Hloop & Hg)]
  end.
  - intros i parts json w1 p nm Hp Hnm. unfold getitem, decode.
    rewrite Hp, lift_Ok. cbv beta. rewrite Hnm, lift_Ok. cbv beta.
    mrun.
    rewrite list_lookup_insert_eq by (by eapply lookup_lt_Some).
    eexists. split; reflexivity.
  - exists w', (zip_with (participant_record (length (heap w))
                           (strftime time time_format)) slots names).
    fold k. rewrite (bind_Ok _ _ _ _ _ Hloop). simpl.
    assert (Hd : drivers (game w') = names)
      by (by rewrite Hg, drivers_foldl).
    assert (Hs : length slots = length names) by (by eapply Forall2_length).
    split; [done|]. split; [done|].
    split; [rewrite Hd, Hlen; lia|].
    split; [|done]. rewrite length_zip_with, Hs, Hlen. lia.
Qed.

Lemma processParticipant_roster_witness :
  let packet := sample_participants 2 in
  let slots := take 2 (PacketParticipantsData_V1.participants packet) in
  ∃ w' json,
    processParticipant decode_ascii packet sample_time sample_ready
    = (w', Ok json)
    ∧ drivers (game w') = sample_names
    ∧ Z.of_nat (length (drivers (game w'))) = 2
    ∧ Z.of_nat (length json) = 2
    ∧ json = zip_with (participant_record (length (heap sample_ready))
                         (strftime sample_time time_format))
               slots sample_names.
Proof.
  apply (processParticipant_roster decode_ascii (sample_participants 2)
           sample_time sample_ready sample_names).
  - vm_compute. reflexivity.
  - by eexists.
  - simpl. lia.
  - repeat constructor.
  - reflexivity.
Defined.

(** C5 fails on the code: the zone records of one SESSION packet all hold
    the same tag dictionary, which the loop keeps overwriting, so with two
    zones both records carry the label of the last one, [MarshalZone1].
    The rest holds: one record per zone (zone flags 0 and 1) and one
    session record without the marshal-zone list and the header. *)
Theorem marshal_zone_labels_shared :
  match processSession sample_tracks (sample_session 77) sample_time
          sample_ready with
  | (w, Ok json) =>
      (λ r : point dict,
         (measurement r, tags r !! "MarshalZoneId", fields r !! "zoneFlag",
          fields r !! "marshalZones", fields r !! "header"))
        <$> (snapshot (heap w) <$> json)
      = [("MarshalZones", Some (VStr "MarshalZone1"), Some (VInt 0), None, None);
         ("MarshalZones", Some (VStr "MarshalZone1"), Some (VInt 1), None, None);
         ("SessionData", None, None, None, None)]
  | (_, Raise _) => False
  end.
Proof. vm_compute. reflexivity. Qed.

(** ** No index is out of range *)

Lemma safe_ret {A} (a : A) : safe (mret a).
Proof. by intros w. Qed.

Lemma safe_lift {A} (r : result A) : r ≠ Raise IndexError → safe (lift r).
Proof. by intros H w. Qed.

Lemma safe_bind {A B} (m : M A) (k : A → M B) :
  safe m → (∀ a, safe (k a)) → safe (m ≫= k).
Proof.
  intros Hm Hk w. unfold mbind, M_bind, bind. specialize (Hm w).
  destruct (m w) as [w' [a|e]]; [apply Hk|simpl in *; congruence].
Qed.

Lemma safe_for {A S} (l : list A) (body : S → A → M S) s :
  (∀ s x, safe (body s x)) → safe (for_ l body s).
Proof.
  intros Hb. revert s. induction l as [|x l IH]; intros s; simpl.
  - apply safe_ret.
  - apply safe_bind; auto.
Qed.

(** A loop whose state and remaining input satisfy [I] at every turn. *)
Lemma safe_for_inv {A S} (I : list A → S → Prop) (body : S → A → M S) :
  (∀ x l s w, I (x :: l) s →
     (body s x w).2 ≠ Raise IndexError
     ∧ ∀ s', (body s x w).2 = Ok s' → I l s') →
  ∀ l s, I l s → safe (for_ l body s).
Proof.
  intros Hb l. induction l as [|x l IH]; intros s HI w; simpl; [done|].
  destruct (Hb x l s w HI) as [Hne Hok].
  unfold mbind, M_bind, bind.
  destruct (body s x w) as [w' [s'|e]]; [|simpl in *; congruence].
  by apply IH, Hok.
Qed.

Lemma safe_from_safe {A} P (m : M A) : safe m → safe_from P m.
Proof. intros H w _. apply H. Qed.

Lemma safe_from_bind {A B} P (m : M A) (k : A → M B) :
  safe_from P m → preserves P m → (∀ a, safe_from P (k a)) →
  safe_from P (m ≫= k).
Proof.
  intros Hm Hp Hk w HP. unfold mbind, M_bind, bind.
  specialize (Hm w HP). specialize (Hp w HP).
  destruct (m w) as [w' [a|e]]; [by apply Hk|simpl in *; congruence].
Qed.

Lemma safe_from_get_self {B} P (k : Game → M B) :
  (∀ g, P g → safe_from P (k g)) → safe_from P (get_self ≫= k).
Proof. intros Hk w HP. by apply (Hk (game w) HP w HP). Qed.

Lemma safe_get_self : safe get_self.
Proof. by intros w. Qed.

Lemma safe_set_self g : safe (set_self g).
Proof. by intros w. Qed.

Lemma safe_new_dict : safe new_dict.
Proof. by intros w. Qed.

Lemma safe_setitem l k v : safe (setitem l k v).
Proof. by intros w. Qed.

Lemma dict_del_safe d k : dict_del d k ≠ Raise IndexError.
Proof. unfold dict_del. by destruct (d !! k). Qed.

Lemma dict_get_safe d k : dict_get d k ≠ Raise IndexError.
Proof. unfold dict_get. by destruct (d !! k). Qed.

Lemma decode_safe u b : decode u b ≠ Raise IndexError.
Proof. unfold decode. by destruct (u b). Qed.

Create HintDb safe.

#[local] Hint Resolve safe_ret safe_get_self safe_set_self safe_new_dict
  safe_setitem dict_del_safe dict_get_safe decode_safe : safe.

Ltac safe_step :=
  first
    [ solve [auto with safe]
    | apply safe_lift; solve [auto with safe | by repeat case_match]
    | match goal with
      | |- safe (if ?b then _ else _) => destruct b
      | |- safe (match ?x with (_, _) => _ end) => destruct x
      | |- safe ((let '(_, _) := ?x in _) _) => destruct x
      end
    | apply safe_for; intros
    | apply safe_bind; [|intros] ].

Ltac safes := repeat safe_step.

Lemma safe_IsInitialized : safe IsInitialized.
Proof. unfold IsInitialized. safes. Qed.

Lemma safe_header_tags hd : safe (header_tags hd).
Proof. unfold header_tags. safes. Qed.

Lemma safe_driver_tags hd d : safe (driver_tags hd d).
Proof. unfold driver_tags, header_tags. safes. Qed.

#[local] Hint Resolve safe_IsInitialized safe_header_tags safe_driver_tags
  : safe.

Lemma safe_processSession TrackIDs p t : safe (processSession TrackIDs p t).
Proof. unfold processSession, mySessionId. safes. Qed.

Lemma bytes_decode_safe u (code : value) :
  match code with
  | VBytes b => decode u b
  | _ => Raise AttributeError
  end ≠ Raise IndexError.
Proof. destruct code; try done. apply decode_safe. Qed.

Lemma safe_processEvent u p t : safe (processEvent u p t).
Proof.
  unfold processEvent. safes. apply safe_lift, bytes_decode_safe.
Qed.

Lemma roster_fits_IsInitialized : preserves roster_fits IsInitialized.
Proof. intros [[ds sid brut i] h tr] H. by destruct i. Qed.

#[local] Hint Resolve roster_fits_IsInitialized : keeps.

Lemma processMotion_safe p t :
  wf_packet (Motion p) = true → safe_from roster_fits (processMotion p t).
Proof.
  simpl. rewrite !andb_true_iff, bool_decide_eq_true.
  unfold is_wheel_array. rewrite !bool_decide_eq_true.
  intros (((((Hcars & H1) & H2) & H3) & H4) & H5).
  unfold processMotion.
  apply safe_from_bind; [apply safe_from_safe; safes|keeps|intros ready].
  destruct (negb ready); [apply safe_from_safe; safes|].
  apply safe_from_get_self. intros g Hg. apply safe_from_safe.
  apply safe_bind.
  - apply (safe_for_inv (λ l s, (s.1 + length l ≤ car_slots)%nat));
      [|exact Hg].
    intros driver l [i json] w HI. simpl in HI.
    destruct (driver_tags_run (PacketMotionData_V1.header p) driver w)
      as [hp Htags].
    rewrite (bind_Ok _ _ _ _ _ Htags).
    destruct (lookup_lt_is_Some_2 (PacketMotionData_V1.carMotionData p) i)
      as [car Hcar]; [lia|].
    unfold getitem. rewrite Hcar, lift_Ok. simpl.
    split; [done|]. intros s' [= <-]. simpl. lia.
  - intros [i json].
    destruct (length_4 _ H1) as (a0 & a1 & a2 & a3 & ->).
    destruct (length_4 _ H2) as (b0 & b1 & b2 & b3 & ->).
    destruct (length_4 _ H3) as (c0 & c1 & c2 & c3 & ->).
    destruct (length_4 _ H4) as (d0 & d1 & d2 & d3 & ->).
    destruct (length_4 _ H5) as (e0 & e1 & e2 & e3 & ->).
    apply safe_bind; [safes|intros dic].
    intros w. by repeat (rewrite expand4_Ok, lift_Ok; cbv beta).
Qed.


Lemma lift_Raise {A B} (e : exn) (k : A → M B) w :
  (lift (Raise e) ≫= k) w = (w, Raise e).
Proof. reflexivity. Qed.

(** One turn of a per-driver loop up to the access to slot [i]. *)
Ltac driver_turn hd arr :=
  let driver := fresh "driver" in
  let l := fresh "l" in
  let i := fresh "i" in
  let json := fresh "json" in
  let w := fresh "w" in
  let HI := fresh "HI" in
  let hp := fresh "hp" in
  let Htags := fresh "Htags" in
  let car := fresh "car" in
  let Hcar := fresh "Hcar" in
  intros driver l [i json] w HI; simpl in HI;
  destruct (driver_tags_run hd driver w) as [hp Htags];
  rewrite (bind_Ok _ _ _ _ _ Htags);
  destruct (lookup_lt_is_Some_2 arr i) as [car Hcar]; [lia|];
  unfold getitem; rewrite Hcar, lift_Ok; cbv beta.

Lemma dict_del_cases (d : dict) k :
  (∃ d', dict_del d k = Ok d') ∨ dict_del d k = Raise KeyError.
Proof. unfold dict_del. destruct (d !! k); eauto. Qed.

(** A step [lift (dict_del fields k)] of a loop body: a [KeyError], or on. *)
Ltac del_step :=
  match goal with
  | |- context [lift (dict_del ?d ?k)] =>
      let H := fresh in
      destruct (dict_del_cases d k) as [[? H]|H]; rewrite H; clear H;
      [rewrite lift_Ok; cbv beta
      |rewrite lift_Raise; split; [done|intros ? [=]]]
  end.

Lemma processLap_safe p t :
  wf_packet (Lap p) = true → safe_from roster_fits (processLap p t).
Proof.
  simpl. rewrite bool_decide_eq_true. intros Hcars. unfold processLap.
  apply safe_from_bind; [apply safe_from_safe; safes|keeps|intros ready].
  destruct (negb ready); [apply safe_from_safe; safes|].
  apply safe_from_get_self. intros g Hg. apply safe_from_safe.
  apply safe_bind; [|intros [i json]; safes].
  apply (safe_for_inv (λ l s, (s.1 + length l ≤ car_slots)%nat)); [|exact Hg].
  driver_turn (PacketLapData_V1.header p) (PacketLapData_V1.lapData p).
  simpl. split; [done|]. intros s' [= <-]. simpl. lia.
Qed.

Lemma processCarSetup_safe p t :
  wf_packet (CarSetups p) = true → safe_from roster_fits (processCarSetup p t).
Proof.
  simpl. rewrite bool_decide_eq_true. intros Hcars. unfold processCarSetup.
  apply safe_from_bind; [apply safe_from_safe; safes|keeps|intros ready].
  destruct (negb ready); [apply safe_from_safe; safes|].
  apply safe_from_get_self. intros g Hg. apply safe_from_safe.
  apply safe_bind; [|intros [i json]; safes].
  apply (safe_for_inv (λ l s, (s.1 + length l ≤ car_slots)%nat)); [|exact Hg].
  driver_turn (PacketCarSetupData_V1.header p)
    (PacketCarSetupData_V1.carSetups p).
  simpl. split; [done|]. intros s' [= <-]. simpl. lia.
Qed.

Lemma processCarTelemetry_safe p t :
  wf_packet (CarTelemetry p) = true →
  safe_from roster_fits (processCarTelemetry p t).
Proof.
  simpl. rewrite andb_true_iff, bool_decide_eq_true, forallb_forall.
  intros [Hcars Hwf]. unfold processCarTelemetry.
  apply safe_from_bind; [apply safe_from_safe; safes|keeps|intros ready].
  destruct (negb ready); [apply safe_from_safe; safes|].
  apply safe_from_get_self. intros g Hg. apply safe_from_safe.
  apply safe_bind; [|intros [i json]; safes].
  apply (safe_for_inv (λ l s, (s.1 + length l ≤ car_slots)%nat)); [|exact Hg].
  driver_turn (PacketCarTelemetryData_V1.header p)
    (PacketCarTelemetryData_V1.carTelemetryData p).
  assert (Hshape : wf_telemetry car = true).
  { apply Hwf, list_elem_of_In, list_elem_of_lookup. eauto. }
  unfold wf_telemetry, is_wheel_array in Hshape.
  rewrite !andb_true_iff, !bool_decide_eq_true in Hshape.
  destruct Hshape as ((((H1 & H2) & H3) & H4) & H5).
  destruct (length_4 _ H1) as (a0 & a1 & a2 & a3 & ->).
  destruct (length_4 _ H2) as (b0 & b1 & b2 & b3 & ->).
  destruct (length_4 _ H3) as (c0 & c1 & c2 & c3 & ->).
  destruct (length_4 _ H4) as (d0 & d1 & d2 & d3 & ->).
  destruct (length_4 _ H5) as (e0 & e1 & e2 & e3 & ->).
  repeat (rewrite expand4_Ok, lift_Ok; cbv beta).
  do 5 del_step.
  split; [done|]. intros s' [= <-]. simpl. lia.
Qed.

Lemma expand4_self_cases q (fields : dict) :
  field_wheel_array fields q = true →
  q +:+ "_RL" ≠ q → q +:+ "_RR" ≠ q → q +:+ "_FL" ≠ q → q +:+ "_FR" ≠ q →
  expand4_self q fields = Raise KeyError
  ∨ ∃ a0 a1 a2 a3,
      expand4_self q fields
      = Ok (<[q +:+ "_FR" := a3]> (<[q +:+ "_FL" := a2]>
             (<[q +:+ "_RR" := a1]> (<[q +:+ "_RL" := a0]> fields)))).
Proof.
  unfold field_wheel_array, is_wheel_array. intros Hq N0 N1 N2 N3.
  destruct (fields !! q) as [v|] eqn:E.
  - destruct v as [| | | | |l]; try discriminate Hq.
    apply bool_decide_eq_true in Hq.
    destruct (length_4 _ Hq) as (a0 & a1 & a2 & a3 & ->).
    right. exists a0, a1, a2, a3. unfold expand4_self, dict_get.
    rewrite E. cbn [mbind result_bind value_getitem getitem lookup list_lookup].
    rewrite lookup_insert_ne, E by done.
    cbn [mbind result_bind value_getitem getitem lookup list_lookup].
    rewrite !lookup_insert_ne, E by done.
    cbn [mbind result_bind value_getitem getitem lookup list_lookup].
    rewrite !lookup_insert_ne, E by done.
    reflexivity.
  - left. unfold expand4_self, dict_get. by rewrite E.
Qed.

Lemma processCarStatus_safe p t :
  wf_packet (CarStatus p) = true →
  safe_from roster_fits (processCarStatus p t).
Proof.
  simpl. rewrite andb_true_iff, bool_decide_eq_true, forallb_forall.
  intros [Hcars Hwf]. unfold processCarStatus.
  apply safe_from_bind; [apply safe_from_safe; safes|keeps|intros ready].
  destruct (negb ready); [apply safe_from_safe; safes|].
  apply safe_from_get_self. intros g Hg. apply safe_from_safe.
  apply safe_bind; [|intros [i json]; safes].
  apply (safe_for_inv (λ l s, (s.1 + length l ≤ car_slots)%nat)); [|exact Hg].
  driver_turn (PacketCarStatusData_V1.header p)
    (PacketCarStatusData_V1.carStatusData p).
  assert (Hshape : wf_status car = true).
  { apply Hwf, list_elem_of_In, list_elem_of_lookup. eauto. }
  unfold wf_status in Hshape. apply andb_true_iff in Hshape as [Hw Hd].
  destruct (expand4_self_cases "tyresWear" (CarStatusData.fields car) Hw)
    as [->|(a0 & a1 & a2 & a3 & ->)]; try done.
  rewrite lift_Ok. cbv beta.
  match goal with
  | |- context [lift (expand4_self "tyresDamage" ?d)] =>
      destruct (expand4_self_cases "tyresDamage" d)
        as [->|(b0 & b1 & b2 & b3 & ->)]; try done
  end.
  { unfold field_wheel_array in *.
    by rewrite !lookup_insert_ne by done. }
  rewrite lift_Ok. cbv beta.
  do 2 del_step.
  split; [done|]. intros s' [= <-]. simpl. lia.
Qed.

Lemma decode_cases u b :
  (∃ s, decode u b = Ok s) ∨ decode u b = Raise UnicodeDecodeError.
Proof. unfold decode. destruct (u b); eauto. Qed.

Lemma seq_below n : Forall (λ i, (i < n)%nat) (seq 0 n).
Proof. apply Forall_forall. intros i Hi. apply elem_of_seq in Hi. lia. Qed.

Lemma processParticipant_safe u p t :
  wf_packet (Participants p) = true →
  safe (processParticipant u p t).
Proof.
  simpl. rewrite andb_true_iff, !bool_decide_eq_true. intros [Hparts Hk].
  unfold processParticipant.
  apply safe_bind; [safes|intros ready].
  destruct (negb ready).
  - apply safe_bind; [safes|intros _].
    apply safe_bind; [|intros; safes].
    apply (safe_for_inv (λ l (s : unit), Forall (λ i, (i < car_slots)%nat) l)).
    + intros i l [] w HI. apply Forall_cons in HI as [Hi HI].
      destruct (lookup_lt_is_Some_2 (PacketParticipantsData_V1.participants p) i)
        as [x Hx]; [lia|].
      unfold getitem. rewrite Hx, lift_Ok. cbv beta.
      destruct (decode_cases u (ParticipantData.name x)) as [[s ->]| ->].
      * rewrite lift_Ok. cbv beta. split; [done|]. by intros [] _.
      * rewrite lift_Raise. split; [done|]. intros ? [=].
    + eapply Forall_impl; [apply seq_below|]. simpl. intros i Hi.
      unfold car_slots in *. lia.
  - apply safe_bind; [safes|intros dic].
    apply safe_bind; [safes|intros fields].
    apply safe_bind; [safes|intros _].
    apply safe_bind; [|intros [parts json]; safes].
    apply (safe_for_inv
             (λ l (s : list ParticipantData.t * list (point loc)),
                length s.1 = car_slots ∧ Forall (λ i, (i < car_slots)%nat) l)).
    + intros i l [parts json] w [Hlen HI]. simpl in Hlen.
      apply Forall_cons in HI as [Hi HI].
      destruct (lookup_lt_is_Some_2 parts i) as [x Hx]; [lia|].
      unfold getitem. rewrite Hx, lift_Ok. cbv beta.
      destruct (decode_cases u (ParticipantData.name x)) as [[s ->]| ->].
      * rewrite lift_Ok. cbv beta. mrun.
        rewrite list_lookup_insert_eq by lia. mrun.
        split; [done|]. intros s' [= <-]. simpl.
        by rewrite length_insert.
      * rewrite lift_Raise. split; [done|]. intros ? [=].
    + split; [done|]. eapply Forall_impl; [apply seq_below|]. simpl.
      intros i Hi. unfold car_slots in *. lia.
Qed.

(** A loop whose every completed turn appends one name to the roster. *)
Lemma for_appends {A St} (body : St → A → M St) :
  (∀ s x w w' s', body s x w = (w', Ok s') →
     length (drivers (game w')) = S (length (drivers (game w)))) →
  ∀ l s w w' s', for_ l body s w = (w', Ok s') →
    length (drivers (game w')) = (length (drivers (game w)) + length l)%nat.
Proof.
  intros Hb l. induction l as [|x l IH]; intros s w w' s'; simpl.
  - intros [= <- <-]. lia.
  - unfold mbind, M_bind, bind.
    destruct (body s x w) as [w1 [s1|e]] eqn:E; [|done].
    intros H. rewrite (IH _ _ _ _ H), (Hb _ _ _ _ _ E). lia.
Qed.

Lemma processParticipant_roster_fits u p t w w' out :
  wf_packet (Participants p) = true →
  processParticipant u p t w = (w', Ok out) →
  roster_fits (game w').
Proof.
  simpl. rewrite andb_true_iff, !bool_decide_eq_true. intros [Hparts Hk].
  unfold processParticipant.
  destruct (IsInitialized w) as [w1 [ready|e]] eqn:E1;
    [rewrite (bind_Ok _ _ _ _ _ E1)|by rewrite (bind_Raise _ _ _ _ _ E1)].
  destruct ready; simpl.
  - destruct (header_tags_run (PacketParticipantsData_V1.header p) w1)
      as [hp Htags].
    rewrite (bind_Ok _ _ _ _ _ Htags).
    destruct (dict_del_cases (PacketParticipantsData_V1.fields p) "header")
      as [[d ->]| ->]; [rewrite lift_Ok; cbv beta|by rewrite lift_Raise].
    unfold mbind at 1, M_bind, bind. simpl.
    unfold mbind at 1, M_bind, bind.
    match goal with
    | |- context [for_ ?l ?body ?s ?w0] =>
        destruct (for_ l body s w0) as [w2 [[parts json]|e]] eqn:E2; [|done];
        apply (for_appends body) in E2
    end.
    + simpl in *. intros [= <- _]. unfold roster_fits.
      rewrite E2, length_seq. unfold car_slots in *. lia.
    + clear. intros [parts json] i w0 w3 s'. unfold getitem, decode.
      destruct (parts !! i) as [x|] eqn:Hx; [|by rewrite lift_Raise].
      rewrite lift_Ok. cbv beta.
      destruct (u (ParticipantData.name x)); [|by rewrite lift_Raise].
      rewrite lift_Ok. cbv beta. mrun.
      rewrite list_lookup_insert_eq by (by eapply lookup_lt_Some). mrun.
      intros [= <- <-]. simpl. rewrite length_app. simpl. lia.
  - unfold mbind at 1, M_bind, bind. simpl.
    unfold mbind at 1, M_bind, bind.
    match goal with
    | |- context [for_ ?l ?body ?s ?w0] =>
        destruct (for_ l body s w0) as [w2 [[]|e]] eqn:E2; [|done];
        apply (for_appends body) in E2
    end.
    + simpl in *. intros [= <- _]. unfold roster_fits.
      rewrite E2, length_seq. unfold car_slots in *. lia.
    + clear. intros [] i w0 w3 s'. unfold getitem, decode.
      destruct (_ !! i) as [x|] eqn:Hx; [|by rewrite lift_Raise].
      rewrite lift_Ok. cbv beta.
      destruct (u (ParticipantData.name x)); [|by rewrite lift_Raise].
      rewrite lift_Ok. cbv beta. mrun.
      intros [= <- <-]. simpl. rewrite length_app. simpl. lia.
Qed.

Section Bounds.

Variable utf8_decode : list byte → option string.
Variable TrackIDs : gmap Z string.

Lemma feed_safe p t w :
  wf_packet p = true → roster_fits (game w) →
  (feed utf8_decode TrackIDs p t w).2 ≠ Raise IndexError.
Proof.
  intros Hwf Hw. destruct p; simpl.
  - by apply processMotion_safe.
  - apply safe_processSession.
  - by apply processLap_safe.
  - apply safe_processEvent.
  - by apply processParticipant_safe.
  - by apply processCarSetup_safe.
  - by apply processCarTelemetry_safe.
  - by apply processCarStatus_safe.
Qed.

Lemma feed_keeps_roster p t :
  (∀ q, p ≠ Participants q) →
  preserves roster_fits (feed utf8_decode TrackIDs p t).
Proof.
  intros Hp. destruct p; simpl; unfold_methods; try solve [keeps].
  by destruct (Hp p).
Qed.

Lemma feed_roster_fits p t w w' out :
  wf_packet p = true → roster_fits (game w) →
  feed utf8_decode TrackIDs p t w = (w', Ok out) →
  roster_fits (game w').
Proof.
  intros Hwf Hw Hout.
  assert (Hk : (∀ q, p ≠ Participants q) → roster_fits (game w')).
  { intros Hp. pose proof (feed_keeps_roster p t Hp w Hw) as H.
    by rewrite Hout in H. }
  destruct p; try (by apply Hk).
  by eapply processParticipant_roster_fits.
Qed.

(** C10: with full per-car arrays, per-wheel arrays of four and
    [numActiveCars] at most the number of car slots in every packet, no
    tracker call of a run fails with an out-of-range index. *)
Theorem no_index_out_of_range (ps : list (Packet * datetime)) :
  Forall (λ x, wf_packet x.1 = true) ps →
  (feed_all utf8_decode TrackIDs ps World_init).2 ≠ Raise IndexError.
Proof.
  assert (H : ∀ w, roster_fits (game w) →
              Forall (λ x, wf_packet x.1 = true) ps →
              (feed_all utf8_decode TrackIDs ps w).2 ≠ Raise IndexError).
  { induction ps as [|[p t] ps IH]; intros w Hw Hps; simpl; [done|].
    apply Forall_cons in Hps as [Hp Hps]. simpl in Hp.
    pose proof (feed_safe p t w Hp Hw) as Hs.
    unfold mbind at 1, M_bind, bind.
    destruct (feed utf8_decode TrackIDs p t w) as [w1 [out|e]] eqn:E;
      [|simpl in *; congruence].
    specialize (IH w1 (feed_roster_fits p t w w1 out Hp Hw E) Hps).
    unfold mbind at 1, M_bind, bind.
    destruct (feed_all utf8_decode TrackIDs ps w1) as [w2 [outs|e]];
      simpl in *; congruence. }
  apply H. unfold roster_fits, car_slots. simpl. lia.
Qed.

End Bounds.

Lemma no_index_out_of_range_witness :
  (feed_all decode_ascii sample_tracks
     [(Participants sample_grid, sample_time);
      (Session (sample_session 77), sample_time);
      (Motion sample_motion, sample_time);
      (CarTelemetry sample_telemetry, sample_time);
      (CarStatus sample_status, sample_time);
      (Lap (sample_lap 1), sample_time)] World_init).2
  ≠ Raise IndexError.
Proof.
  apply no_index_out_of_range. repeat constructor.
Defined.

(** The precondition is needed: three active cars announced over an array
    of two participants run past its end. *)
Example participants_beyond_array :
  (processParticipant decode_ascii (sample_participants 3) sample_time
     World_init).2 = Raise IndexError.
Proof. vm_compute. reflexivity. Qed.

(** * Further properties of the tracker *)

(** ** The store while a method runs *)

Lemma deref_last (h : list dict) d : deref (h ++ [d]) (length h) = d.
Proof. unfold deref. by rewrite list_lookup_middle. Qed.

Lemma insert_last (h : list dict) d d' :
  <[length h := d']> (h ++ [d]) = h ++ [d'].
Proof.
  rewrite insert_app_r_alt by lia. by rewrite Nat.sub_diag.
Qed.

Lemma setitem_last g (h : list dict) d tr k v :
  setitem (length h) k v (mk_World g (h ++ [d]) tr)
  = (mk_World g (h ++ [<[k := v]> d]) tr, Ok tt).
Proof. unfold setitem. simpl. by rewrite deref_last, insert_last. Qed.

Lemma header_tags_exact hd w :
  header_tags hd w
  = (mk_World (game w) (heap w ++ [header_dict (game w) hd]) (trace w),
     Ok (length (heap w))).
Proof.
  destruct w as [g h tr]. unfold header_tags, header_dict.
  unfold mbind, M_bind, bind, new_dict, get_self. cbn [game heap trace].
  by rewrite !setitem_last.
Qed.

Lemma driver_tags_exact hd driver w :
  driver_tags hd driver w
  = (mk_World (game w) (heap w ++ [driver_dict (game w) hd driver]) (trace w),
     Ok (length (heap w))).
Proof.
  unfold driver_tags. rewrite (bind_Ok _ _ _ _ _ (header_tags_exact hd w)).
  unfold mbind, M_bind, bind. by rewrite setitem_last.
Qed.

(** A per-driver loop: every turn allocates the driver's tag dictionary and
    appends one record that points to it; [F i] are the fields of slot [i]. *)
Lemma driver_loop_exact
  (body : nat * list (point loc) → string → M (nat * list (point loc)))
  (name : string) (hd : PacketHeader.t) (t : string) (F : nat → dict)
  (n : nat) :
  (∀ i json driver w, (i < n)%nat →
     body (i, json) driver w
     = (mk_World (game w) (heap w ++ [driver_dict (game w) hd driver])
          (trace w),
        Ok (S i, json ++ [mk_point name (length (heap w)) t (F i)]))) →
  ∀ ds i json w, (i + length ds ≤ n)%nat →
    ∃ json',
      for_ ds body (i, json) w
      = (mk_World (game w) (heap w ++ (driver_dict (game w) hd <$> ds))
           (trace w),
         Ok ((i + length ds)%nat, json ++ json'))
      ∧ length json' = length ds
      ∧ ∀ j, (j < length ds)%nat →
             json' !! j
             = Some (mk_point name (length (heap w) + j)%nat t (F (i + j)%nat)).
Proof.
  intros Hbody ds. induction ds as [|d ds IH]; intros i json w Hn.
  - exists []. simpl. rewrite Nat.add_0_r, !app_nil_r. destruct w.
    split; [done|]. split; [done|]. intros j Hj. lia.
  - simpl in Hn. rewrite for_cons, Hbody by lia.
    destruct (IH (S i) (json ++ [mk_point name (length (heap w)) t (F i)])
                (mk_World (game w)
                   (heap w ++ [driver_dict (game w) hd d]) (trace w)))
      as (json' & Hloop & Hlen & Hrec); [lia|].
    exists (mk_point name (length (heap w)) t (F i) :: json').
    rewrite Hloop. cbn [game heap trace]. rewrite <- !app_assoc. simpl.
    replace (i + S (length ds))%nat with (S (i + length ds)) by lia.
    split; [done|]. split; [by rewrite Hlen|].
    intros [|j] Hj; simpl.
    + by rewrite !Nat.add_0_r.
    + rewrite Hrec by lia. cbn [heap]. rewrite length_app. simpl.
      replace (length (heap w) + 1 + j)%nat with (length (heap w) + S j)%nat
        by lia.
      by replace (S (i + j)) with (i + S j)%nat by lia.
Qed.

(** What the sink reads behind the record of slot [j]. *)
Lemma snapshot_driver (h dicts rest : list dict) j d name t f :
  dicts !! j = Some d →
  snapshot (h ++ dicts ++ rest) (mk_point name (length h + j)%nat t f)
  = mk_point name d t f.
Proof.
  intros Hd. unfold snapshot, deref. cbn [measurement tags time fields].
  rewrite lookup_app_r by lia.
  replace (length h + j - length h)%nat with j by lia.
  by rewrite (lookup_app_l_Some _ _ _ _ Hd).
Qed.

(** The batch of a per-driver loop as the sink reads it: each record with
    the tag dictionary of its own driver. *)
Lemma sink_view (h rest : list dict) name hd g t (ds : list string)
  (fs : list dict) (json : list (point loc)) :
  length json = length ds →
  (length ds ≤ length fs)%nat →
  (∀ j, (j < length ds)%nat →
     json !! j = Some (mk_point name (length h + j)%nat t
                         (default ∅ (fs !! j)))) →
  snapshot (h ++ (driver_dict g hd <$> ds) ++ rest) <$> json
  = zip_with (λ driver f, mk_point name (driver_dict g hd driver) t f) ds fs.
Proof.
  intros Hlen Hfs Hrec. apply list_eq. intros j.
  rewrite list_lookup_fmap, lookup_zip_with.
  destruct (decide (j < length ds)%nat) as [Hj|Hj].
  - pose proof (Hrec j Hj) as E. unfold loc in *. rewrite E. simpl.
    destruct (lookup_lt_is_Some_2 ds j Hj) as [d Hd].
    destruct (lookup_lt_is_Some_2 fs j ltac:(lia)) as [f Hf].
    rewrite Hd, Hf. simpl. f_equal.
    apply snapshot_driver. by rewrite list_lookup_fmap, Hd.
  - rewrite (lookup_ge_None_2 json) by lia.
    by rewrite (lookup_ge_None_2 ds) by lia.
Qed.

(** ** LAP_DATA and CAR_SETUPS *)

(** X1: once ready, and with a roster no longer than the lap array, a
    LAP_DATA packet yields one record per roster entry, in roster order;
    each record has a tag dictionary of its own (session id, session time,
    packet id and the driver's name) and the fields of the car slot at the
    driver's position. The call sets the latch, allocates these
    dictionaries and nothing else, and logs nothing. *)
Theorem processLap_records (packet : PacketLapData_V1.t) (time : datetime)
  (w : World) :
  let hd := PacketLapData_V1.header packet in
  let h' := heap w ++ (driver_dict (game w) hd <$> drivers (game w)) in
  Ready w →
  (length (drivers (game w)) ≤ length (PacketLapData_V1.lapData packet))%nat →
  ∃ json,
    processLap packet time w
    = (mk_World (open_gate (game w)) h' (trace w), Ok json)
    ∧ snapshot h' <$> json
      = zip_with (λ driver car,
                    driver_point "LapData" (game w) hd time driver
                      (LapData.fields car))
          (drivers (game w)) (PacketLapData_V1.lapData packet).
Proof.
  intros hd h' Hready Hfit. unfold processLap.
  rewrite (bind_Ok _ _ _ _ _ (IsInitialized_Ready w Hready)). simpl.
  unfold mbind at 1, M_bind, bind. simpl.
  set (F := λ i, default ∅ ((LapData.fields <$> PacketLapData_V1.lapData packet) !! i)).
  match goal with
  | |- context [mbind _ (for_ ?ds ?body ?s) ?w0] =>
      assert (Hbody : ∀ i json driver w1,
                (i < length (drivers (game w)))%nat →
                body (i, json) driver w1
                = (mk_World (game w1)
                     (heap w1 ++ [driver_dict (game w1) hd driver]) (trace w1),
                   Ok (S i, json ++ [mk_point "LapData" (length (heap w1))
                                       (strftime time time_format) (F i)])));
      [|destruct (driver_loop_exact body _ _ _ _ _ Hbody ds 0%nat [] w0
                    ltac:(simpl; lia))
          as (json & Hloop & Hlen & Hrec)]
  end.
  - intros i json driver w1 Hi.
    rewrite (bind_Ok _ _ _ _ _ (driver_tags_exact _ driver w1)).
    destruct (lookup_lt_is_Some_2 (PacketLapData_V1.lapData packet) i
                ltac:(lia)) as [car Hcar].
    unfold getitem, F. rewrite list_lookup_fmap, Hcar. reflexivity.
  - exists json. unfold mbind at 1, M_bind, bind. rewrite Hloop. simpl.
    split; [done|]. unfold driver_point.
    transitivity
      (zip_with (λ driver f,
                   mk_point "LapData" (driver_dict (game w) hd driver)
                     (strftime time time_format) f)
         (drivers (game w))
         (LapData.fields <$> PacketLapData_V1.lapData packet));
      [|by rewrite zip_with_fmap_r].
    unfold h'. rewrite <- (app_nil_r (driver_dict _ _ <$> _)).
    apply sink_view; [done|by rewrite length_fmap|done].
Qed.

Lemma processLap_records_witness :
  let w := sample_ready in
  let hd := sample_header 2 77 in
  let h' := heap w ++ (driver_dict (game w) hd <$> drivers (game w)) in
  ∃ json,
    processLap (sample_lap 1) sample_time w
    = (mk_World (open_gate (game w)) h' (trace w), Ok json)
    ∧ snapshot h' <$> json
      = zip_with (λ driver car,
                    driver_point "LapData" (game w) hd sample_time driver
                      (LapData.fields car))
          (drivers (game w)) (PacketLapData_V1.lapData (sample_lap 1)).
Proof.
  apply (processLap_records (sample_lap 1) sample_time sample_ready).
  - vm_compute. reflexivity.
  - vm_compute. lia.
Defined.

(** X2: the same for a CAR_SETUPS packet and the setup array. *)
Theorem processCarSetup_records (packet : PacketCarSetupData_V1.t)
  (time : datetime) (w : World) :
  let hd := PacketCarSetupData_V1.header packet in
  let h' := heap w ++ (driver_dict (game w) hd <$> drivers (game w)) in
  Ready w →
  (length (drivers (game w))
   ≤ length (PacketCarSetupData_V1.carSetups packet))%nat →
  ∃ json,
    processCarSetup packet time w
    = (mk_World (open_gate (game w)) h' (trace w), Ok json)
    ∧ snapshot h' <$> json
      = zip_with (λ driver car,
                    driver_point "CarSetupData" (game w) hd time driver
                      (CarSetupData.fields car))
          (drivers (game w)) (PacketCarSetupData_V1.carSetups packet).
Proof.
  intros hd h' Hready Hfit. unfold processCarSetup.
  rewrite (bind_Ok _ _ _ _ _ (IsInitialized_Ready w Hready)). simpl.
  unfold mbind at 1, M_bind, bind. simpl.
  set (F := λ i, default ∅ ((CarSetupData.fields
                              <$> PacketCarSetupData_V1.carSetups packet) !! i)).
  match goal with
  | |- context [mbind _ (for_ ?ds ?body ?s) ?w0] =>
      assert (Hbody : ∀ i json driver w1,
                (i < length (drivers (game w)))%nat →
                body (i, json) driver w1
                = (mk_World (game w1)
                     (heap w1 ++ [driver_dict (game w1) hd driver]) (trace w1),
                   Ok (S i, json ++ [mk_point "CarSetupData" (length (heap w1))
                                       (strftime time time_format) (F i)])));
      [|destruct (driver_loop_exact body _ _ _ _ _ Hbody ds 0%nat [] w0
                    ltac:(simpl; lia))
          as (json & Hloop & Hlen & Hrec)]
  end.
  - intros i json driver w1 Hi.
    rewrite (bind_Ok _ _ _ _ _ (driver_tags_exact _ driver w1)).
    destruct (lookup_lt_is_Some_2 (PacketCarSetupData_V1.carSetups packet) i
                ltac:(lia)) as [car Hcar].
    unfold getitem, F. rewrite list_lookup_fmap, Hcar. reflexivity.
  - exists json. unfold mbind at 1, M_bind, bind. rewrite Hloop. simpl.
    split; [done|]. unfold driver_point.
    transitivity
      (zip_with (λ driver f,
                   mk_point "CarSetupData" (driver_dict (game w) hd driver)
                     (strftime time time_format) f)
         (drivers (game w))
         (CarSetupData.fields <$> PacketCarSetupData_V1.carSetups packet));
      [|by rewrite zip_with_fmap_r].
    unfold h'. rewrite <- (app_nil_r (driver_dict _ _ <$> _)).
    apply sink_view; [done|by rewrite length_fmap|done].
Qed.

Lemma processCarSetup_records_witness :
  let w := sample_ready in
  let hd := sample_header 5 77 in
  let h' := heap w ++ (driver_dict (game w) hd <$> drivers (game w)) in
  ∃ json,
    processCarSetup sample_setup sample_time w
    = (mk_World (open_gate (game w)) h' (trace w), Ok json)
    ∧ snapshot h' <$> json
      = zip_with (λ driver car,
                    driver_point "CarSetupData" (game w) hd sample_time driver
                      (CarSetupData.fields car))
          (drivers (game w)) (PacketCarSetupData_V1.carSetups sample_setup).
Proof.
  apply (processCarSetup_records sample_setup sample_time sample_ready).
  - vm_compute. reflexivity.
  - vm_compute. lia.
Defined.

(** ** MOTION *)

Lemma snapshot_last (h : list dict) d name t f :
  snapshot (h ++ [d]) (mk_point name (length h) t f) = mk_point name d t f.
Proof. unfold snapshot. simpl. by rewrite deref_last. Qed.

(** X3: once ready, a MOTION packet yields one record per roster entry,
    as LAP_DATA does, followed by one aggregate record whose tags have no
    driver and whose fields are the ten scalars of the packet and the five
    wheel arrays, each expanded to four fields. *)
Theorem processMotion_records (packet : PacketMotionData_V1.t)
  (time : datetime) (w : World) :
  let hd := PacketMotionData_V1.header packet in
  let h' := heap w ++ (driver_dict (game w) hd <$> drivers (game w))
                   ++ [header_dict (game w) hd] in
  Ready w →
  (length (drivers (game w))
   ≤ length (PacketMotionData_V1.carMotionData packet))%nat →
  length (PacketMotionData_V1.suspensionPosition packet) = 4%nat →
  length (PacketMotionData_V1.suspensionVelocity packet) = 4%nat →
  length (PacketMotionData_V1.suspensionAcceleration packet) = 4%nat →
  length (PacketMotionData_V1.wheelSpeed packet) = 4%nat →
  length (PacketMotionData_V1.wheelSlip packet) = 4%nat →
  ∃ json fields,
    processMotion packet time w
    = (mk_World (open_gate (game w)) h' (trace w), Ok json)
    ∧ snapshot h' <$> json
      = zip_with (λ driver car,
                    driver_point "MotionData" (game w) hd time driver
                      (CarMotionData.fields car))
          (drivers (game w)) (PacketMotionData_V1.carMotionData packet)
        ++ [mk_point "MyMotionData" (header_dict (game w) hd)
              (strftime time time_format) fields]
    ∧ motion_fields packet fields.
Proof.
  intros hd h' Hready Hfit H1 H2 H3 H4 H5. unfold processMotion.
  rewrite (bind_Ok _ _ _ _ _ (IsInitialized_Ready w Hready)).
  cbn [negb]. cbv iota.
  unfold mbind at 1, M_bind, bind. cbn [get_self game].
  set (F := λ i, default ∅ ((CarMotionData.fields
                              <$> PacketMotionData_V1.carMotionData packet) !! i)).
  match goal with
  | |- context [mbind _ (for_ ?ds ?body ?s) ?w0] =>
      assert (Hbody : ∀ i json driver w1,
                (i < length (drivers (game w)))%nat →
                body (i, json) driver w1
                = (mk_World (game w1)
                     (heap w1 ++ [driver_dict (game w1) hd driver]) (trace w1),
                   Ok (S i, json ++ [mk_point "MotionData" (length (heap w1))
                                       (strftime time time_format) (F i)])));
      [|destruct (driver_loop_exact body _ _ _ _ _ Hbody ds 0%nat [] w0
                    ltac:(simpl; lia))
          as (json & Hloop & Hlen & Hrec)]
  end.
  - intros i json driver w1 Hi.
    rewrite (bind_Ok _ _ _ _ _ (driver_tags_exact _ driver w1)).
    destruct (lookup_lt_is_Some_2 (PacketMotionData_V1.carMotionData packet) i
                ltac:(lia)) as [car Hcar].
    unfold getitem, F. rewrite list_lookup_fmap, Hcar. reflexivity.
  - rewrite (bind_Ok _ _ _ _ _ Hloop). cbv beta iota.
    rewrite (bind_Ok _ _ _ _ _ (header_tags_exact _ _)).
    destruct (length_4 _ H1) as (a0 & a1 & a2 & a3 & Ea).
    destruct (length_4 _ H2) as (b0 & b1 & b2 & b3 & Eb).
    destruct (length_4 _ H3) as (c0 & c1 & c2 & c3 & Ec).
    destruct (length_4 _ H4) as (d0 & d1 & d2 & d3 & Ed).
    destruct (length_4 _ H5) as (e0 & e1 & e2 & e3 & Ee).
    rewrite Ea, Eb, Ec, Ed, Ee.
    repeat (rewrite expand4_Ok, lift_Ok; cbv beta).
    cbv beta iota delta [String.append].
    cbn [game heap trace].
    match goal with
    | |- context [mk_point "MyMotionData" _ _ ?f] => set (fields := f)
    end.
    exists (json ++ [mk_point "MyMotionData"
                       (length (heap w ++ (driver_dict (game w) hd
                                             <$> drivers (game w))))
                       (strftime time time_format) fields]), fields.
    split; [|split].
    + unfold open_gate, h'. rewrite (app_assoc (heap w)). reflexivity.
    + rewrite fmap_app. f_equal.
      * unfold driver_point.
        transitivity
          (zip_with (λ driver f,
                       mk_point "MotionData" (driver_dict (game w) hd driver)
                         (strftime time time_format) f)
             (drivers (game w))
             (CarMotionData.fields
                <$> PacketMotionData_V1.carMotionData packet));
          [|by rewrite zip_with_fmap_r].
        apply sink_view; [done|by rewrite length_fmap|done].
      * unfold h'. rewrite app_assoc. cbn [fmap list_fmap].
        rewrite snapshot_last. reflexivity.
    + unfold motion_fields, wheel_fields, fields. rewrite Ea, Eb, Ec, Ed, Ee.
      cbv beta iota delta [String.append]. cbn [lookup list_lookup].
      repeat split;
        rewrite ?lookup_insert_ne by done; rewrite ?lookup_insert_eq; done.
Qed.

Lemma processMotion_records_witness :
  let w := sample_ready in
  let hd := sample_header 0 77 in
  let h' := heap w ++ (driver_dict (game w) hd <$> drivers (game w))
                   ++ [header_dict (game w) hd] in
  ∃ json fields,
    processMotion sample_motion sample_time w
    = (mk_World (open_gate (game w)) h' (trace w), Ok json)
    ∧ snapshot h' <$> json
      = zip_with (λ driver car,
                    driver_point "MotionData" (game w) hd sample_time driver
                      (CarMotionData.fields car))
          (drivers (game w)) (PacketMotionData_V1.carMotionData sample_motion)
        ++ [mk_point "MyMotionData" (header_dict (game w) hd)
              (strftime sample_time time_format) fields]
    ∧ motion_fields sample_motion fields.
Proof.
  apply (processMotion_records sample_motion sample_time sample_ready).
  - vm_compute. reflexivity.
  - vm_compute. lia.
  - reflexivity.
  - reflexivity.
  - reflexivity.
  - reflexivity.
  - reflexivity.
Defined.

(** ** CAR_STATUS *)

Lemma expand4_self_Ok q a0 a1 a2 a3 (fields : dict) :
  fields !! q = Some (VArr [a0; a1; a2; a3]) →
  q +:+ "_RL" ≠ q → q +:+ "_RR" ≠ q → q +:+ "_FL" ≠ q → q +:+ "_FR" ≠ q →
  expand4_self q fields
  = Ok (<[q +:+ "_FR" := a3]> (<[q +:+ "_FL" := a2]>
         (<[q +:+ "_RR" := a1]> (<[q +:+ "_RL" := a0]> fields)))).
Proof.
  intros E N0 N1 N2 N3. unfold expand4_self, dict_get.
  rewrite E. cbn [mbind result_bind value_getitem getitem lookup list_lookup].
  rewrite lookup_insert_ne, E by done.
  cbn [mbind result_bind value_getitem getitem lookup list_lookup].
  rewrite !lookup_insert_ne, E by done.
  cbn [mbind result_bind value_getitem getitem lookup list_lookup].
  rewrite !lookup_insert_ne, E by done.
  reflexivity.
Qed.

Lemma status_body (packet : PacketCarStatusData_V1.t) (t : string)
  hd i json driver w car :
  PacketCarStatusData_V1.carStatusData packet !! i = Some car →
  status_shape car →
  ∃ w' r,
    (dic ← driver_tags hd driver;
     car ← lift (getitem (PacketCarStatusData_V1.carStatusData packet) i);
     let fields := CarStatusData.fields car in
     fields ← lift (expand4_self "tyresWear" fields);
     fields ← lift (expand4_self "tyresDamage" fields);
     fields ← lift (dict_del fields "tyresWear");
     fields ← lift (dict_del fields "tyresDamage");
     mret (S i, json ++ [mk_point "CarStatusData" dic t fields])) w
    = (w', Ok (S i, json ++ [r]))
    ∧ game w' = game w ∧ trace w' = trace w ∧ status_record packet i r.
Proof.
  intros Hcar (wear & damage & Hw & Lw & Hd & Ld).
  destruct (driver_tags_run hd driver w) as [hp Htags].
  rewrite (bind_Ok _ _ _ _ _ Htags).
  unfold getitem. rewrite Hcar, lift_Ok. cbv beta.
  destruct (length_4 _ Lw) as (a0 & a1 & a2 & a3 & Ea).
  destruct (length_4 _ Ld) as (b0 & b1 & b2 & b3 & Eb).
  rewrite Ea in Hw. rewrite Eb in Hd.
  rewrite (expand4_self_Ok _ _ _ _ _ _ Hw), lift_Ok by done. cbv beta.
  rewrite (expand4_self_Ok "tyresDamage" b0 b1 b2 b3), lift_Ok;
    [|by rewrite !lookup_insert_ne by done|done..].
  cbv beta iota delta [String.append].
  repeat (rewrite dict_del_Ok, lift_Ok;
          [|by rewrite ?lookup_delete_ne, ?lookup_insert_ne by done]).
  eexists _, _. split; [reflexivity|].
  split; [done|]. split; [done|].
  exists car, wear, damage. rewrite Ea, Eb.
  split; [done|]. split; [done|]. split; [done|]. split; [done|].
  unfold wheel_fields.
  cbv beta iota delta [String.append]. cbn [fields lookup list_lookup].
  split; [|split].
  - repeat split;
      rewrite ?lookup_delete_ne by done; rewrite ?lookup_delete_eq;
      rewrite ?lookup_insert_ne by done; rewrite ?lookup_insert_eq; done.
  - repeat split;
      rewrite ?lookup_delete_ne by done; rewrite ?lookup_delete_eq;
      rewrite ?lookup_insert_ne by done; rewrite ?lookup_insert_eq; done.
  - intros k Hk. unfold status_keys in Hk.
    rewrite !not_elem_of_cons in Hk. destruct_and!.
    by rewrite !lookup_delete_ne, !lookup_insert_ne by done.
Qed.

(** X4: once ready, every per-driver CAR_STATUS record has tyre wear and
    tyre damage as four scalar fields each (element 0 to 3 as RL, RR, FL,
    FR), neither of the two arrays, and every other field of its car slot
    unchanged. *)
Theorem processCarStatus_expands (packet : PacketCarStatusData_V1.t)
  (time : datetime) (w : World) :
  Ready w →
  (∀ i, (i < length (drivers (game w)))%nat →
     ∃ car, PacketCarStatusData_V1.carStatusData packet !! i = Some car
            ∧ status_shape car) →
  ∃ w' json,
    processCarStatus packet time w = (w', Ok json)
    ∧ game w' = open_gate (game w) ∧ trace w' = trace w
    ∧ length json = length (drivers (game w))
    ∧ ∀ i, (i < length (drivers (game w)))%nat →
           ∃ r, json !! i = Some r ∧ status_record packet i r.
Proof.
  intros Hready Hcars. unfold processCarStatus.
  rewrite (bind_Ok _ _ _ _ _ (IsInitialized_Ready w Hready)). simpl.
  unfold mbind at 1, M_bind, bind. simpl.
  match goal with
  | |- context [mbind _ (for_ ?ds ?body ?s) ?w0] =>
      assert (Hbody : ∀ i json driver w1,
                (i < length (drivers (game w)))%nat →
                ∃ w' r, body (i, json) driver w1
                        = (w', Ok (S i, json ++ [r]))
                        ∧ game w' = game w1 ∧ trace w' = trace w1
                        ∧ status_record packet i r);
      [|destruct (indexed_loop body (status_record packet) _ Hbody
                   ds 0%nat [] w0 ltac:(simpl; lia))
          as (w' & json & Hloop & Hg & Ht & Hlen & Hrec)]
  end.
  - intros i json driver w0 Hi. destruct (Hcars i Hi) as (car & Hcar & Hshape).
    apply (status_body packet _ _ i json driver w0 car Hcar Hshape).
  - exists w', json. unfold mbind at 1, M_bind, bind. rewrite Hloop. simpl.
    split; [done|]. split; [done|]. split; [done|]. split; [done|].
    intros i Hi.
    destruct (Hrec i Hi) as (r & Hr & HR). by exists r.
Qed.

Lemma processCarStatus_expands_witness :
  ∃ w' json,
    processCarStatus sample_status sample_time sample_ready = (w', Ok json)
    ∧ game w' = open_gate (game sample_ready)
    ∧ trace w' = trace sample_ready
    ∧ length json = length (drivers (game sample_ready))
    ∧ ∀ i, (i < length (drivers (game sample_ready)))%nat →
           ∃ r, json !! i = Some r ∧ status_record sample_status i r.
Proof.
  apply (processCarStatus_expands sample_status sample_time sample_ready).
  - vm_compute. reflexivity.
  - intros i Hi. eexists. split.
    + apply lookup_replicate_2. vm_compute in Hi. lia.
    + eexists _, _. repeat split; reflexivity.
Defined.

(** ** EVENT *)

(** X5: once ready, an EVENT packet whose event code is a byte string of
    valid UTF-8 yields exactly one record: tags of session id, session time
    and packet id, and the packet's fields with the event code as text and
    without the header. *)
Theorem processEvent_record (utf8_decode : list byte → option string)
  (packet : PacketEventData_V1.t) (time : datetime) (w : World) b text :
  let hd := PacketEventData_V1.header packet in
  let fields := PacketEventData_V1.fields packet in
  let h' := heap w ++ [header_dict (game w) hd] in
  Ready w →
  fields !! "eventStringCode" = Some (VBytes b) →
  utf8_decode b = Some text →
  is_Some (fields !! "header") →
  ∃ json,
    processEvent utf8_decode packet time w
    = (mk_World (open_gate (game w)) h' (trace w), Ok json)
    ∧ snapshot h' <$> json
      = [mk_point "EventData" (header_dict (game w) hd)
           (strftime time time_format)
           (delete "header" (<["eventStringCode" := VStr text]> fields))].
Proof.
  intros hd fields h' Hready Hcode Htext Hheader. unfold processEvent.
  rewrite (bind_Ok _ _ _ _ _ (IsInitialized_Ready w Hready)).
  cbn [negb]. cbv iota.
  rewrite (bind_Ok _ _ _ _ _ (header_tags_exact _ _)).
  unfold dict_get. fold fields. rewrite Hcode, lift_Ok. cbv beta iota.
  unfold decode. rewrite Htext, lift_Ok. cbv beta.
  rewrite dict_del_Ok, lift_Ok by (by rewrite lookup_insert_ne).
  cbv beta. cbn [game heap trace].
  eexists. split; [reflexivity|].
  cbn [app fmap list_fmap]. unfold h'. by rewrite snapshot_last.
Qed.

Lemma processEvent_record_witness :
  let packet :=
    PacketEventData_V1.mk (sample_header 3 77)
      (<["eventStringCode" := VBytes [x53; x53; x54; x41]]>
         (<["header" := VNone]> ∅)) in
  let w := sample_ready in
  let hd := sample_header 3 77 in
  let h' := heap w ++ [header_dict (game w) hd] in
  ∃ json,
    processEvent decode_ascii packet sample_time w
    = (mk_World (open_gate (game w)) h' (trace w), Ok json)
    ∧ snapshot h' <$> json
      = [mk_point "EventData" (header_dict (game w) hd)
           (strftime sample_time time_format)
           (delete "header"
              (<["eventStringCode" := VStr "SSTA"]>
                 (PacketEventData_V1.fields packet)))].
Proof.
  apply (processEvent_record decode_ascii
           (PacketEventData_V1.mk (sample_header 3 77)
              (<["eventStringCode" := VBytes [x53; x53; x54; x41]]>
                 (<["header" := VNone]> ∅)))
           sample_time sample_ready [x53; x53; x54; x41] "SSTA").
  - vm_compute. reflexivity.
  - reflexivity.
  - reflexivity.
  - by eexists.
Defined.

(** X6: once ready, an EVENT packet that is not of that shape makes the
    call fail after the latch was set and the tag dictionary allocated:
    with [KeyError] when the event code or the header entry is missing,
    with [AttributeError] when the code is no byte string, with
    [UnicodeDecodeError] when it is not valid UTF-8. *)
Theorem processEvent_raises (utf8_decode : list byte → option string)
  (packet : PacketEventData_V1.t) (time : datetime) (w : World) :
  let hd := PacketEventData_V1.header packet in
  let fields := PacketEventData_V1.fields packet in
  let w' := mk_World (open_gate (game w))
              (heap w ++ [header_dict (game w) hd]) (trace w) in
  Ready w →
  (fields !! "eventStringCode" = None →
   processEvent utf8_decode packet time w = (w', Raise KeyError))
  ∧ (∀ v, fields !! "eventStringCode" = Some v → (∀ b, v ≠ VBytes b) →
       processEvent utf8_decode packet time w = (w', Raise AttributeError))
  ∧ (∀ b, fields !! "eventStringCode" = Some (VBytes b) →
       utf8_decode b = None →
       processEvent utf8_decode packet time w
       = (w', Raise UnicodeDecodeError))
  ∧ (∀ b text, fields !! "eventStringCode" = Some (VBytes b) →
       utf8_decode b = Some text → fields !! "header" = None →
       processEvent utf8_decode packet time w = (w', Raise KeyError)).
Proof.
  intros hd fields w' Hready.
  assert (Hrun : processEvent utf8_decode packet time w
    = (code ← lift (dict_get fields "eventStringCode");
       text ← lift (match code with
                    | VBytes b => decode utf8_decode b
                    | _ => Raise AttributeError
                    end);
       let fields := <["eventStringCode" := VStr text]> fields in
       fields ← lift (dict_del fields "header");
       mret ([] ++ [mk_point "EventData" (length (heap w))
                      (strftime time time_format) fields])) w').
  { unfold processEvent.
    rewrite (bind_Ok _ _ _ _ _ (IsInitialized_Ready w Hready)).
    cbn [negb]. cbv iota.
    by rewrite (bind_Ok _ _ _ _ _ (header_tags_exact _ _)). }
  rewrite Hrun. unfold dict_get, decode.
  split; [|split; [|split]].
  - intros ->. reflexivity.
  - intros v -> Hv. rewrite lift_Ok. cbv beta.
    destruct v; try reflexivity. by destruct (Hv b).
  - intros b Hc Hd. rewrite Hc, lift_Ok. cbv beta iota.
    rewrite Hd. reflexivity.
  - intros b text Hc Hd Hh. rewrite Hc, lift_Ok. cbv beta iota.
    rewrite Hd, lift_Ok. cbv beta.
    unfold dict_del. rewrite lookup_insert_ne, Hh by done. reflexivity.
Qed.

Lemma processEvent_raises_witness :
  let packet :=
    PacketEventData_V1.mk (sample_header 3 77)
      (<["eventStringCode" := VBytes [xff]]> (<["header" := VNone]> ∅)) in
  let w := sample_ready in
  let fields := PacketEventData_V1.fields packet in
  let w' := mk_World (open_gate (game w))
              (heap w ++ [header_dict (game w) (sample_header 3 77)])
              (trace w) in
  (fields !! "eventStringCode" = None →
   processEvent decode_ascii packet sample_time w = (w', Raise KeyError))
  ∧ (∀ v, fields !! "eventStringCode" = Some v → (∀ b, v ≠ VBytes b) →
       processEvent decode_ascii packet sample_time w
       = (w', Raise AttributeError))
  ∧ (∀ b, fields !! "eventStringCode" = Some (VBytes b) →
       decode_ascii b = None →
       processEvent decode_ascii packet sample_time w
       = (w', Raise UnicodeDecodeError))
  ∧ (∀ b text, fields !! "eventStringCode" = Some (VBytes b) →
       decode_ascii b = Some text → fields !! "header" = None →
       processEvent decode_ascii packet sample_time w = (w', Raise KeyError)).
Proof.
  apply (processEvent_raises decode_ascii
           (PacketEventData_V1.mk (sample_header 3 77)
              (<["eventStringCode" := VBytes [xff]]>
                 (<["header" := VNone]> ∅)))
           sample_time sample_ready).
  vm_compute. reflexivity.
Defined.

(** ** SESSION *)

(** The zone loop: every turn writes its label into the one dictionary
    [dic] and appends a record that points to it. *)
Lemma zone_loop (t : string) g (h : list dict) tr
  (zones : list MarshalZone.t) : ∀ i json d,
  for_ zones
    (λ '(i, json) mz,
       setitem (length h) "MarshalZoneId"
         (VStr ("MarshalZone" +:+ str (Z.of_nat i)));;
       mret (S i, json ++ [mk_point "MarshalZones" (length h) t
                             (MarshalZone.fields mz)]))
    (i, json) (mk_World g (h ++ [d]) tr)
  = (mk_World g (h ++ [zone_tags i (length zones) d]) tr,
     Ok ((i + length zones)%nat,
         json ++ ((λ mz, mk_point "MarshalZones" (length h) t
                           (MarshalZone.fields mz)) <$> zones))).
Proof.
  induction zones as [|mz zones IH]; intros i json d.
  - simpl. by rewrite Nat.add_0_r, app_nil_r.
  - rewrite for_cons. unfold mbind at 1, M_bind, bind.
    rewrite setitem_last. cbn [mret M_ret ret]. rewrite IH.
    rewrite <- app_assoc. cbn [length fmap list_fmap app].
    replace (S i + length zones)%nat with (i + S (length zones))%nat by lia.
    do 3 f_equal. unfold zone_tags, zone_label.
    destruct (length zones) as [|m]; [by rewrite Nat.add_0_r|].
    rewrite insert_insert_eq.
    by replace (S i + m)%nat with (i + S m)%nat by lia.
Qed.

Lemma set_sessionID_run sid w :
  set_sessionID sid w
  = (mk_World (mk_Game (drivers (game w)) sid (sessionIDBrut (game w))
                 (init (game w))) (heap w) (trace w), Ok tt).
Proof. reflexivity. Qed.

Lemma snapshot_middle (h rest : list dict) d name t f :
  snapshot (h ++ d :: rest) (mk_point name (length h) t f)
  = mk_point name d t f.
Proof.
  unfold snapshot, deref. cbn [measurement tags time fields].
  by rewrite list_lookup_middle.
Qed.

(** A SESSION packet that finds the gate open once its identity is in
    place: the store gets the zone loop's dictionary and the session
    record's, and the sink reads [session_points]. *)
Lemma processSession_open TrackIDs (p : PacketSessionData_V1.t)
  (t : datetime) (w w1 w0 : World) sid :
  let hd := PacketSessionData_V1.header p in
  let zones := PacketSessionData_V1.marshalZones p in
  let h' := heap w0 ++ [zone_tags 0 (length zones) (header_dict (game w0) hd);
                        header_dict (game w0) hd] in
  mySessionId TrackIDs p t w = (w1, Ok sid) →
  IsInitialized (set_sessionID sid w1).1 = (w0, Ok true) →
  is_Some (PacketSessionData_V1.fields p !! "marshalZones") →
  is_Some (PacketSessionData_V1.fields p !! "header") →
  ∃ json,
    processSession TrackIDs p t w
    = (mk_World (game w0) h' (trace w0), Ok json)
    ∧ length json = S (length zones)
    ∧ snapshot h' <$> json = session_points (game w0) p t.
Proof.
  intros hd zones h' Hmy Hinit Hmz Hh. unfold processSession.
  rewrite (bind_Ok _ _ _ _ _ Hmy).
  rewrite (bind_Ok _ _ _ _ _ (set_sessionID_run sid w1)).
  rewrite set_sessionID_run in Hinit. cbn [fst] in Hinit.
  rewrite (bind_Ok _ _ _ _ _ Hinit). cbn [negb]. cbv iota.
  rewrite (bind_Ok _ _ _ _ _ (header_tags_exact _ _)).
  rewrite (bind_Ok _ _ _ _ _
             (zone_loop (strftime t time_format) (game w0) (heap w0)
                (trace w0) zones 0%nat [] (header_dict (game w0) hd))).
  cbv beta iota.
  rewrite (bind_Ok _ _ _ _ _ (header_tags_exact _ _)).
  cbn [game heap trace].
  rewrite (dict_del_Ok _ _ Hmz), lift_Ok. cbv beta.
  rewrite dict_del_Ok, lift_Ok by (by rewrite lookup_delete_ne).
  cbv beta. eexists. split; [|split].
  - unfold h'. rewrite <- (app_assoc (heap w0)). reflexivity.
  - rewrite app_nil_l, length_app, length_fmap. simpl. lia.
  - rewrite app_nil_l, fmap_app. unfold session_points. f_equal.
    + rewrite <- list_fmap_compose. apply list_fmap_ext. intros i mz _.
      unfold h'. simpl. by rewrite snapshot_middle.
    + unfold h'. cbn [fmap list_fmap].
      change (heap w0 ++ [?a; ?b]) with (heap w0 ++ [a] ++ [b]).
      rewrite app_assoc. by rewrite snapshot_last.
Qed.

(** X7: with the latch set, a SESSION packet of the session seen last
    leaves the tracker as it is and yields one record per marshal zone and
    one session record. All zone records hold one tag dictionary, so the
    sink reads the label of the last zone in each of them; the session
    record has the packet's fields without the zone list and the header. *)
Theorem processSession_records TrackIDs (p : PacketSessionData_V1.t)
  (t : datetime) (w : World) :
  let hd := PacketSessionData_V1.header p in
  let zones := PacketSessionData_V1.marshalZones p in
  let h' := heap w ++ [zone_tags 0 (length zones) (header_dict (game w) hd);
                       header_dict (game w) hd] in
  latched (game w) →
  sessionIDBrut (game w) = Some (PacketHeader.sessionUID hd) →
  is_Some (PacketSessionData_V1.fields p !! "marshalZones") →
  is_Some (PacketSessionData_V1.fields p !! "header") →
  ∃ json,
    processSession TrackIDs p t w = (mk_World (game w) h' (trace w), Ok json)
    ∧ length json = S (length zones)
    ∧ snapshot h' <$> json = session_points (game w) p t.
Proof.
  destruct w as [[ds sid brut i] h tr]. unfold latched. simpl.
  intros -> -> Hmz Hh.
  set (w := mk_World (mk_Game ds sid
                        (Some (PacketHeader.sessionUID
                                 (PacketSessionData_V1.header p))) true) h tr).
  assert (Hmy : mySessionId TrackIDs p t w = (w, Ok sid)).
  { unfold mySessionId, w. mrun.
    rewrite bool_decide_eq_false_2 by (intros H; by apply H). by mrun. }
  apply (processSession_open TrackIDs p t w w w sid Hmy); done.
Qed.

Lemma processSession_records_witness :
  let p := sample_session 77 in
  let w := sample_ready in
  let hd := sample_header 1 77 in
  let h' := heap w ++ [zone_tags 0 2 (header_dict (game w) hd);
                       header_dict (game w) hd] in
  ∃ json,
    processSession sample_tracks p sample_time w
    = (mk_World (game w) h' (trace w), Ok json)
    ∧ length json = 3%nat
    ∧ snapshot h' <$> json = session_points (game w) p sample_time.
Proof.
  apply (processSession_records sample_tracks (sample_session 77)
           sample_time sample_ready).
  - vm_compute. reflexivity.
  - vm_compute. reflexivity.
  - by eexists.
  - by eexists.
Defined.

(** X8: a SESSION packet of a session not seen before that finds a roster
    but no latch opens the gate in the same call: the identity is
    computed, the latch is set and the records of the packet are
    returned at once. *)
Theorem session_opens_gate TrackIDs (p : PacketSessionData_V1.t)
  (t : datetime) (w : World) track :
  let hd := PacketSessionData_V1.header p in
  let zones := PacketSessionData_V1.marshalZones p in
  let g' := with_identity (game w)
              (session_identity t track (PacketSessionData_V1.m_formula p))
              (PacketHeader.sessionUID hd) in
  let h' := heap w ++ [zone_tags 0 (length zones) (header_dict g' hd);
                       header_dict g' hd] in
  init (game w) = false →
  drivers (game w) ≠ [] →
  sessionIDBrut (game w) ≠ Some (PacketHeader.sessionUID hd) →
  TrackIDs !! PacketSessionData_V1.trackId p = Some track →
  is_Some (PacketSessionData_V1.fields p !! "marshalZones") →
  is_Some (PacketSessionData_V1.fields p !! "header") →
  ∃ json,
    processSession TrackIDs p t w = (mk_World g' h' (trace w), Ok json)
    ∧ length json = S (length zones)
    ∧ snapshot h' <$> json = session_points g' p t.
Proof.
  destruct w as [[ds sid brut i] h tr]. simpl.
  intros -> Hds Hne Htrack Hmz Hh.
  set (s := session_identity t track (PacketSessionData_V1.m_formula p)).
  set (uid := PacketHeader.sessionUID (PacketSessionData_V1.header p)).
  assert (Hmy : mySessionId TrackIDs p t
                  (mk_World (mk_Game ds sid brut false) h tr)
                = (mk_World (mk_Game ds (Some s) (Some uid) false) h tr,
                   Ok (Some s))).
  { unfold mySessionId. mrun.
    rewrite bool_decide_eq_true_2 by congruence. mrun.
    rewrite Htrack. by mrun. }
  apply (processSession_open TrackIDs p t _ _
           (mk_World (mk_Game ds (Some s) (Some uid) true) h tr) _ Hmy);
    [|done|done].
  unfold IsInitialized. mrun. destruct ds as [|d ds]; [done|]. reflexivity.
Qed.

Lemma session_opens_gate_witness :
  let p := sample_session 77 in
  let w := (processParticipant decode_ascii (sample_participants 2)
              sample_time World_init).1 in
  let g' := with_identity (game w)
              (session_identity sample_time "Melbourne" 0) 77 in
  let hd := sample_header 1 77 in
  let h' := heap w ++ [zone_tags 0 2 (header_dict g' hd);
                       header_dict g' hd] in
  ∃ json,
    processSession sample_tracks p sample_time w
    = (mk_World g' h' (trace w), Ok json)
    ∧ length json = 3%nat
    ∧ snapshot h' <$> json = session_points g' p sample_time.
Proof.
  apply (session_opens_gate sample_tracks (sample_session 77) sample_time
           (processParticipant decode_ascii (sample_participants 2)
              sample_time World_init).1 "Melbourne").
  - vm_compute. reflexivity.
  - vm_compute. discriminate.
  - vm_compute. discriminate.
  - reflexivity.
  - by eexists.
  - by eexists.
Defined.

(** ** PARTICIPANTS *)

Lemma foldl_with_driver names : ∀ g,
  foldl with_driver g names
  = mk_Game (drivers g ++ names) (sessionID g) (sessionIDBrut g) (init g).
Proof.
  induction names as [|nm names IH]; intros g; simpl.
  - rewrite app_nil_r. by destruct g.
  - rewrite IH. simpl. by rewrite <- app_assoc.
Qed.

Lemma drop_lookup_head {A} (l : list A) i x rest :
  drop i l = x :: rest → l !! i = Some x ∧ rest = drop (S i) l.
Proof.
  intros Ed.
  assert (Hx : l !! i = Some x).
  { pose proof (lookup_drop l i 0) as H. rewrite Ed in H.
    simpl in H. by rewrite Nat.add_0_r in H. }
  split; [done|]. rewrite (drop_S _ _ _ Hx) in Ed. by injection Ed.
Qed.

(** The loop of the branch taken while the gate is shut: names are decoded
    and appended to the roster, nothing else happens. *)
Lemma roster_loop (utf8_decode : list byte → option string)
  (parts : list ParticipantData.t) : ∀ n i w names,
  Forall2 (λ p nm, utf8_decode (ParticipantData.name p) = Some nm)
    (take n (drop i parts)) names →
  length names = n →
  for_ (seq i n)
    (λ (_ : unit) i,
       p ← lift (getitem parts i);
       driver ← lift (decode utf8_decode (ParticipantData.name p));
       drivers_append driver) tt w
  = (mk_World (foldl with_driver (game w) names) (heap w) (trace w), Ok tt).
Proof.
  induction n as [|n IH]; intros i w names HF Hlen.
  - destruct names; [|done]. simpl. by destruct w.
  - destruct names as [|nm names]; [done|].
    destruct (drop i parts) as [|p rest] eqn:Ed; [by inversion HF|].
    simpl in HF. apply Forall2_cons in HF as [Hnm HF].
    apply drop_lookup_head in Ed as [Hp ->].
    cbn [seq]. rewrite for_cons. unfold getitem, decode.
    rewrite Hp, lift_Ok. cbv beta. rewrite Hnm, lift_Ok. cbv beta.
    change (drivers_append nm w)
      with (mk_World (with_driver (game w) nm) (heap w) (trace w), Ok tt).
    cbv iota. rewrite (IH (S i) _ names HF) by (simpl in Hlen; lia).
    reflexivity.
Qed.

(** X9: a PARTICIPANTS packet that finds the gate shut only replaces the
    roster by the decoded names of the active cars. It returns no record,
    allocates nothing, logs nothing and does not set the latch, even when
    the session is known, so that the gate answers true after the call:
    the packet that completes the tracker's knowledge is itself not
    recorded. *)
Theorem processParticipant_gate_shut (utf8_decode : list byte → option string)
  (packet : PacketParticipantsData_V1.t) (time : datetime) (w : World)
  (names : list string) :
  let k := PacketParticipantsData_V1.numActiveCars packet in
  let slots :=
    take (Z.to_nat k) (PacketParticipantsData_V1.participants packet) in
  let w' := mk_World (with_roster (game w) names) (heap w) (trace w) in
  no_roster (game w) ∨ no_identity (game w) →
  Forall2 (λ p nm, utf8_decode (ParticipantData.name p) = Some nm)
    slots names →
  length names = Z.to_nat k →
  processParticipant utf8_decode packet time w = (w', Ok [])
  ∧ (sessionID (game w) ≠ None → names ≠ [] → Ready w').
Proof.
  intros k slots w' Hshut HF Hlen. split.
  - unfold processParticipant.
    rewrite (bind_Ok _ _ _ _ _ (IsInitialized_shut w Hshut)).
    cbn [negb]. cbv iota.
    unfold mbind at 1, M_bind, bind.
    change (set_drivers [] w)
      with (mk_World (with_roster (game w) []) (heap w) (trace w), Ok tt).
    cbv iota.
    rewrite (bind_Ok _ _ _ _ _
               (roster_loop utf8_decode _ (Z.to_nat k) 0%nat _ names HF Hlen)).
    cbn [game heap trace]. rewrite foldl_with_driver. reflexivity.
  - intros Hsid Hnames.
    assert (Hi : init (game w) = false) by (by destruct Hshut as [[? _]|[? _]]).
    unfold Ready, w'. clear w' HF Hlen Hshut.
    destruct w as [[ds sid brut i] h tr]. simpl in *. subst i.
    unfold IsInitialized, with_roster. mrun.
    destruct names; [done|]. simpl.
    by rewrite bool_decide_eq_true_2.
Qed.

Lemma processParticipant_gate_shut_witness :
  let packet := sample_participants 2 in
  let w := (processSession sample_tracks (sample_session 77) sample_time
              World_init).1 in
  let w' := mk_World (with_roster (game w) sample_names) (heap w) (trace w) in
  processParticipant decode_ascii packet sample_time w = (w', Ok [])
  ∧ (sessionID (game w) ≠ None → sample_names ≠ [] → Ready w').
Proof.
  apply (processParticipant_gate_shut decode_ascii (sample_participants 2)
           sample_time
           (processSession sample_tracks (sample_session 77) sample_time
              World_init).1 sample_names).
  - left. vm_compute. split; reflexivity.
  - repeat constructor.
  - reflexivity.
Defined.

Lemma shared_driver_tags_cons nm names d :
  shared_driver_tags (nm :: names) d
  = shared_driver_tags names (<["driver" := VStr nm]> d).
Proof.
  unfold shared_driver_tags. destruct names as [|nm' names]; [done|].
  change (last (nm :: nm' :: names)) with (last (nm' :: names)).
  destruct (last (nm' :: names)) as [x|] eqn:E.
  - by rewrite insert_insert_eq.
  - by apply last_None in E.
Qed.

(** The loop of the branch taken once the gate is open, with the store:
    every turn overwrites the driver entry of the one dictionary [dic]. *)
Lemma participant_loop_exact (utf8_decode : list byte → option string)
  (t : string) (h : list dict) tr
  (body : list ParticipantData.t * list (point loc) → nat →
          M (list ParticipantData.t * list (point loc))) :
  (∀ i parts json g d p nm,
     parts !! i = Some p → utf8_decode (ParticipantData.name p) = Some nm →
     body (parts, json) i (mk_World g (h ++ [d]) tr)
     = (mk_World (with_driver g nm) (h ++ [<["driver" := VStr nm]> d]) tr,
        Ok (<[i := set_fields p (<["name" := VStr nm]>
                                   (ParticipantData.fields p))]> parts,
            json ++ [participant_record (length h) t p nm]))) →
  ∀ n i parts json g d names,
    Forall2 (λ p nm, utf8_decode (ParticipantData.name p) = Some nm)
      (take n (drop i parts)) names →
    length names = n →
    ∃ parts',
      for_ (seq i n) body (parts, json) (mk_World g (h ++ [d]) tr)
      = (mk_World (foldl with_driver g names)
           (h ++ [shared_driver_tags names d]) tr,
         Ok (parts',
             json ++ zip_with (participant_record (length h) t)
                       (take n (drop i parts)) names)).
Proof.
  intros Hbody n. induction n as [|n IH];
    intros i parts json g d names HF Hlen.
  - destruct names; [|done]. exists parts. simpl. by rewrite app_nil_r.
  - destruct names as [|nm names]; [done|].
    destruct (drop i parts) as [|p rest] eqn:Ed; [by inversion HF|].
    apply drop_lookup_head in Ed as [Hp Hrest].
    simpl in HF. apply Forall2_cons in HF as [Hnm HF].
    set (parts1 := <[i := set_fields p (<["name" := VStr nm]>
                                          (ParticipantData.fields p))]> parts).
    destruct (IH (S i) parts1 (json ++ [participant_record (length h) t p nm])
                (with_driver g nm) (<["driver" := VStr nm]> d) names)
      as (parts2 & Hl).
    { unfold parts1. rewrite drop_insert_lt by lia. by rewrite <- Hrest. }
    { simpl in Hlen. lia. }
    exists parts2. cbn [seq]. rewrite for_cons.
    rewrite (Hbody i parts json g d p nm Hp Hnm). cbv iota.
    fold parts1. rewrite Hl. unfold parts1.
    rewrite drop_insert_lt by lia.
    rewrite <- Hrest, <- app_assoc, shared_driver_tags_cons. reflexivity.
Qed.

(** X10: once ready, the records of one PARTICIPANTS packet all hold one
    tag dictionary, whose driver entry the loop overwrites in every turn:
    the sink reads the name of the last active car as the driver tag of
    every record, while each record's fields carry its own name. *)
Theorem processParticipant_tags_shared
  (utf8_decode : list byte → option string)
  (packet : PacketParticipantsData_V1.t) (time : datetime) (w : World)
  (names : list string) :
  let k := PacketParticipantsData_V1.numActiveCars packet in
  let slots :=
    take (Z.to_nat k) (PacketParticipantsData_V1.participants packet) in
  let dic := shared_driver_tags names
               (header_dict (game w) (PacketParticipantsData_V1.header packet)) in
  let h' := heap w ++ [dic] in
  Ready w →
  is_Some (PacketParticipantsData_V1.fields packet !! "header") →
  Forall2 (λ p nm, utf8_decode (ParticipantData.name p) = Some nm)
    slots names →
  length names = Z.to_nat k →
  ∃ json,
    processParticipant utf8_decode packet time w
    = (mk_World (with_roster (open_gate (game w)) names) h' (trace w),
       Ok json)
    ∧ snapshot h' <$> json
      = zip_with (λ p nm,
                    mk_point "ParticipantData" dic (strftime time time_format)
                      (<["name" := VStr nm]> (ParticipantData.fields p)))
          slots names.
Proof.
  intros k slots dic h' Hready Hheader HF Hlen. unfold processParticipant.
  rewrite (bind_Ok _ _ _ _ _ (IsInitialized_Ready w Hready)).
  cbn [negb]. cbv iota.
  rewrite (bind_Ok _ _ _ _ _ (header_tags_exact _ _)).
  cbn [game heap trace].
  rewrite (dict_del_Ok _ _ Hheader), lift_Ok. cbv beta.
  unfold mbind at 1, M_bind, bind.
  match goal with
  | |- context [set_drivers [] ?w0] =>
      change (set_drivers [] w0)
        with (mk_World (with_roster (game w0) []) (heap w0) (trace w0), Ok tt)
  end.
  cbv iota. cbn [game heap trace].
  match goal with
  | |- context [mbind _ (for_ _ ?body ?s) ?w0] =>
      assert (Hbody : ∀ i parts json g d p nm,
                parts !! i = Some p →
                utf8_decode (ParticipantData.name p) = Some nm →
                body (parts, json) i (mk_World g (heap w ++ [d]) (trace w))
                = (mk_World (with_driver g nm)
                     (heap w ++ [<["driver" := VStr nm]> d]) (trace w),
                   Ok (<[i := set_fields p (<["name" := VStr nm]>
                                              (ParticipantData.fields p))]> parts,
                       json ++ [participant_record (length (heap w))
                                  (strftime time time_format) p nm])));
      [|destruct (participant_loop_exact utf8_decode _ _ _ body Hbody
                   (Z.to_nat k) 0%nat
                   (PacketParticipantsData_V1.participants packet) []
                   (with_roster (open_gate (game w)) [])
                   (header_dict (game w)
                      (PacketParticipantsData_V1.header packet))
                   names HF Hlen)
          as (parts' & Hloop)]
  end.
  - intros i parts json g d p nm Hp Hnm. unfold getitem, decode.
    rewrite Hp, lift_Ok. cbv beta. rewrite Hnm, lift_Ok. cbv beta.
    unfold mbind at 1, M_bind, bind.
    change (drivers_append nm ?w0)
      with (mk_World (with_driver (game w0) nm) (heap w0) (trace w0), Ok tt).
    cbv iota. unfold mbind at 1, M_bind, bind.
    cbn [game heap trace]. rewrite setitem_last. cbv iota.
    rewrite lift_Ok. cbv beta.
    rewrite list_lookup_insert_eq by (by eapply lookup_lt_Some).
    rewrite lift_Ok. reflexivity.
  - fold k. fold dic in Hloop. rewrite (bind_Ok _ _ _ _ _ Hloop).
    rewrite foldl_with_driver. cbn [drivers sessionID sessionIDBrut init
      with_roster open_gate app]. cbv iota beta.
    eexists. split; [reflexivity|].
    fold slots. apply list_eq. intros j.
    rewrite list_lookup_fmap, !lookup_zip_with.
    change (take (Z.to_nat k) (drop 0 _)) with slots.
    destruct (slots !! j) as [p|]; [|done]. simpl.
    destruct (names !! j) as [nm|]; [|done]. simpl.
    unfold participant_record, h'. by rewrite snapshot_last.
Qed.

Lemma processParticipant_tags_shared_witness :
  let packet := sample_participants 2 in
  let w := sample_ready in
  let slots := take 2 (PacketParticipantsData_V1.participants packet) in
  let dic := shared_driver_tags sample_names
               (header_dict (game w) (sample_header 4 77)) in
  let h' := heap w ++ [dic] in
  ∃ json,
    processParticipant decode_ascii packet sample_time w
    = (mk_World (with_roster (open_gate (game w)) sample_names) h' (trace w),
       Ok json)
    ∧ snapshot h' <$> json
      = zip_with (λ p nm,
                    mk_point "ParticipantData" dic
                      (strftime sample_time time_format)
                      (<["name" := VStr nm]> (ParticipantData.fields p)))
          slots sample_names.
Proof.
  apply (processParticipant_tags_shared decode_ascii (sample_participants 2)
           sample_time sample_ready sample_names).
  - vm_compute. reflexivity.
  - by eexists.
  - repeat constructor.
  - reflexivity.
Defined.

(** ** Session identity when the track is unknown *)

(** X11: a SESSION packet of a new session whose track id is not in the
    table fails with [KeyError] after the raw session id was stored. The
    identity keeps its old value, and as the raw id now matches, every
    later packet of that session leaves it there: the identity is never
    computed for this session. *)
Theorem unknown_track_keeps_identity TrackIDs
  (p p' : PacketSessionData_V1.t) (t t' : datetime) (w : World) :
  let uid := PacketHeader.sessionUID (PacketSessionData_V1.header p) in
  let w' := mk_World (mk_Game (drivers (game w)) (sessionID (game w))
                        (Some uid) (init (game w))) (heap w) (trace w) in
  sessionIDBrut (game w) ≠ Some uid →
  TrackIDs !! PacketSessionData_V1.trackId p = None →
  PacketHeader.sessionUID (PacketSessionData_V1.header p') = uid →
  processSession TrackIDs p t w = (w', Raise KeyError)
  ∧ mySessionId TrackIDs p' t' w' = (w', Ok (sessionID (game w))).
Proof.
  destruct w as [[ds sid brut i] h tr]. simpl. intros Hne Htrack Huid. split.
  - unfold processSession, mySessionId. mrun.
    rewrite bool_decide_eq_true_2 by congruence. mrun.
    rewrite Htrack. by mrun.
  - unfold mySessionId. mrun. rewrite Huid.
    rewrite bool_decide_eq_false_2 by (intros H; by apply H). by mrun.
Qed.

Lemma unknown_track_keeps_identity_witness :
  let p := PacketSessionData_V1.mk (sample_header 1 78) 99 0 [] ∅ in
  let p' := sample_session 78 in
  let w := sample_ready in
  let w' := mk_World (mk_Game (drivers (game w)) (sessionID (game w))
                        (Some 78) (init (game w))) (heap w) (trace w) in
  processSession sample_tracks p sample_time w = (w', Raise KeyError)
  ∧ mySessionId sample_tracks p' sample_time w'
    = (w', Ok (sessionID (game w))).
Proof.
  apply (unknown_track_keeps_identity sample_tracks
           (PacketSessionData_V1.mk (sample_header 1 78) 99 0 [] ∅)
           (sample_session 78) sample_time sample_time sample_ready).
  - vm_compute. discriminate.
  - reflexivity.
  - reflexivity.
Defined.

(** ** A call writes only to the dictionaries it allocates *)

Section Confined.

Context (n : nat).

Lemma confined_ret {A} (a : A) : confined n (mret a).
Proof. by intros w Hw. Qed.

Lemma confined_lift {A} (r : result A) : confined n (lift r).
Proof. by intros w Hw. Qed.

Lemma confined_get_self : confined n get_self.
Proof. by intros w Hw. Qed.

Lemma confined_set_self g : confined n (set_self g).
Proof. by intros w Hw. Qed.

Lemma confined_bind {A B} (m : M A) (k : A → M B) :
  confined n m → (∀ a, confined n (k a)) → confined n (m ≫= k).
Proof.
  intros Hm Hk w Hw. unfold mbind, M_bind, bind.
  destruct (Hm w Hw) as (H1 & H2 & H3).
  destruct (m w) as [w' [a|e]]; simpl in *; [|done].
  destruct (Hk a w' H2) as (K1 & K2 & K3).
  split; [congruence|]. split; [done|congruence].
Qed.

Lemma confined_for {A St} (l : list A) (body : St → A → M St) s :
  (∀ s x, confined n (body s x)) → confined n (for_ l body s).
Proof.
  intros Hb. revert s. induction l as [|x l IH]; intros s; simpl.
  - apply confined_ret.
  - apply confined_bind; auto.
Qed.

Lemma confined_setitem l k v : (n ≤ l)%nat → confined n (setitem l k v).
Proof.
  intros Hl w Hw. unfold setitem. simpl.
  rewrite take_insert_ge, length_insert by done. done.
Qed.

(** The address of a new dictionary is beyond the first [n]. *)
Lemma confined_new_dict {B} (k : loc → M B) :
  (∀ l, (n ≤ l)%nat → confined n (k l)) → confined n (new_dict ≫= k).
Proof.
  intros Hk w Hw. unfold mbind, M_bind, bind, new_dict.
  destruct (Hk (length (heap w)) Hw
              (mk_World (game w) (heap w ++ [∅]) (trace w)))
    as (K1 & K2 & K3); [simpl; rewrite length_app; lia|].
  simpl in *. rewrite take_app_le in K1 by done. done.
Qed.

Lemma confined_header_tags {B} hd (k : loc → M B) :
  (∀ l, (n ≤ l)%nat → confined n (k l)) → confined n (header_tags hd ≫= k).
Proof.
  intros Hk w Hw. rewrite (bind_Ok _ _ _ _ _ (header_tags_exact hd w)).
  destruct (Hk (length (heap w)) Hw
              (mk_World (game w) (heap w ++ [header_dict (game w) hd])
                 (trace w)))
    as (K1 & K2 & K3); [simpl; rewrite length_app; lia|].
  simpl in *. rewrite take_app_le in K1 by done. done.
Qed.

Lemma confined_driver_tags {B} hd driver (k : loc → M B) :
  (∀ l, (n ≤ l)%nat → confined n (k l)) →
  confined n (driver_tags hd driver ≫= k).
Proof.
  intros Hk w Hw. rewrite (bind_Ok _ _ _ _ _ (driver_tags_exact hd driver w)).
  destruct (Hk (length (heap w)) Hw
              (mk_World (game w) (heap w ++ [driver_dict (game w) hd driver])
                 (trace w)))
    as (K1 & K2 & K3); [simpl; rewrite length_app; lia|].
  simpl in *. rewrite take_app_le in K1 by done. done.
Qed.

Lemma confined_set_init b : confined n (set_init b).
Proof. by intros w Hw. Qed.

Lemma confined_set_drivers l : confined n (set_drivers l).
Proof. by intros w Hw. Qed.

Lemma confined_set_sessionID s : confined n (set_sessionID s).
Proof. by intros w Hw. Qed.

Lemma confined_set_sessionIDBrut u : confined n (set_sessionIDBrut u).
Proof. by intros w Hw. Qed.

Lemma confined_drivers_append x : confined n (drivers_append x).
Proof. by intros w Hw. Qed.

Lemma confined_IsInitialized : confined n IsInitialized.
Proof.
  intros [[ds sid brut i] h tr] Hw. unfold IsInitialized. by destruct i.
Qed.

End Confined.

Create HintDb confined.

#[local] Hint Resolve confined_ret confined_lift confined_get_self
  confined_set_self confined_set_init confined_set_drivers
  confined_set_sessionID confined_set_sessionIDBrut confined_drivers_append
  confined_IsInitialized : confined.

Ltac confined_step :=
  first
    [ solve [auto with confined]
    | apply confined_setitem; assumption
    | match goal with
      | |- confined _ (if ?b then _ else _) => destruct b
      | |- confined _ (match ?x with (_, _) => _ end) => destruct x
      | |- confined _ ((let '(_, _) := ?x in _) _) => destruct x
      end
    | apply confined_for; intros
    | match goal with
      | |- confined _ (mbind _ (header_tags _)) =>
          apply confined_header_tags; intros
      | |- confined _ (mbind _ (driver_tags _ _)) =>
          apply confined_driver_tags; intros
      | |- confined _ (mbind _ new_dict) => apply confined_new_dict; intros
      end
    | apply confined_bind; [|intros] ].

Ltac confines := repeat confined_step.

Lemma confined_feed utf8_decode TrackIDs n p t :
  confined n (feed utf8_decode TrackIDs p t).
Proof.
  destruct p; unfold feed;
    unfold processMotion, processSession, processLap, processEvent,
      processParticipant, processCarSetup, processCarTelemetry,
      processCarStatus, mySessionId;
    confines.
Qed.

Lemma confined_feed_all utf8_decode TrackIDs n ps :
  confined n (feed_all utf8_decode TrackIDs ps).
Proof.
  induction ps as [|[p t] ps IH]; simpl.
  - apply confined_ret.
  - apply confined_bind; [apply confined_feed|intros out].
    apply confined_bind; [apply IH|intros outs]. apply confined_ret.
Qed.

(** X12: whatever the packets, the tracker calls never log, and they
    leave every dictionary that was in the store before as it is: they
    only add dictionaries. *)
Theorem feed_all_confined utf8_decode TrackIDs
  (ps : list (Packet * datetime)) (w : World) :
  ∃ ext,
    heap (feed_all utf8_decode TrackIDs ps w).1 = heap w ++ ext
    ∧ trace (feed_all utf8_decode TrackIDs ps w).1 = trace w.
Proof.
  destruct (confined_feed_all utf8_decode TrackIDs (length (heap w)) ps w)
    as (H1 & H2 & H3); [done|].
  exists (drop (length (heap w)) (heap (feed_all utf8_decode TrackIDs ps w).1)).
  split; [|done].
  rewrite <- (take_drop (length (heap w))
                (heap (feed_all utf8_decode TrackIDs ps w).1)) at 1.
  by rewrite H1, firstn_all.
Qed.

(** ** The records of a call point into the store *)

Lemma for_inv {A St} (I : World → St → Prop) (body : St → A → M St) :
  (∀ s x w w' s', I w s → body s x w = (w', Ok s') → I w' s') →
  ∀ l s w w' s', I w s → for_ l body s w = (w', Ok s') → I w' s'.
Proof.
  intros Hb l. induction l as [|x l IH]; intros s w w' s' HI; simpl.
  - by intros [= <- <-].
  - unfold mbind, M_bind, bind.
    destruct (body s x w) as [w1 [s1|e]] eqn:E; [|done].
    apply IH. by eapply Hb.
Qed.

Lemma tags_in_snoc (h : list dict) d json name t f :
  tags_in h json →
  tags_in (h ++ [d]) (json ++ [mk_point name (length h) t f]).
Proof.
  intros H. apply Forall_app. split.
  - eapply Forall_impl; [exact H|]. simpl. intros r Hr.
    rewrite length_app. simpl. lia.
  - apply Forall_singleton. simpl. rewrite length_app. simpl. lia.
Qed.

Lemma tags_in_grow (h : list dict) d json :
  tags_in h json → tags_in (h ++ [d]) json.
Proof.
  intros H. eapply Forall_impl; [exact H|]. simpl. intros r Hr.
  rewrite length_app. simpl. lia.
Qed.

(** Step through the fallible statements of a loop body. *)
Ltac lift_steps :=
  repeat match goal with
  | |- (lift ?r ≫= _) _ = _ → _ =>
      destruct r; [rewrite lift_Ok; cbv beta|rewrite lift_Raise; intros [=]]
  end.

(** One of the five per-driver methods: the gate, then a loop whose every
    turn allocates the tags of the record it appends. *)
Ltac per_driver_tags_in :=
  let w := fresh "w" in let w' := fresh "w'" in let json := fresh "json" in
  intros w w' json;
  unfold mbind at 1, M_bind, bind;
  destruct (IsInitialized w) as [w0 [[]|e]]; cbn [negb]; cbv iota;
    [|intros [= <- <-]; apply Forall_nil_2|done];
  unfold mbind at 1, M_bind, bind; cbn [get_self]; cbv iota;
  unfold mbind at 1, M_bind, bind;
  match goal with
  | |- context [for_ ?ds ?body ?s0 ?w1] =>
      let E := fresh "E" in
      destruct (for_ ds body s0 w1) as [w2 [[i out]|e]] eqn:E; [|done];
      intros [= <- <-];
      apply (for_inv (λ u (st : nat * list (point loc)),
                        tags_in (heap u) st.2)
               body) in E; [exact E| |apply Forall_nil_2]
  end;
  clear; intros [i json] driver w w' s' HI; simpl in HI;
  rewrite (bind_Ok _ _ _ _ _ (driver_tags_exact _ driver w));
  lift_steps; intros [= <- <-]; simpl; by apply tags_in_snoc.

Lemma processLap_tags_in p t w w' json :
  processLap p t w = (w', Ok json) → tags_in (heap w') json.
Proof. revert w w' json. unfold processLap. per_driver_tags_in. Qed.

Lemma processCarSetup_tags_in p t w w' json :
  processCarSetup p t w = (w', Ok json) → tags_in (heap w') json.
Proof. revert w w' json. unfold processCarSetup. per_driver_tags_in. Qed.

Lemma processCarTelemetry_tags_in p t w w' json :
  processCarTelemetry p t w = (w', Ok json) → tags_in (heap w') json.
Proof. revert w w' json. unfold processCarTelemetry. per_driver_tags_in. Qed.

Lemma processCarStatus_tags_in p t w w' json :
  processCarStatus p t w = (w', Ok json) → tags_in (heap w') json.
Proof. revert w w' json. unfold processCarStatus. per_driver_tags_in. Qed.

Lemma processMotion_tags_in p t w w' json :
  processMotion p t w = (w', Ok json) → tags_in (heap w') json.
Proof.
  unfold processMotion. unfold mbind at 1, M_bind, bind.
  destruct (IsInitialized w) as [w0 [[]|e]]; cbn [negb]; cbv iota;
    [|intros [= <- <-]; apply Forall_nil_2|done].
  unfold mbind at 1, M_bind, bind. cbn [get_self]. cbv iota.
  unfold mbind at 1, M_bind, bind.
  match goal with
  | |- context [for_ ?ds ?body ?s0 ?w1] =>
      destruct (for_ ds body s0 w1) as [w2 [[i out]|e]] eqn:E; [|done];
      apply (for_inv (λ u (st : nat * list (point loc)),
                        tags_in (heap u) st.2)
               body) in E; [| |apply Forall_nil_2]
  end.
  - simpl in E. rewrite (bind_Ok _ _ _ _ _ (header_tags_exact _ w2)).
    lift_steps. intros [= <- <-]. simpl. by apply tags_in_snoc.
  - clear. intros [i json] driver w w' s' HI; simpl in HI.
    rewrite (bind_Ok _ _ _ _ _ (driver_tags_exact _ driver w)).
    lift_steps. intros [= <- <-]. simpl. by apply tags_in_snoc.
Qed.

Lemma processEvent_tags_in u p t w w' json :
  processEvent u p t w = (w', Ok json) → tags_in (heap w') json.
Proof.
  unfold processEvent. unfold mbind at 1, M_bind, bind.
  destruct (IsInitialized w) as [w0 [[]|e]]; cbn [negb]; cbv iota;
    [|intros [= <- <-]; apply Forall_nil_2|done].
  rewrite (bind_Ok _ _ _ _ _ (header_tags_exact _ w0)).
  lift_steps. intros [= <- <-]. simpl.
  apply (tags_in_snoc _ _ []). apply Forall_nil_2.
Qed.

Lemma tags_in_insert (h : list dict) l d json :
  tags_in h json → tags_in (<[l := d]> h) json.
Proof. unfold tags_in. by rewrite length_insert. Qed.

Lemma processSession_tags_in T p t w w' json :
  processSession T p t w = (w', Ok json) → tags_in (heap w') json.
Proof.
  unfold processSession. unfold mbind at 1, M_bind, bind.
  destruct (mySessionId T p t w) as [w1 [sid|e]]; [|done].
  rewrite (bind_Ok _ _ _ _ _ (set_sessionID_run sid w1)).
  unfold mbind at 1, M_bind, bind.
  destruct (IsInitialized _) as [w0 [[]|e]]; cbn [negb]; cbv iota;
    [|intros [= <- <-]; apply Forall_nil_2|done].
  rewrite (bind_Ok _ _ _ _ _ (header_tags_exact _ w0)).
  unfold mbind at 1, M_bind, bind.
  match goal with
  | |- context [for_ ?ds ?body ?s0 ?w1] =>
      destruct (for_ ds body s0 w1) as [w2 [[i out]|e]] eqn:E; [|done];
      apply (for_inv (λ u (st : nat * list (point loc)),
                        (length (heap w0) < length (heap u))%nat
                        ∧ tags_in (heap u) st.2)
               body) in E
  end.
  - destruct E as [_ E]. simpl in E.
    rewrite (bind_Ok _ _ _ _ _ (header_tags_exact _ w2)).
    lift_steps. intros [= <- <-]. simpl. by apply tags_in_snoc.
  - clear. intros [i json] mz u u' s' [Hdic HI]; simpl in HI.
    unfold mbind, M_bind, bind, setitem. cbn [mret M_ret ret].
    intros [= <- <-]. cbn [heap snd]. rewrite length_insert.
    split; [done|]. apply Forall_app. split; [by apply tags_in_insert|].
    apply Forall_singleton. simpl. by rewrite length_insert.
  - simpl. rewrite length_app. simpl. split; [lia|apply Forall_nil_2].
Qed.

Lemma processParticipant_tags_in u p t w w' json :
  processParticipant u p t w = (w', Ok json) → tags_in (heap w') json.
Proof.
  unfold processParticipant. unfold mbind at 1, M_bind, bind.
  destruct (IsInitialized w) as [w0 [[]|e]]; cbn [negb]; cbv iota; [| |done].
  - rewrite (bind_Ok _ _ _ _ _ (header_tags_exact _ w0)).
    lift_steps.
    unfold mbind at 1, M_bind, bind.
    match goal with
    | |- context [set_drivers [] ?w1] =>
        change (set_drivers [] w1)
          with (mk_World (with_roster (game w1) []) (heap w1) (trace w1),
                Ok tt)
    end.
    cbv iota. cbn [game heap trace].
    unfold mbind at 1, M_bind, bind.
    match goal with
    | |- context [for_ ?ds ?body ?s0 ?w1] =>
        destruct (for_ ds body s0 w1) as [w2 [[parts out]|e]] eqn:E; [|done];
        apply (for_inv (λ v (st : list ParticipantData.t * list (point loc)),
                          (length (heap w0) < length (heap v))%nat
                          ∧ tags_in (heap v) st.2)
                 body) in E
    end.
    + destruct E as [_ E]. simpl in E. by intros [= <- <-].
    + clear. intros [parts json] i v v' s' [Hdic HI]; simpl in HI.
      lift_steps.
      unfold mbind at 1, M_bind, bind.
      match goal with
      | |- context [drivers_append ?x ?w1] =>
          change (drivers_append x w1)
            with (mk_World (with_driver (game w1) x) (heap w1) (trace w1),
                  Ok tt)
      end.
      cbv iota. unfold mbind at 1, M_bind, bind.
      unfold setitem at 1. cbn [game heap trace]. cbv iota.
      lift_steps. intros [= <- <-]. cbn [heap snd].
      rewrite length_insert. split; [done|].
      apply Forall_app. split; [by apply tags_in_insert|].
      apply Forall_singleton. simpl. by rewrite length_insert.
    + simpl. rewrite length_app. simpl. split; [lia|apply Forall_nil_2].
  - unfold mbind at 1, M_bind, bind.
    change (set_drivers [] w0)
      with (mk_World (with_roster (game w0) []) (heap w0) (trace w0), Ok tt).
    cbv iota. unfold mbind at 1, M_bind, bind.
    destruct (for_ _ _ _ _) as [w2 [[]|e]]; [|done].
    intros [= <- <-]. apply Forall_nil_2.
Qed.

Lemma feed_tags_in utf8_decode TrackIDs p t w w' json :
  feed utf8_decode TrackIDs p t w = (w', Ok json) → tags_in (heap w') json.
Proof.
  destruct p; simpl.
  - apply processMotion_tags_in.
  - apply processSession_tags_in.
  - apply processLap_tags_in.
  - apply processEvent_tags_in.
  - apply processParticipant_tags_in.
  - apply processCarSetup_tags_in.
  - apply processCarTelemetry_tags_in.
  - apply processCarStatus_tags_in.
Qed.

(** X13: every record a call returns points to a dictionary of the store,
    and what the sink reads of it does not depend on the calls made
    between the return and the write: sharing of tag dictionaries is
    confined to the records of one call. *)
Theorem later_calls_keep_records utf8_decode TrackIDs (p : Packet)
  (t : datetime) (ps : list (Packet * datetime)) (w w1 : World) json :
  feed utf8_decode TrackIDs p t w = (w1, Ok json) →
  tags_in (heap w1) json
  ∧ snapshot (heap (feed_all utf8_decode TrackIDs ps w1).1) <$> json
    = snapshot (heap w1) <$> json.
Proof.
  intros Hfeed. pose proof (feed_tags_in _ _ _ _ _ _ _ Hfeed) as Hin.
  split; [done|].
  destruct (confined_feed_all utf8_decode TrackIDs (length (heap w1)) ps w1)
    as (H1 & _ & _); [done|].
  rewrite firstn_all in H1.
  apply list_fmap_ext. intros i r Hr. unfold snapshot, deref. f_equal.
  assert (Hlt : (tags r < length (heap w1))%nat).
  { unfold tags_in in Hin. rewrite Forall_lookup in Hin. by eapply Hin. }
  rewrite <- H1 at 1. by rewrite lookup_take_lt.
Qed.

Lemma later_calls_keep_records_witness :
  let w := sample_ready in
  let w1 := (processLap (sample_lap 1) sample_time w).1 in
  let json := match (processLap (sample_lap 1) sample_time w).2 with
              | Ok json => json | Raise _ => [] end in
  let ps := [(Session (sample_session 77), sample_time);
             (Participants (sample_participants 2), sample_time)] in
  tags_in (heap w1) json
  ∧ snapshot (heap (feed_all decode_ascii sample_tracks ps w1).1) <$> json
    = snapshot (heap w1) <$> json.
Proof.
  apply (later_calls_keep_records decode_ascii sample_tracks
           (Lap (sample_lap 1)) sample_time
           [(Session (sample_session 77), sample_time);
            (Participants (sample_participants 2), sample_time)]
           sample_ready).
  vm_compute. reflexivity.
Defined.

(** ** Which packets write which attribute *)

Lemma IsInitialized_keeps_roster ds : preserves (roster_is ds) IsInitialized.
Proof. intros [[ds0 sid brut i] h tr] H. by destruct i. Qed.

Lemma IsInitialized_keeps_identity sid brut :
  preserves (identity_is sid brut) IsInitialized.
Proof. intros [[ds0 sid0 brut0 i] h tr] H. by destruct i. Qed.

#[local] Hint Resolve IsInitialized_keeps_roster IsInitialized_keeps_identity
  : keeps.

(** X14: the roster is written by PARTICIPANTS packets only: a call for a
    packet of any other type, failing or not, leaves it as it is. *)
Theorem roster_written_by_participants utf8_decode TrackIDs (p : Packet)
  (t : datetime) (w : World) :
  (∀ q, p ≠ Participants q) →
  drivers (game (feed utf8_decode TrackIDs p t w).1) = drivers (game w).
Proof.
  intros Hp.
  assert (H : preserves (roster_is (drivers (game w)))
                (feed utf8_decode TrackIDs p t)).
  { destruct p; simpl; unfold_methods; try solve [keeps].
    by destruct (Hp p). }
  by apply H.
Qed.

Lemma roster_written_by_participants_witness :
  drivers (game (feed decode_ascii sample_tracks (Session (sample_session 78))
                   sample_time sample_ready).1)
  = drivers (game sample_ready).
Proof.
  apply (roster_written_by_participants decode_ascii sample_tracks
           (Session (sample_session 78)) sample_time sample_ready).
  intros q. discriminate.
Defined.

(** X15: the session identity and the raw session id are written by
    SESSION packets only. *)
Theorem identity_written_by_session utf8_decode TrackIDs (p : Packet)
  (t : datetime) (w : World) :
  (∀ q, p ≠ Session q) →
  let g' := game (feed utf8_decode TrackIDs p t w).1 in
  sessionID g' = sessionID (game w)
  ∧ sessionIDBrut g' = sessionIDBrut (game w).
Proof.
  intros Hp.
  assert (H : preserves (identity_is (sessionID (game w))
                           (sessionIDBrut (game w)))
                (feed utf8_decode TrackIDs p t)).
  { destruct p; simpl; unfold_methods; try solve [keeps].
    by destruct (Hp p). }
  by apply H.
Qed.

Lemma identity_written_by_session_witness :
  let g' := game (feed decode_ascii sample_tracks
                    (Participants (sample_participants 1)) sample_time
                    sample_ready).1 in
  sessionID g' = sessionID (game sample_ready)
  ∧ sessionIDBrut g' = sessionIDBrut (game sample_ready).
Proof.
  apply (identity_written_by_session decode_ascii sample_tracks
           (Participants (sample_participants 1)) sample_time sample_ready).
  intros q. discriminate.
Defined.

(** * Further properties of the flush pipeline *)

Section Pipeline.

Variable utf8_decode : list byte → option string.
Variable TrackIDs : gmap Z string.
Variable packet_type : Type.
Variable sizeof_PacketHeader : nat.
Variable PacketHeader_from_buffer_copy : list byte → PacketHeader.t.
Variable HeaderFieldsToPacketType : Z * Z * Z → option packet_type.
Variable sizeof : packet_type → nat.
Variable unpack_udp_packet : list byte → Packet.

#[local] Abbreviation dispatch_ := (dispatch utf8_decode TrackIDs).
#[local] Abbreviation process_one_ :=
  (process_one utf8_decode TrackIDs packet_type sizeof_PacketHeader
     PacketHeader_from_buffer_copy HeaderFieldsToPacketType sizeof
     unpack_udp_packet).
#[local] Abbreviation process_incoming_packets_ :=
  (process_incoming_packets utf8_decode TrackIDs packet_type
     sizeof_PacketHeader PacketHeader_from_buffer_copy
     HeaderFieldsToPacketType sizeof unpack_udp_packet).
#[local] Abbreviation run_iteration_ :=
  (run_iteration utf8_decode TrackIDs packet_type
     sizeof_PacketHeader PacketHeader_from_buffer_copy
     HeaderFieldsToPacketType sizeof unpack_udp_packet).
#[local] Abbreviation run_loop_ :=
  (run_loop utf8_decode TrackIDs packet_type
     sizeof_PacketHeader PacketHeader_from_buffer_copy
     HeaderFieldsToPacketType sizeof unpack_udp_packet).
#[local] Abbreviation returned_ :=
  (returned utf8_decode TrackIDs packet_type
     sizeof_PacketHeader PacketHeader_from_buffer_copy
     HeaderFieldsToPacketType sizeof unpack_udp_packet).

(** X16: a datagram as long as a header whose (format, version, id) is not
    in the table, or whose length is not the size of its packet class, is
    dropped with one logged rejection: no tracker call, no stored batch,
    tracker and store as they were. *)
Theorem rejected_datagram_dropped (tp : TimestampedPacket) jm (w : World) :
  let header := PacketHeader_from_buffer_copy (packet tp) in
  let key := (PacketHeader.packetFormat header,
              PacketHeader.packetVersion header,
              PacketHeader.packetId header) in
  (sizeof_PacketHeader ≤ length (packet tp))%nat →
  (HeaderFieldsToPacketType key = None →
   process_one_ jm tp w
   = (mk_World (game w) (heap w) (trace w ++ [log_error_unrecognized key]),
      Ok jm))
  ∧ (∀ ty, HeaderFieldsToPacketType key = Some ty →
       length (packet tp) ≠ sizeof ty →
       process_one_ jm tp w
       = (mk_World (game w) (heap w)
            (trace w ++ [log_error_unexpected_size key (length (packet tp))
                           (sizeof ty)]),
          Ok jm)).
Proof.
  intros header key Hlen. unfold process_one, classify.
  rewrite bool_decide_eq_false_2 by lia. fold header. fold key. split.
  - intros ->. reflexivity.
  - intros ty -> Hne. by rewrite bool_decide_eq_true_2.
Qed.

(** X17: a datagram that passes the three checks but whose packet id is
    none of the eight ids of the [if]/[elif] chain is skipped without any
    trace: nothing is logged, called or stored. *)
Theorem unknown_id_skipped_silently (tp : TimestampedPacket) jm (w : World)
  ty :
  let header := PacketHeader_from_buffer_copy (packet tp) in
  let key := (PacketHeader.packetFormat header,
              PacketHeader.packetVersion header,
              PacketHeader.packetId header) in
  (sizeof_PacketHeader ≤ length (packet tp))%nat →
  HeaderFieldsToPacketType key = Some ty →
  length (packet tp) = sizeof ty →
  PacketHeader.packetId header < 0 ∨ 7 < PacketHeader.packetId header →
  process_one_ jm tp w = (w, Ok jm).
Proof.
  intros header key Hlen Hty Hsize Hid. unfold process_one, classify.
  rewrite bool_decide_eq_false_2 by lia. fold header. fold key.
  rewrite Hty. rewrite bool_decide_eq_false_2 by (intros H; by apply H).
  unfold dispatch, PacketID.MOTION, PacketID.SESSION, PacketID.LAP_DATA,
    PacketID.EVENT, PacketID.PARTICIPANTS, PacketID.CAR_SETUPS,
    PacketID.CAR_STATUS, PacketID.CAR_TELEMETRY.
  repeat (rewrite decide_False by lia). reflexivity.
Qed.

(** ** A failing tracker call *)

Ltac confined_method :=
  lazymatch goal with
  | |- confined _ (lift _) => apply confined_lift
  | |- confined ?n (processMotion ?p ?t) =>
      exact (confined_feed utf8_decode TrackIDs n (Motion p) t)
  | |- confined ?n (processSession ?T ?p ?t) =>
      exact (confined_feed utf8_decode T n (Session p) t)
  | |- confined ?n (processLap ?p ?t) =>
      exact (confined_feed utf8_decode TrackIDs n (Lap p) t)
  | |- confined ?n (processEvent ?d ?p ?t) =>
      exact (confined_feed d TrackIDs n (Event p) t)
  | |- confined ?n (processParticipant ?d ?p ?t) =>
      exact (confined_feed d TrackIDs n (Participants p) t)
  | |- confined ?n (processCarSetup ?p ?t) =>
      exact (confined_feed utf8_decode TrackIDs n (CarSetups p) t)
  | |- confined ?n (processCarTelemetry ?p ?t) =>
      exact (confined_feed utf8_decode TrackIDs n (CarTelemetry p) t)
  | |- confined ?n (processCarStatus ?p ?t) =>
      exact (confined_feed utf8_decode TrackIDs n (CarStatus p) t)
  end.

Lemma confined_dispatch n id unpacket ts key call :
  dispatch_ id unpacket ts = Some (key, call) → confined n call.
Proof.
  unfold dispatch. intros H.
  repeat (destruct (decide _) in H;
          [ injection H as <- <-; destruct unpacket; confined_method | ]).
  discriminate H.
Qed.

Lemma classify_rejection pkt e :
  classify packet_type sizeof_PacketHeader PacketHeader_from_buffer_copy
    HeaderFieldsToPacketType sizeof unpack_udp_packet pkt = inl e →
  sink_calls [e] = [].
Proof.
  unfold classify. destruct (bool_decide _); [by intros [= <-]|].
  destruct (HeaderFieldsToPacketType _); [|by intros [= <-]].
  destruct (bool_decide _); [by intros [= <-]|done].
Qed.

Lemma sink_calls_app tr1 tr2 :
  sink_calls (tr1 ++ tr2) = sink_calls tr1 ++ sink_calls tr2.
Proof. apply omap_app. Qed.

(** A turn of the loop over the drained packets does not call the sink. *)
Lemma process_one_quiet jm tp w :
  sink_calls (trace (process_one_ jm tp w).1) = sink_calls (trace w).
Proof.
  rewrite process_one_unfold.
  destruct (classify _ _ _ _ _ _ _) as [rej|[header unpacket]] eqn:Ec.
  - cbn [fst trace]. rewrite sink_calls_app.
    rewrite (classify_rejection _ _ Ec). by rewrite app_nil_r.
  - destruct (dispatch _ _ _ _ _) as [[key call]|] eqn:E; [|done].
    destruct (confined_dispatch 0 _ _ _ _ _ E w) as (_ & _ & Ht);
      [lia|].
    destruct (call w) as [w' [v|e]]; simpl in *; by rewrite Ht.
Qed.

Lemma loop_quiet tps : ∀ jm w,
  sink_calls (trace (for_ tps process_one_ jm w).1) = sink_calls (trace w).
Proof.
  induction tps as [|tp tps IH]; intros jm w; [done|].
  rewrite for_cons. pose proof (process_one_quiet jm tp w) as H.
  destruct (process_one_ jm tp w) as [w' [jm'|e]]; simpl in H.
  - by rewrite IH.
  - done.
Qed.

(** X18: a flush is all or nothing towards the sink: when a tracker call
    of a drained set fails, the exception leaves
    [process_incoming_packets] before the first write, so the batches of
    the packets processed before the failure are not written either. *)
Theorem failed_flush_writes_nothing (tps : list TimestampedPacket)
  (w : World) e :
  (process_incoming_packets_ tps w).2 = Raise e →
  sink_calls (trace (process_incoming_packets_ tps w).1)
  = sink_calls (trace w).
Proof.
  unfold process_incoming_packets.
  pose proof (loop_quiet tps [] w) as Hq.
  destruct (for_ tps process_one_ [] w) as [w1 [jm|e1]] eqn:Eloop.
  - rewrite (bind_Ok _ _ _ _ _ Eloop).
    rewrite (bind_Ok _ _ _ _ _ (write_loop _ _ _)). done.
  - rewrite (bind_Raise _ _ _ _ _ Eloop). done.
Qed.

(** X19: nothing catches the exception of a failed flush: the loop of the
    recorder thread ends with it, and the wake-ups that would have
    followed do not take place. *)
Theorem failed_flush_ends_loop (tk : tick) (ticks : list tick)
  (timer : datetime) (w : World) e :
  drained tk ≠ [] →
  (process_incoming_packets_ (drained tk) w).2 = Raise e →
  run_loop_ (tk :: ticks) timer w
  = ((process_incoming_packets_ (drained tk) w).1, Raise e).
Proof.
  intros Hne Hfail.
  assert (Hit : run_iteration_ timer tk w
                = ((process_incoming_packets_ (drained tk) w).1, Raise e)).
  { unfold run_iteration.
    rewrite bool_decide_eq_true_2 by (by destruct (drained tk)).
    destruct (lookup_lt_is_Some_2 (drained tk) (length (drained tk) - 1))
      as [tp Htp]; [destruct (drained tk); [done|simpl; lia]|].
    unfold getitem. rewrite Htp, lift_Ok. cbv beta.
    unfold mbind, M_bind, bind.
    destruct (process_incoming_packets_ (drained tk) w) as [w1 [[]|e1]];
      simpl in *; congruence. }
  cbn [run_loop]. by rewrite (bind_Raise _ _ _ _ _ Hit).
Qed.

(** ** The batches of a flush *)

Lemma dispatch_key_in id unpacket ts key call :
  dispatch_ id unpacket ts = Some (key, call) → key ∈ batch_keys.
Proof.
  unfold dispatch, batch_keys. intros H. rewrite !elem_of_cons.
  repeat (destruct (decide _) in H;
          [ injection H as <- _; repeat (first [by left|right]) | ]).
  discriminate H.
Qed.

Lemma process_one_keys jm tp w w' jm' :
  NoDup jm.*1 ∧ (∀ x, x ∈ jm.*1 → x ∈ batch_keys) →
  process_one_ jm tp w = (w', Ok jm') →
  NoDup jm'.*1 ∧ (∀ x, x ∈ jm'.*1 → x ∈ batch_keys).
Proof.
  intros [Hnd Hin]. rewrite process_one_unfold.
  destruct (classify _ _ _ _ _ _ _) as [rej|[header unpacket]].
  { by intros [= _ <-]. }
  destruct (dispatch _ _ _ _ _) as [[key call]|] eqn:E;
    [|by intros [= _ <-]].
  apply dispatch_key_in in E.
  destruct (call w) as [w1 [v|e]]; [|done]. intros [= _ <-].
  split; [by apply assign_NoDup|].
  intros x. rewrite assign_keys.
  destruct (decide (key ∈ jm.*1)); [apply Hin|].
  rewrite elem_of_app, list_elem_of_singleton. intros [Hx| ->]; auto.
Qed.

Lemma sink_calls_writes (h : list dict) (jm : list (Z * list (point loc))) :
  sink_calls ((λ kv : Z * list (point loc),
                 write_points (snapshot h <$> kv.2)) <$> jm)
  = (λ kv : Z * list (point loc), snapshot h <$> kv.2) <$> jm.
Proof. induction jm as [|kv jm IH]; [done|]. csimpl. by rewrite IH. Qed.

(** X20: a flush calls the sink at most seven times, whatever the number
    of drained packets: once per key of [jsonMessages], and CAR_SETUPS
    has no key of its own. *)
Theorem flush_at_most_seven (tps : list TimestampedPacket) (w w' : World) :
  process_incoming_packets_ tps w = (w', Ok tt) →
  (length (sink_calls (trace w')) ≤ length (sink_calls (trace w)) + 7)%nat.
Proof.
  unfold process_incoming_packets.
  pose proof (loop_quiet tps [] w) as Hq.
  destruct (for_ tps process_one_ [] w) as [w1 [jm|e1]] eqn:Eloop;
    [|by rewrite (bind_Raise _ _ _ _ _ Eloop)].
  rewrite (bind_Ok _ _ _ _ _ Eloop).
  rewrite (bind_Ok _ _ _ _ _ (write_loop _ _ _)).
  unfold mbind, M_bind, bind, emit. cbn [game heap trace].
  intros [= <-]. cbn [trace]. simpl in Hq.
  rewrite <- !app_assoc, !sink_calls_app, sink_calls_writes, Hq.
  rewrite !length_app, length_fmap. simpl.
  assert (Hkeys : NoDup jm.*1 ∧ (∀ x, x ∈ jm.*1 → x ∈ batch_keys)).
  { apply (for_inv (λ _ jm, NoDup jm.*1 ∧ (∀ x, x ∈ jm.*1 → x ∈ batch_keys))
             process_one_) with (l := tps) (s := []) (w := w) (w' := w1).
    - intros s x u u' s' HI Hs. by eapply process_one_keys.
    - split; [apply NoDup_nil_2|]. intros x Hx. by apply elem_of_nil in Hx.
    - exact Eloop. }
  destruct Hkeys as [Hnd Hin].
  pose proof (submseteq_length _ _ (NoDup_submseteq _ _ Hnd Hin)) as Hlen.
  rewrite length_fmap in Hlen. unfold batch_keys in Hlen. simpl in Hlen. lia.
Qed.

Lemma items_get_store_all_key (k : Z) calls : ∀ jm,
  items_get k (store_all calls jm)
  = match last_returned k (by_key calls) with
    | Some v => Some v
    | None => items_get k jm
    end.
Proof.
  induction calls as [|[id v] calls IH]; intros jm; simpl; [done|].
  change (foldl _ ?j calls) with (store_all calls j). rewrite IH.
  change (list_fmap _ _ _ calls) with (by_key calls).
  destruct (last_returned k (by_key calls)); [done|].
  rewrite items_get_assign. by destruct (decide (key_of id = k)).
Qed.

Lemma last_returned_no_setups calls :
  last_returned PacketID.CAR_SETUPS (by_key calls) = None.
Proof.
  induction calls as [|[id v] calls IH]; simpl; [done|].
  change (list_fmap _ _ _ calls) with (by_key calls). rewrite IH.
  rewrite decide_False; [done|]. unfold key_of.
  destruct (decide (id = PacketID.CAR_SETUPS)); [done|done].
Qed.

(** X21: the results of CAR_SETUPS and CAR_STATUS packets are stored under
    the one key CAR_STATUS. A decoded CAR_SETUPS packet is handed to
    [processCarSetup] and a decoded CAR_STATUS packet to
    [processCarStatus], and what either call returns is assigned to
    [jsonMessages[PacketID.CAR_STATUS]]. So over a drained set no batch is
    stored under CAR_SETUPS, and the batch under CAR_STATUS is what the
    last packet of either type returned: in a drained set with both types
    the records of one of them do not reach the sink. *)
Theorem car_setups_share_status_batch :
  (∀ tp header p jm w,
     classify packet_type sizeof_PacketHeader PacketHeader_from_buffer_copy
       HeaderFieldsToPacketType sizeof unpack_udp_packet (packet tp)
     = inr (header, CarSetups p) →
     PacketHeader.packetId header = PacketID.CAR_SETUPS →
     process_one_ jm tp w
     = stored PacketID.CAR_STATUS jm (processCarSetup p (timestamp tp) w))
  ∧ (∀ tp header p jm w,
       classify packet_type sizeof_PacketHeader PacketHeader_from_buffer_copy
         HeaderFieldsToPacketType sizeof unpack_udp_packet (packet tp)
       = inr (header, CarStatus p) →
       PacketHeader.packetId header = PacketID.CAR_STATUS →
       process_one_ jm tp w
       = stored PacketID.CAR_STATUS jm (processCarStatus p (timestamp tp) w))
  ∧ (∀ tps w w1 calls,
       returned_ tps w = (w1, Ok calls) →
       ∃ jm,
         for_ tps process_one_ [] w = (w1, Ok jm)
         ∧ items_get PacketID.CAR_SETUPS jm = None
         ∧ items_get PacketID.CAR_STATUS jm
           = last_returned PacketID.CAR_STATUS (by_key calls)).
Proof.
  split; [|split].
  - intros tp header p jm w Hc Hid.
    rewrite process_one_unfold, Hc, Hid. reflexivity.
  - intros tp header p jm w Hc Hid.
    rewrite process_one_unfold, Hc, Hid. reflexivity.
  - intros tps w w1 calls H. exists (store_all calls []).
    split; [by apply loop_returned|].
    rewrite !items_get_store_all_key, last_returned_no_setups.
    split; [done|]. by destruct (last_returned _ _).
Qed.

(** ** The loop of the recorder thread *)


Lemma last_cons_default {A} (a c : A) cs :
  default a (last (c :: cs)) = default c (last cs).
Proof.
  destruct cs as [|c' cs]; [done|].
  change (last (c :: c' :: cs)) with (last (c' :: cs)).
  destruct (last (c' :: cs)) eqn:E; [done|]. by apply last_None in E.
Qed.

(** X23: over consecutive wake-ups that drain nothing, each reports the
    time since the wake-up before it (the first one since the inactivity
    timer), the timer ends at the last clock reading, and the reported
    ages add up to the time between the initial timer and that reading. *)
Theorem idle_ticks_telescope (ticks : list tick) (timer : datetime)
  (w : World) :
  let clocks := utcnow <$> ticks in
  let t_end := default timer (last clocks) in
  Forall (λ tk, drained tk = [] ∧ quit tk = false) ticks →
  run_loop_ ticks timer w
  = (mk_World (game w) (heap w)
       (trace w ++ (log_info_no_packets <$> idle_ages timer clocks)),
     Ok t_end)
  ∧ sum_Z (idle_ages timer clocks) = datetime_sub t_end timer.
Proof.
  intros clocks t_end Hidle. subst clocks t_end. revert timer w.
  induction Hidle as [|tk ticks [Hd Hq] Hidle IH]; intros timer w.
  - simpl. rewrite app_nil_r. destruct w. split; [done|].
    unfold datetime_sub. lia.
  - destruct (IH (utcnow tk)
                (mk_World (game w) (heap w)
                   (trace w ++ [log_info_no_packets
                                  (datetime_sub (utcnow tk) timer)])))
      as [Hrun Hsum].
    cbn [fmap list_fmap]. rewrite last_cons_default.
    cbn [idle_ages sum_Z foldr]. split.
    + cbn [run_loop]. unfold run_iteration. rewrite Hd, Hq.
      simpl bool_decide. cbv iota.
      unfold no_packets_received, mbind, M_bind, bind, emit.
      cbn [mret M_ret ret]. rewrite Hrun. cbn [game heap trace].
      by rewrite <- app_assoc.
    + fold (sum_Z (idle_ages (utcnow tk) (utcnow <$> ticks))).
      rewrite Hsum. unfold datetime_sub. lia.
Qed.

End Pipeline.

Lemma rejected_datagram_dropped_witness :
  let tp := mk_TimestampedPacket sample_time [x09; x00; x00] in
  let key := (2019, 1, 9) in
  (sample_table key = None →
   sample_process_one [] tp World_init
   = (mk_World Game_init [] [log_error_unrecognized key], Ok []))
  ∧ (∀ ty, sample_table key = Some ty →
       length (packet tp) ≠ ty →
       sample_process_one [] tp World_init
       = (mk_World Game_init []
            [log_error_unexpected_size key (length (packet tp)) ty],
          Ok [])).
Proof.
  apply (rejected_datagram_dropped decode_ascii sample_tracks nat 2%nat
           sample_from_buffer_copy sample_table (λ n, n) sample_unpack
           (mk_TimestampedPacket sample_time [x09; x00; x00]) [] World_init).
  simpl. lia.
Defined.

Lemma unknown_id_skipped_silently_witness :
  process_one decode_ascii sample_tracks nat 2%nat sample_from_buffer_copy
    (λ _, Some 3%nat) (λ n, n) sample_unpack []
    (mk_TimestampedPacket sample_time [x09; x00; x00]) World_init
  = (World_init, Ok []).
Proof.
  apply (unknown_id_skipped_silently decode_ascii sample_tracks nat 2%nat
           sample_from_buffer_copy (λ _, Some 3%nat) (λ n, n) sample_unpack
           (mk_TimestampedPacket sample_time [x09; x00; x00]) [] World_init
           3%nat).
  - simpl. lia.
  - reflexivity.
  - reflexivity.
  - right. vm_compute. reflexivity.
Defined.

Lemma failed_flush_writes_nothing_witness :
  sink_calls
    (trace (sample_process_incoming_packets sample_failing_drain
              World_init).1)
  = sink_calls (trace World_init).
Proof.
  apply (failed_flush_writes_nothing decode_ascii sample_tracks nat 2%nat
           sample_from_buffer_copy sample_table (λ n, n) sample_unpack
           sample_failing_drain World_init IndexError).
  vm_compute. reflexivity.
Defined.

Lemma failed_flush_ends_loop_witness :
  let t1 := mk_datetime 2019 9 7 14 5 10 0 in
  let t2 := mk_datetime 2019 9 7 14 5 11 0 in
  sample_run_loop [mk_tick sample_failing_drain t1 false;
                   mk_tick [] t2 false] sample_time World_init
  = ((sample_process_incoming_packets sample_failing_drain World_init).1,
     Raise IndexError).
Proof.
  apply (failed_flush_ends_loop decode_ascii sample_tracks nat 2%nat
           sample_from_buffer_copy sample_table (λ n, n) sample_unpack
           (mk_tick sample_failing_drain (mk_datetime 2019 9 7 14 5 10 0)
              false)
           [mk_tick [] (mk_datetime 2019 9 7 14 5 11 0) false]
           sample_time World_init IndexError).
  - discriminate.
  - vm_compute. reflexivity.
Defined.

Lemma flush_at_most_seven_witness :
  let tps := [sample_datagram x04 x02 9; sample_datagram x01 x4d 9;
              sample_datagram x02 x01 9; sample_datagram x02 x02 9] in
  let w' := (sample_process_incoming_packets tps World_init).1 in
  (length (sink_calls (trace w'))
   ≤ length (sink_calls (trace World_init)) + 7)%nat.
Proof.
  apply (flush_at_most_seven decode_ascii sample_tracks nat 2%nat
           sample_from_buffer_copy sample_table (λ n, n) sample_unpack
           [sample_datagram x04 x02 9; sample_datagram x01 x4d 9;
            sample_datagram x02 x01 9; sample_datagram x02 x02 9]
           World_init).
  vm_compute. reflexivity.
Defined.

Lemma car_setups_share_status_batch_witness :
  let process_one_cars :=
    process_one decode_ascii sample_tracks nat 2%nat
      sample_from_buffer_copy sample_table (λ n, n) sample_unpack_cars in
  let tps := [sample_datagram x04 x02 9; sample_datagram x01 x4d 9;
              sample_datagram x07 x00 9; sample_datagram x05 x00 9] in
  let run := returned decode_ascii sample_tracks nat 2%nat
               sample_from_buffer_copy sample_table (λ n, n)
               sample_unpack_cars tps World_init in
  let calls := match run.2 with Ok calls => calls | Raise _ => [] end in
  process_one_cars [] (sample_datagram x05 x00 9) sample_ready
  = stored PacketID.CAR_STATUS []
      (processCarSetup sample_setup (mk_datetime 2019 9 7 14 5 9 0)
         sample_ready)
  ∧ process_one_cars [] (sample_datagram x07 x00 9) sample_ready
    = stored PacketID.CAR_STATUS []
        (processCarStatus sample_status (mk_datetime 2019 9 7 14 5 9 0)
           sample_ready)
  ∧ ∃ jm,
      for_ tps process_one_cars [] World_init = (run.1, Ok jm)
      ∧ items_get PacketID.CAR_SETUPS jm = None
      ∧ items_get PacketID.CAR_STATUS jm
        = last_returned PacketID.CAR_STATUS (by_key calls).
Proof.
  pose proof (car_setups_share_status_batch decode_ascii sample_tracks nat
                2%nat sample_from_buffer_copy sample_table (λ n, n)
                sample_unpack_cars) as (Hsetups & Hstatus & Hdrain).
  split; [|split].
  - apply (Hsetups (sample_datagram x05 x00 9) (sample_header 5 77)
             sample_setup [] sample_ready); reflexivity.
  - apply (Hstatus (sample_datagram x07 x00 9) (sample_header 7 77)
             sample_status [] sample_ready); reflexivity.
  - apply Hdrain. vm_compute. reflexivity.
Defined.

(** The drained set of the witness: roster, session, one CAR_STATUS and
    then one CAR_SETUPS packet. The sink gets no status record: the batch
    under CAR_STATUS holds the setup records of the two drivers. *)
Example car_setups_replace_status :
  (λ b : list (point dict), measurement <$> b)
    <$> sink_calls
          (trace (process_incoming_packets decode_ascii sample_tracks nat
                    2%nat sample_from_buffer_copy sample_table (λ n, n)
                    sample_unpack_cars
                    [sample_datagram x04 x02 9; sample_datagram x01 x4d 9;
                     sample_datagram x07 x00 9; sample_datagram x05 x00 9]
                    World_init).1)
  = [[]; ["MarshalZones"; "MarshalZones"; "SessionData"];
     ["CarSetupData"; "CarSetupData"]].
Proof. vm_compute. reflexivity. Qed.


Lemma idle_ticks_telescope_witness :
  let t1 := mk_datetime 2019 9 7 14 5 10 0 in
  let t2 := mk_datetime 2019 9 7 14 5 12 0 in
  let ticks := [mk_tick [] t1 false; mk_tick [] t2 false] in
  let clocks := utcnow <$> ticks in
  let t_end := default sample_time (last clocks) in
  sample_run_loop ticks sample_time World_init
  = (mk_World Game_init []
       ([] ++ (log_info_no_packets <$> idle_ages sample_time clocks)),
     Ok t_end)
  ∧ sum_Z (idle_ages sample_time clocks) = datetime_sub t_end sample_time.
Proof.
  apply (idle_ticks_telescope decode_ascii sample_tracks nat 2%nat
           sample_from_buffer_copy sample_table (λ n, n) sample_unpack
           [mk_tick [] (mk_datetime 2019 9 7 14 5 10 0) false;
            mk_tick [] (mk_datetime 2019 9 7 14 5 12 0) false]
           sample_time World_init).
  repeat constructor.
Defined.

(** * The hand-over between the threads *)

Lemma hand_over_invariant schedule : ∀ q batches q',
  packets q = [] →
  hand_over schedule q = (batches, q') →
  concat batches ++ self_packets q' = self_packets q ++ arrivals schedule
  ∧ packets q' = [].
Proof.
  induction schedule as [|[tp|] rest IH]; intros q batches q' Hq; simpl.
  - intros [= <- <-]. by rewrite app_nil_r.
  - intros H.
    destruct (IH (record_packet tp q) _ _ Hq H) as [H1 H2]. split; [|done].
    rewrite H1. simpl. by rewrite <- app_assoc.
  - unfold wake_up. simpl. rewrite Hq.
    destruct (self_packets q) as [|tp0 l] eqn:E; simpl.
    + destruct (hand_over rest _) as [bs q1] eqn:Eh. intros [= <- <-].
      by destruct (IH (mk_Handover [] []) _ _ eq_refl Eh) as [H1 H2].
    + destruct (hand_over rest _) as [bs q1] eqn:Eh. intros [= <- <-].
      destruct (IH (mk_Handover [] []) _ _ eq_refl Eh) as [H1 H2].
      split; [|done].
      simpl in *. by rewrite <- app_assoc, H1.
Qed.

(** X24: whatever the order in which the lock is granted to
    [record_packet] and to the swap in [run], the hand-over neither loses
    nor repeats nor reorders a packet: the drained sets, in order,
    followed by what is still queued, are the packets in order of
    arrival; and the list the receiver gets at a swap is empty. *)
Theorem hand_over_conserves (schedule : list action) :
  let run := hand_over schedule Handover_init in
  concat run.1 ++ self_packets run.2 = arrivals schedule
  ∧ packets run.2 = [].
Proof.
  destruct (hand_over schedule Handover_init) as [batches q'] eqn:E.
  by destruct (hand_over_invariant schedule Handover_init batches q'
                 eq_refl E).
Qed.

(** * [formatLapJsonMessage] *)

Lemma format_loop (hf : loc) (packet : PacketLapData_V1.t) (t : string)
  g tr : ∀ n i json (h : list dict) d,
  h !! hf = Some d →
  (i + n ≤ length (PacketLapData_V1.lapData packet))%nat →
  for_ (seq i n) (λ json i,
      setitem hf "driver" (VInt (Z.of_nat i + 1));;
      car ← lift (getitem (PacketLapData_V1.lapData packet) i);
      mret (json ++ [mk_point "LapData" hf t (LapData.fields car)]))
    json (mk_World g h tr)
  = (mk_World g
       (<[hf := match n with
                | O => d
                | S m => <["driver" := VInt (Z.of_nat (i + m) + 1)]> d
                end]> h) tr,
     Ok (json ++ ((λ car, mk_point "LapData" hf t (LapData.fields car))
                    <$> take n (drop i (PacketLapData_V1.lapData packet))))).
Proof.
  induction n as [|n IH]; intros i json h d Hd Hlen.
  - simpl. by rewrite app_nil_r, list_insert_id.
  - destruct (drop i (PacketLapData_V1.lapData packet)) as [|car rest] eqn:Ed.
    { apply (f_equal length) in Ed. rewrite length_drop in Ed.
      simpl in Ed. lia. }
    apply drop_lookup_head in Ed as [Hcar ->].
    cbn [seq]. rewrite for_cons.
    unfold mbind at 1, M_bind, bind. unfold setitem at 1.
    cbn [game heap trace]. cbv iota.
    unfold getitem. rewrite Hcar, lift_Ok. cbv beta.
    cbn [mret M_ret ret]. unfold deref. rewrite Hd. cbn [default].
    rewrite (IH (S i) _ _ (<["driver" := VInt (Z.of_nat i + 1)]> d))
      by (first [apply list_lookup_insert_eq; by eapply lookup_lt_Some|lia]).
    rewrite list_insert_insert_eq, <- app_assoc. cbn [take fmap list_fmap app].
    do 3 f_equal. destruct n as [|m].
    + by rewrite Nat.add_0_r.
    + rewrite insert_insert_eq.
      by replace (S i + m)%nat with (i + S m)%nat by lia.
Qed.

(** X25: [formatLapJsonMessage] does not consult the gate or the roster.
    With twenty lap entries it returns twenty records that all hold the
    header's one field dictionary as tags, in which the loop overwrites
    the driver number: the sink reads driver 20 in every record. *)
Theorem formatLapJsonMessage_records (header_fields : loc)
  (packet : PacketLapData_V1.t) (time : datetime) (w : World) d :
  let dic := <["driver" := VInt 20]> d in
  let h' := <[header_fields := dic]> (heap w) in
  heap w !! header_fields = Some d →
  (20 ≤ length (PacketLapData_V1.lapData packet))%nat →
  ∃ json,
    formatLapJsonMessage header_fields packet time w
    = (mk_World (game w) h' (trace w), Ok json)
    ∧ snapshot h' <$> json
      = (λ car, mk_point "LapData" dic (strftime time time_format)
                  (LapData.fields car))
        <$> take 20 (PacketLapData_V1.lapData packet).
Proof.
  intros dic h' Hd Hlen. unfold formatLapJsonMessage.
  destruct w as [g h tr]. cbn [game heap trace] in *.
  rewrite (bind_Ok _ _ _ _ _
             (format_loop header_fields packet (strftime time time_format)
                g tr 20 0 [] h d Hd ltac:(lia))).
  eexists. split; [reflexivity|].
  rewrite app_nil_l, <- list_fmap_compose. apply list_fmap_ext.
  intros i car _. unfold snapshot, deref, h'. simpl.
  rewrite list_lookup_insert_eq by (by eapply lookup_lt_Some). done.
Qed.

Lemma formatLapJsonMessage_records_witness :
  let w := sample_ready in
  let d : dict := default ∅ (heap w !! 0%nat) in
  let dic := <["driver" := VInt 20]> d in
  let h' := <[0%nat := dic]> (heap w) in
  ∃ json,
    formatLapJsonMessage 0%nat (sample_lap 1) sample_time w
    = (mk_World (game w) h' (trace w), Ok json)
    ∧ snapshot h' <$> json
      = (λ car, mk_point "LapData" dic (strftime sample_time time_format)
                  (LapData.fields car))
        <$> take 20 (PacketLapData_V1.lapData (sample_lap 1)).
Proof.
  apply (formatLapJsonMessage_records 0%nat (sample_lap 1) sample_time
           sample_ready (default ∅ (heap sample_ready !! 0%nat))).
  - vm_compute. reflexivity.
  - vm_compute. lia.
Defined.

(** X26: with fewer than twenty lap entries [formatLapJsonMessage] fails
    with an out-of-range index, whatever the roster. *)
Theorem formatLapJsonMessage_short (header_fields : loc)
  (packet : PacketLapData_V1.t) (time : datetime) (w : World) :
  (length (PacketLapData_V1.lapData packet) < 20)%nat →
  (formatLapJsonMessage header_fields packet time w).2 = Raise IndexError.
Proof.
  intros Hlen. unfold formatLapJsonMessage.
  assert (H : ∀ n i json u,
    (i ≤ length (PacketLapData_V1.lapData packet) < i + n)%nat →
    (for_ (seq i n) (λ json i,
        setitem header_fields "driver" (VInt (Z.of_nat i + 1));;
        car ← lift (getitem (PacketLapData_V1.lapData packet) i);
        mret (json ++ [mk_point "LapData" header_fields
                         (strftime time time_format) (LapData.fields car)]))
      json u).2 = Raise IndexError).
  { induction n as [|n IH]; intros i json u Hi; [lia|].
    cbn [seq]. rewrite for_cons.
    unfold mbind at 1, M_bind, bind. unfold setitem at 1. cbv iota.
    unfold getitem.
    destruct (PacketLapData_V1.lapData packet !! i) as [car|] eqn:Hcar.
    - rewrite lift_Ok. cbv beta. cbn [mret M_ret ret]. apply IH.
      apply lookup_lt_Some in Hcar. lia.
    - by rewrite lift_Raise. }
  unfold mbind, M_bind, bind.
  specialize (H 20%nat 0%nat [] w ltac:(lia)).
  by destruct (for_ _ _ _ _) as [w1 [json|e]]; simpl in *; subst.
Qed.

Lemma formatLapJsonMessage_short_witness :
  (formatLapJsonMessage 0%nat
     (PacketLapData_V1.mk (sample_header 2 77)
        (replicate 19 (LapData.mk ∅))) sample_time sample_ready).2
  = Raise IndexError.
Proof.
  apply formatLapJsonMessage_short. vm_compute. lia.
Defined.

(** * Partial failure and untouched fields *)

Lemma for_app {A St} (l1 l2 : list A) (body : St → A → M St) s w :
  for_ (l1 ++ l2) body s w
  = match for_ l1 body s w with
    | (w', Ok s') => for_ l2 body s' w'
    | (w', Raise e) => (w', Raise e)
    end.
Proof.
  revert s w. induction l1 as [|x l1 IH]; intros s w; [done|].
  cbn [app]. rewrite !for_cons.
  destruct (body s x w) as [w1 [s1|e]]; [apply IH|done].
Qed.

(** X27: a PARTICIPANTS packet whose name in some active slot is not valid
    UTF-8 fails in the middle of rebuilding the roster: the call raises
    [UnicodeDecodeError] and leaves the roster with the names of the slots
    before that one only. *)
Theorem processParticipant_partial_roster
  (utf8_decode : list byte → option string)
  (packet : PacketParticipantsData_V1.t) (time : datetime) (w : World)
  (names : list string) (p : ParticipantData.t) :
  let k := PacketParticipantsData_V1.numActiveCars packet in
  let parts := PacketParticipantsData_V1.participants packet in
  no_roster (game w) ∨ no_identity (game w) →
  (length names < Z.to_nat k)%nat →
  Forall2 (λ p nm, utf8_decode (ParticipantData.name p) = Some nm)
    (take (length names) parts) names →
  parts !! length names = Some p →
  utf8_decode (ParticipantData.name p) = None →
  processParticipant utf8_decode packet time w
  = (mk_World (with_roster (game w) names) (heap w) (trace w),
     Raise UnicodeDecodeError).
Proof.
  intros k parts Hshut Hlt HF Hp Hbad. unfold processParticipant.
  rewrite (bind_Ok _ _ _ _ _ (IsInitialized_shut w Hshut)).
  cbn [negb]. cbv iota.
  unfold mbind at 1, M_bind, bind.
  change (set_drivers [] w)
    with (mk_World (with_roster (game w) []) (heap w) (trace w), Ok tt).
  cbv iota. fold k. fold parts.
  replace (Z.to_nat k)
    with (length names + S (Z.to_nat k - S (length names)))%nat by lia.
  rewrite seq_app. cbn [Nat.add seq].
  match goal with
  | |- context [mbind _ (for_ (?l1 ++ ?l2) ?body ?s) ?w0] =>
      assert (Hloop : for_ (l1 ++ l2) body s w0
                      = (mk_World (with_roster (game w) names) (heap w)
                           (trace w), Raise UnicodeDecodeError))
  end.
  { rewrite for_app.
    rewrite (roster_loop utf8_decode parts (length names) 0%nat _ names HF
               eq_refl).
    cbn [game heap trace]. rewrite foldl_with_driver.
    cbn [drivers sessionID sessionIDBrut init with_roster app].
    rewrite for_cons. unfold getitem, decode.
    rewrite Hp, lift_Ok. cbv beta. rewrite Hbad. reflexivity. }
  by rewrite (bind_Raise _ _ _ _ _ Hloop).
Qed.

Lemma processParticipant_partial_roster_witness :
  let packet :=
    PacketParticipantsData_V1.mk (sample_header 4 77) 2
      [ParticipantData.mk [x41] ∅; ParticipantData.mk [xff] ∅] ∅ in
  processParticipant decode_ascii packet sample_time World_init
  = (mk_World (with_roster Game_init ["A"]) [] [], Raise UnicodeDecodeError).
Proof.
  apply (processParticipant_partial_roster decode_ascii
           (PacketParticipantsData_V1.mk (sample_header 4 77) 2
              [ParticipantData.mk [x41] ∅; ParticipantData.mk [xff] ∅] ∅)
           sample_time World_init ["A"] (ParticipantData.mk [xff] ∅)).
  - left. split; reflexivity.
  - simpl. lia.
  - repeat constructor.
  - reflexivity.
  - reflexivity.
Defined.

Lemma telemetry_rest_body (packet : PacketCarTelemetryData_V1.t) (t : string)
  hd i json driver w car :
  PacketCarTelemetryData_V1.carTelemetryData packet !! i = Some car →
  telemetry_shape car →
  ∃ w' r,
    (dic ← driver_tags hd driver;
     car ← lift (getitem (PacketCarTelemetryData_V1.carTelemetryData packet) i);
     let fields := CarTelemetryData.fields car in
     fields ← lift (expand4 "brakesTemperature" (CarTelemetryData.brakesTemperature car) fields);
     fields ← lift (expand4 "tyresSurfaceTemperature" (CarTelemetryData.tyresSurfaceTemperature car) fields);
     fields ← lift (expand4 "tyresInnerTemperature" (CarTelemetryData.tyresInnerTemperature car) fields);
     fields ← lift (expand4 "tyresPressure" (CarTelemetryData.tyresPressure car) fields);
     fields ← lift (expand4 "surfaceType" (CarTelemetryData.surfaceType car) fields);
     fields ← lift (dict_del fields "surfaceType");
     fields ← lift (dict_del fields "tyresPressure");
     fields ← lift (dict_del fields "tyresInnerTemperature");
     fields ← lift (dict_del fields "tyresSurfaceTemperature");
     fields ← lift (dict_del fields "brakesTemperature");
     mret (S i, json ++ [mk_point "CarTelemetryData" dic t fields])) w
    = (w', Ok (S i, json ++ [r]))
    ∧ game w' = game w ∧ trace w' = trace w ∧ telemetry_rest packet i r.
Proof.
  intros Hcar (Hb & Hs & Hi & Hp & Hy & Kb & Ks & Ki & Kp & Ky).
  destruct (driver_tags_run hd driver w) as [hp Htags].
  rewrite (bind_Ok _ _ _ _ _ Htags).
  unfold getitem. rewrite Hcar, lift_Ok. cbv beta.
  destruct (length_4 _ Hb) as (b0 & b1 & b2 & b3 & Eb).
  destruct (length_4 _ Hs) as (s0 & s1 & s2 & s3 & Es).
  destruct (length_4 _ Hi) as (i0 & i1 & i2 & i3 & Ei).
  destruct (length_4 _ Hp) as (p0 & p1 & p2 & p3 & Ep).
  destruct (length_4 _ Hy) as (y0 & y1 & y2 & y3 & Ey).
  rewrite Eb, Es, Ei, Ep, Ey.
  repeat (rewrite expand4_Ok, lift_Ok; cbv beta).
  cbv beta iota delta [String.append].
  repeat (rewrite dict_del_Ok, lift_Ok;
          [|by rewrite ?lookup_delete_ne, ?lookup_insert_ne by done]).
  eexists _, _. split; [reflexivity|].
  split; [done|]. split; [done|].
  exists car. split; [done|]. intros k Hk.
  assert (Hk' : Forall (λ q, k ≠ q) telemetry_keys).
  { apply Forall_forall. intros q Hq ->. by apply Hk. }
  vm_compute in Hk'. clear Hk.
  repeat match goal with
         | H : Forall _ (_ :: _) |- _ =>
             apply Forall_cons in H as [? H]
         end.
  cbn [fields].
  by rewrite !lookup_delete_ne, !lookup_insert_ne by done.
Qed.

(** X28: once ready, every per-driver CAR_TELEMETRY record carries, beside
    the expanded wheel arrays, every other field of its car slot
    unchanged. *)
Theorem processCarTelemetry_keeps_rest (packet : PacketCarTelemetryData_V1.t)
  (time : datetime) (w : World) :
  Ready w →
  (∀ i, (i < length (drivers (game w)))%nat →
     ∃ car, PacketCarTelemetryData_V1.carTelemetryData packet !! i = Some car
            ∧ telemetry_shape car) →
  ∃ w' json,
    processCarTelemetry packet time w = (w', Ok json)
    ∧ ∀ i, (i < length (drivers (game w)))%nat →
           ∃ r, json !! i = Some r ∧ telemetry_rest packet i r.
Proof.
  intros Hready Hcars. unfold processCarTelemetry.
  rewrite (bind_Ok _ _ _ _ _ (IsInitialized_Ready w Hready)). simpl.
  unfold mbind at 1, M_bind, bind. simpl.
  match goal with
  | |- context [mbind _ (for_ ?ds ?body ?s) ?w0] =>
      assert (Hbody : ∀ i json driver w1,
                (i < length (drivers (game w)))%nat →
                ∃ w' r, body (i, json) driver w1
                        = (w', Ok (S i, json ++ [r]))
                        ∧ game w' = game w1 ∧ trace w' = trace w1
                        ∧ telemetry_rest packet i r);
      [|destruct (indexed_loop body (telemetry_rest packet) _ Hbody
                   ds 0%nat [] w0 ltac:(simpl; lia))
          as (w' & json & Hloop & _ & _ & Hlen & Hrec)]
  end.
  - intros i json driver w0 Hi. destruct (Hcars i Hi) as (car & Hcar & Hshape).
    apply (telemetry_rest_body packet _ _ i json driver w0 car Hcar Hshape).
  - exists w', json. unfold mbind at 1, M_bind, bind. rewrite Hloop. simpl.
    split; [done|]. intros i Hi.
    destruct (Hrec i Hi) as (r & Hr & HR). by exists r.
Qed.

Lemma processCarTelemetry_keeps_rest_witness :
  ∃ w' json,
    processCarTelemetry sample_telemetry sample_time sample_ready
    = (w', Ok json)
    ∧ ∀ i, (i < length (drivers (game sample_ready)))%nat →
           ∃ r, json !! i = Some r ∧ telemetry_rest sample_telemetry i r.
Proof.
  apply (processCarTelemetry_keeps_rest sample_telemetry sample_time
           sample_ready).
  - vm_compute. reflexivity.
  - intros i Hi. exists (sample_car_telemetry 1 2 3 4). split.
    + apply lookup_replicate_2. vm_compute in Hi. lia.
    + unfold telemetry_shape. simpl.
      repeat split; try reflexivity; by eexists.
Defined.
